(** * go-aws: request resolution, retry strategy and resilient transport

    A shallow embedding of the Go packages [aws] and [aws/s3] and the
    properties of their retry and addressing logic.

    Conventions of the embedding.
    - Go's [int], [int64] and [time.Duration] are [Z] with the 64-bit
      two's-complement wrap-around written out ([wrap64]).
    - A [time.Time] is an instant in nanoseconds on the clock that
      [time.Now] reads; [Add], [Sub] and [Before] are the ones of package
      [time] ([Sub] saturates to the range of a [Duration]).
    - A Go [string] is a byte string; [map[string][]string] ([url.Values],
      [http.Header]) is a finite map from strings to lists of strings.
    - A Go [error] is [option error], [None] being [nil].
    - A pointer receiver mutated in place is passed and returned explicitly.
    - The clock, [time.Sleep] and the network live in a [World] threaded by
      the monad [M]; a computation may return, panic or fail to return. *)

From Stdlib Require Import ZArith Lia String Ascii List Bool.
From stdpp Require Import base option gmap strings list.

Local Open Scope string_scope.
Local Open Scope Z_scope.

(** ** Machine integers *)

Definition wrap64 (z : Z) : Z := (z + 2 ^ 63) mod 2 ^ 64 - 2 ^ 63.

Definition min_int64 : Z := - 2 ^ 63.
Definition max_int64 : Z := 2 ^ 63 - 1.

Definition clamp64 (z : Z) : Z :=
  if z <? min_int64 then min_int64
  else if max_int64 <? z then max_int64
  else z.

(** ** Package time *)

Definition Duration := Z.
Definition Time := Z.

Definition Millisecond : Duration := 1000000.
Definition Second : Duration := 1000 * Millisecond.

Definition Time_Add (t : Time) (d : Duration) : Time := t + d.
Definition Time_Sub (t u : Time) : Duration := clamp64 (t - u).
Definition Time_Before (t u : Time) : bool := t <? u.

(** ** Package strings *)

Fixpoint contains_byte (chars : string) (c : ascii) : bool :=
  match chars with
  | EmptyString => false
  | String d chars' => if Ascii.eqb c d then true else contains_byte chars' c
  end.

Fixpoint IndexAny_from (i : Z) (s chars : string) : Z :=
  match s with
  | EmptyString => -1
  | String c s' =>
      if contains_byte chars c then i else IndexAny_from (i + 1) s' chars
  end.

(** [strings.IndexAny]: index of the first byte of [s] that occurs in
    [chars], or -1.  (The sets used here are ASCII, for which the byte and
    the code-point searches agree.) *)
Definition IndexAny (s chars : string) : Z := IndexAny_from 0 s chars.

Definition HasPrefix (s p : string) : bool := String.prefix p s.

Fixpoint Replace_go (old new : string) (skip : nat) (s : string) : string :=
  match s with
  | EmptyString => EmptyString
  | String c s' =>
      match skip with
      | S k => Replace_go old new k s'
      | O =>
          if String.prefix old s
          then new +:+ Replace_go old new (String.length old - 1) s'
          else String c (Replace_go old new O s')
      end
  end.

(** [strings.Replace s old new (-1)] for a non-empty [old]: every
    non-overlapping occurrence, left to right. *)
Definition Replace (s old new : string) : string := Replace_go old new O s.

(** ** Packages net/url and net/http: the data *)

Abbreviation Values := (gmap string (list string)).
Abbreviation Header := (gmap string (list string)).

Record URL := {
  Scheme : string;
  Host : string;
  Path : string;
  RawQuery : string
}.

Record Response := {
  Status : string;
  StatusCode : Z;
  RespHeader : Header;
  Body : string
}.

Record Request := {
  ReqURL : URL;
  Method : string;
  ProtoMajor : Z;
  ProtoMinor : Z;
  Close : bool;
  ReqHeader : Header;
  ContentLength : Z;
  ReqBody : option string
}.

(** ** Errors

    The dynamic types an [error] value takes in these packages.  [S3Error]
    is [*s3.Error]; its struct is declared outside the files at hand. *)

(** Modelled from the spec: the declaration of [s3.Error] is missing; the
    spec's StructuredError is "{httpStatusCode, errorCode (string token),
    message, requestID (optional)}", and the code at hand reads and writes
    [StatusCode], [Code] and [Message]. *)
Record Error := {
  ErrStatusCode : Z;
  Code : string;
  Message : string;
  RequestId : string
}.

(** The zero value [Error{}]. *)
Definition Error_zero : Error :=
  {| ErrStatusCode := 0; Code := ""; Message := ""; RequestId := "" |}.

Inductive error :=
  | ErrEOF                                   (* io.EOF *)
  | ErrUnexpectedEOF                         (* io.ErrUnexpectedEOF *)
  | DNSError (temporary : bool)              (* *net.DNSError *)
  | OpError (Op : string) (temporary : bool) (* *net.OpError *)
  | NetError (temporary : bool)              (* any other net.Error *)
  | S3Error (e : Error)                      (* *s3.Error *)
  | BadBucket (bucket : string)    (* fmt.Errorf("bad S3 bucket: %q", _) *)
  | BadEndpoint (baseurl msg : string)
                          (* fmt.Errorf("bad S3 endpoint URL %q: %v", _, _) *)
  | OtherError (msg : string).

(** ** The world and the monad of effects *)

Record World := {
  clock : nat -> Time;          (* what successive calls of time.Now read *)
  ticks : nat;                  (* calls of time.Now so far *)
  slept : list Duration;        (* calls of time.Sleep, latest first *)
  wire : nat -> Request -> option Response * option error;
                                (* the underlying HTTP transport *)
  sent : list Request;          (* its executions so far, latest first *)
  closed : nat                  (* response bodies closed so far *)
}.

Inductive outcome (A : Type) :=
  | Done (a : A)
  | Panic (msg : string)
  | Stuck.                      (* the call has not returned *)
Arguments Done {A} a.
Arguments Panic {A} msg.
Arguments Stuck {A}.

Definition M (A : Type) : Type := World -> outcome A * World.

#[global] Instance M_ret : MRet M := fun A a w => (Done a, w).
#[global] Instance M_bind : MBind M := fun A B f m w =>
  match m w with
  | (Done a, w') => f a w'
  | (Panic msg, w') => (Panic msg, w')
  | (Stuck, w') => (Stuck, w')
  end.

Definition panic {A} (msg : string) : M A := fun w => (Panic msg, w).
Definition stuck {A} : M A := fun w => (Stuck, w).

Definition time_Now : M Time := fun w =>
  (Done (clock w (ticks w)),
   {| clock := clock w; ticks := S (ticks w); slept := slept w;
      wire := wire w; sent := sent w; closed := closed w |}).

Definition time_Sleep (d : Duration) : M unit := fun w =>
  (Done tt,
   {| clock := clock w; ticks := ticks w; slept := d :: slept w;
      wire := wire w; sent := sent w; closed := closed w |}).

(** One execution of the underlying transport ([http.Transport.RoundTrip],
    [http.DefaultClient.Do]). *)
Definition transport_RoundTrip (req : Request)
  : M (option Response * option error) := fun w =>
  (Done (wire w (length (sent w)) req),
   {| clock := clock w; ticks := ticks w; slept := slept w;
      wire := wire w; sent := req :: sent w; closed := closed w |}).

Definition Body_Close : M unit := fun w =>
  (Done tt,
   {| clock := clock w; ticks := ticks w; slept := slept w;
      wire := wire w; sent := sent w; closed := S (closed w) |}).

(** ** Package aws *)

Module aws.

(** *** attempt.go *)

Record AttemptStrategy := {
  Total : Duration;   (* total duration of attempt *)
  Delay : Duration;   (* interval between each try in the burst *)
  Min : Z             (* minimum number of retries; overrides Total *)
}.

Record Attempt := {
  strategy : AttemptStrategy;
  last : Time;
  end_ : Time;
  force : bool;
  count : Z
}.

Definition Start (self : AttemptStrategy) : M Attempt :=
  now ← time_Now;
  mret {| strategy := self; last := now; end_ := Time_Add now (Total self);
          force := true; count := 0 |}.

Definition nextSleep (self : Attempt) (now : Time) : Duration :=
  let sleep := wrap64 (Delay (strategy self) - Time_Sub now (last self)) in
  if sleep <? 0 then 0 else sleep.

Definition Next (self : Attempt) : M (bool * Attempt) :=
  now ← time_Now;
  let sleep := nextSleep self now in
  if negb (force self)
     && negb (Time_Before (Time_Add now sleep) (end_ self))
     && (Min (strategy self) <=? count self)
  then mret (false, self)
  else
    now' ← (if (0 <? sleep) && (0 <? count self)
            then time_Sleep sleep;; time_Now
            else mret now);
    mret (true, {| strategy := strategy self; last := now';
                   end_ := end_ self; force := false;
                   count := wrap64 (count self + 1) |}).

Definition HasNext (self : Attempt) : M (bool * Attempt) :=
  if force self || (count self <? Min (strategy self))
  then mret (true, self)
  else
    now ← time_Now;
    if Time_Before (Time_Add now (nextSleep self now)) (end_ self)
    then mret (true, {| strategy := strategy self; last := last self;
                        end_ := end_ self; force := true;
                        count := count self |})
    else mret (false, self).

(** The polls of a caller's loop [for a := s.Start(); a.Next(); { ... }]
    that never asks [HasNext]: [n] calls of [Next] in a row, with their
    answers.  Whatever the loop body does in between shows only in the
    clock. *)
Fixpoint Next_times (n : nat) (self : Attempt) : M (list bool * Attempt) :=
  match n with
  | O => mret ([], self)
  | S n' =>
      '(b, self) ← Next self;
      '(bs, self) ← Next_times n' self;
      mret (b :: bs, self)
  end.

(** *** client.go *)

(** [err.(net.Error)]: the errors that implement [net.Error], with what
    their [Temporary] method answers. *)
Definition as_net_Error (err : option error) : option bool :=
  match err with
  | Some (DNSError t) | Some (OpError _ t) | Some (NetError t) => Some t
  | _ => None
  end.

Definition awsRetry (req : Request) (res : option Response)
    (err : option error) : bool :=
  let retry := false in
  (* Don't retry if we got a result and no error. *)
  let retry :=
    match err, res with
    | None, Some _ => false
    | _, _ => retry
    end in
  (* Retry if there's a temporary network error. *)
  let retry :=
    match as_net_Error err with
    | Some true => true
    | _ => retry
    end in
  (* Retry if we get a 5xx series error. *)
  let retry :=
    match res with
    | Some r =>
        if (500 <=? StatusCode r) && (StatusCode r <? 600) then true
        else retry
    | None => retry
    end in
  retry.

(** [LinearBackoff]: [time.Duration(try*100) * time.Millisecond]. *)
Definition LinearBackoff (try : Z) : M unit :=
  time_Sleep (wrap64 (wrap64 (try * 100) * Millisecond)).

(** *** resilient_transport.go *)

Record ResilientTransport := {
  DialTimeout : Duration;
  MaxTries : Z;
  Deadline : M Time;
  ShouldRetry : Request -> option Response -> option error -> bool;
  Wait : option (Z -> M unit)
}.

(** What one iteration of the loop of [tries] does after the predicate
    asked for a retry: close the body, then wait. *)
Definition close_and_wait (self : ResilientTransport) (try : Z)
    (response : option Response) : M unit :=
  (if response is Some _ then Body_Close else mret tt);;
  (if Wait self is Some wait then wait try else mret tt).

(** The copy whose loop executes the underlying transport:
    [response, error = self.transport.RoundTrip(request)].
    [left] is [MaxTries - try], the number of iterations the loop
    condition [try < self.MaxTries] still allows. *)
Module fixed.

Fixpoint tries_from (self : ResilientTransport) (request : Request)
    (left : nat) (try : Z) (result : option Response * option error)
  : M (option Response * option error) :=
  match left with
  | O => mret result
  | S left' =>
      result ← transport_RoundTrip request;
      if negb (ShouldRetry self request result.1 result.2)
      then mret result
      else
        close_and_wait self try result.1;;
        tries_from self request left' (try + 1) result
  end.

Definition tries (self : ResilientTransport) (request : Request)
  : M (option Response * option error) :=
  tries_from self request (Z.to_nat (MaxTries self)) 0 (None, None).

Definition RoundTrip := tries.

End fixed.

(** The copy in [aws/resilient_transport.go], whose loop calls the
    method it is called from: [response, error = self.RoundTrip(req)].
    [depth] bounds the nesting of calls; at depth 0 the call has not
    returned. *)
Module recursive.

Fixpoint RoundTrip (depth : nat) (self : ResilientTransport) (req : Request)
  {struct depth} : M (option Response * option error) :=
  match depth with
  | O => stuck
  | S depth' =>
      (* tries *)
      (fix tries_from (left : nat) (try : Z)
           (result : option Response * option error) {struct left}
         : M (option Response * option error) :=
         match left with
         | O => mret result
         | S left' =>
             result ← RoundTrip depth' self req;
             if negb (ShouldRetry self req result.1 result.2)
             then mret result
             else
               close_and_wait self try result.1;;
               tries_from left' (try + 1) result
         end) (Z.to_nat (MaxTries self)) 0 (None, None)
  end.

Definition tries (depth : nat) (self : ResilientTransport) (req : Request)
  : M (option Response * option error) :=
  RoundTrip (S depth) self req.

End recursive.

End aws.

(** ** Package strconv *)

Definition digit_of (c : ascii) : option Z :=
  let n := Z.of_N (N_of_ascii c) in
  if (48 <=? n) && (n <=? 57) then Some (n - 48) else None.

Fixpoint digits_from (acc : Z) (s : string) : option Z :=
  match s with
  | EmptyString => Some acc
  | String c s' =>
      match digit_of c with
      | Some d => digits_from (10 * acc + d) s'
      | None => None
      end
  end.

Definition unsigned_of (s : string) : option Z :=
  match s with
  | EmptyString => None
  | _ => digits_from 0 s
  end.

(** The value [strconv.ParseInt(s, 10, 64)] returns, its error dropped:
    0 on a syntax error, the nearest bound on a range error. *)
Definition ParseInt (s : string) : Z :=
  match s with
  | EmptyString => 0
  | String c s' =>
      let '(neg, ds) :=
        if Ascii.eqb c "+" then (false, s')
        else if Ascii.eqb c "-" then (true, s')
        else (false, s) in
      match unsigned_of ds with
      | Some n => clamp64 (if neg : bool then - n else n)
      | None => 0
      end
  end.

Definition digit_char (d : Z) : ascii := ascii_of_N (Z.to_N (48 + d)).

Fixpoint digits_to (fuel : nat) (n : Z) (acc : string) : string :=
  match fuel with
  | O => acc
  | S fuel' =>
      let acc' := String (digit_char (n mod 10)) acc in
      if n <? 10 then acc' else digits_to fuel' (n / 10) acc'
  end.

(** [strconv.FormatInt(i, 10)] of an [int64]: at most 19 digits, with a
    minus sign in front of a negative number. *)
Definition FormatInt (i : Z) : string :=
  if i <? 0 then String "-" (digits_to 20 (- i) "") else digits_to 20 i "".

(** ** What the packages take from elsewhere

    The parts of the Go library that [s3] calls and that are not modelled
    bit by bit, and [sign], which is declared outside the files at hand.
    Go maps are updated in place, so [sign] is given both maps back. *)

Record Auth := {
  AccessKey : string;
  SecretKey : string;
  Token : string
}.

Class Platform := {
  (* url.Parse: the URL, or the text of the error *)
  url_Parse : string -> URL + string;
  (* url.Values.Encode *)
  Values_Encode : Values -> string;
  (* t.In(time.UTC).Format(time.RFC1123) *)
  Format_RFC1123 : Time -> string;
  (* sign(auth, method, canonicalPath, params, headers) *)
  sign : Auth -> string -> string -> Values -> Header -> Values * Header;
  (* xml.NewDecoder(r.Body).Decode(&err): the fields the decoder leaves
     in err; its own error is dropped by the caller *)
  xml_Decode_Error : Response -> Error -> Error;
  (* the shape a caller passes as resp, and
     xml.NewDecoder(hresp.Body).Decode(resp) *)
  Shape : Type;
  xml_Decode : Response -> Shape -> Shape * option error
}.

(** ** Package aws, continued: auth.go and meta_data.go

    The environment is a finite map from names to values, [os.Getenv]
    giving the empty string for a name that is not set.  The HTTP client
    of the metadata service ([RetryingClient.Get]), [json.Unmarshal] and
    [ioutil.ReadAll] are taken as given. *)

Module auth.

Record credentials := {
  cred_Code : string;
  LastUpdated : string;
  cred_Type : string;
  AccessKeyId : string;
  SecretAccessKey : string;
  cred_Token : string;
  Expiration : string
}.

Definition credentials_zero : credentials :=
  {| cred_Code := ""; LastUpdated := ""; cred_Type := ""; AccessKeyId := "";
     SecretAccessKey := ""; cred_Token := ""; Expiration := "" |}.

Definition Getenv (env : gmap string string) (name : string) : string :=
  default "" (env !! name).

(** [EnvAuth] creates an [Auth] based on environment information. *)
Definition EnvAuth (env : gmap string string) : Auth * option error :=
  let access := Getenv env "AWS_ACCESS_KEY_ID" in
  let access :=
    if String.eqb access "" then Getenv env "AWS_ACCESS_KEY" else access in
  let secret := Getenv env "AWS_SECRET_ACCESS_KEY" in
  let secret :=
    if String.eqb secret "" then Getenv env "AWS_SECRET_KEY" else secret in
  let err := None in
  let err :=
    if String.eqb access ""
    then Some (OtherError
      "AWS_ACCESS_KEY_ID or AWS_ACCESS_KEY not found in environment")
    else err in
  let err :=
    if String.eqb secret ""
    then Some (OtherError
      "AWS_SECRET_ACCESS_KEY or AWS_SECRET_KEY not found in environment")
    else err in
  ({| AccessKey := access; SecretKey := secret; Token := "" |}, err).

Section WithClient.
Variable client_Get : string -> M (option Response * option error).
Variable json_Unmarshal : string -> credentials -> credentials * option error.
Variable ReadAll : Response -> string * option error.

(** [GetMetaData] retrieves instance metadata about the current machine.
    The deferred [Body.Close] runs at every return after the response has
    been obtained. *)
Definition GetMetaData (path : string) : M (option string * option error) :=
  let url := "http://169.254.169.254/latest/meta-data/" +:+ path in
  '(response, err) ← client_Get url;
  match err, response with
  | Some err, _ => mret (None, Some err)
  | None, None => panic "nil pointer dereference"
  | None, Some response =>
      if negb (StatusCode response =? 200) then
        Body_Close;;
        mret (None,
              Some (OtherError ("Code " +:+ FormatInt (StatusCode response)
                                +:+ " returned for url " +:+ url)))
      else
        let '(body, err) := ReadAll response in
        Body_Close;;
        match err with
        | Some err => mret (None, Some err)
        | None => mret (Some body, None)
        end
  end.

Definition getInstanceCredentials : M (credentials * option error) :=
  let cred := credentials_zero in
  let credentialPath := "iam/security-credentials/" in
  (* Get the instance role *)
  '(role, err) ← GetMetaData credentialPath;
  match err with
  | Some err => mret (cred, Some err)
  | None =>
      (* Get the instance role credentials *)
      '(credentialJSON, err) ←
        GetMetaData (credentialPath +:+ default "" role);
      match err with
      | Some err => mret (cred, Some err)
      | None => mret (json_Unmarshal (default "" credentialJSON) cred)
      end
  end.

(** [GetAuth] creates an [Auth] based on either passed in credentials,
    environment information or instance based role credentials. *)
Definition GetAuth (env : gmap string string) (accessKey secretKey : string)
  : M (Auth * option error) :=
  (* First try passed in credentials *)
  if negb (String.eqb accessKey "") && negb (String.eqb secretKey "") then
    mret ({| AccessKey := accessKey; SecretKey := secretKey; Token := "" |},
          None)
  else
    (* Next try to get auth from the environment *)
    let '(auth, err) := EnvAuth env in
    match err with
    | None => mret (auth, None)
    | Some _ =>
        (* Next try getting auth from the instance role *)
        '(credentials, err) ← getInstanceCredentials;
        match err with
        | None =>
            mret ({| AccessKey := AccessKeyId credentials;
                     SecretKey := SecretAccessKey credentials;
                     Token := cred_Token credentials |}, None)
        | Some _ =>
            mret (auth,
                  Some (OtherError "No valid AWS authentication found"))
        end
    end.

End WithClient.

End auth.

(** ** Package s3 *)

Module s3.

Import aws.

(** *** regions.go *)

Record Region := {
  Name : string;
  EC2Endpoint : string;
  S3Endpoint : string;
  S3BucketEndpoint : string;
  S3LocationConstraint : bool;
  S3LowercaseBucket : bool;
  SDBEndpoint : string;
  SNSEndpoint : string;
  SQSEndpoint : string;
  IAMEndpoint : string
}.

Definition USEast : Region :=
  {| Name := "us-east-1";
     EC2Endpoint := "https://ec2.us-east-1.amazonaws.com";
     S3Endpoint := "https://s3.amazonaws.com";
     S3BucketEndpoint := "";
     S3LocationConstraint := false;
     S3LowercaseBucket := false;
     SDBEndpoint := "https://sdb.amazonaws.com";
     SNSEndpoint := "https://sns.us-east-1.amazonaws.com";
     SQSEndpoint := "https://sqs.us-east-1.amazonaws.com";
     IAMEndpoint := "https://iam.amazonaws.com" |}.

Definition USWest : Region :=
  {| Name := "us-west-1";
     EC2Endpoint := "https://ec2.us-west-1.amazonaws.com";
     S3Endpoint := "https://s3-us-west-1.amazonaws.com";
     S3BucketEndpoint := "";
     S3LocationConstraint := true;
     S3LowercaseBucket := true;
     SDBEndpoint := "https://sdb.us-west-1.amazonaws.com";
     SNSEndpoint := "https://sns.us-west-1.amazonaws.com";
     SQSEndpoint := "https://sqs.us-west-1.amazonaws.com";
     IAMEndpoint := "https://iam.amazonaws.com" |}.

Definition USWest2 : Region :=
  {| Name := "us-west-2";
     EC2Endpoint := "https://ec2.us-west-2.amazonaws.com";
     S3Endpoint := "https://s3-us-west-2.amazonaws.com";
     S3BucketEndpoint := "";
     S3LocationConstraint := true;
     S3LowercaseBucket := true;
     SDBEndpoint := "https://sdb.us-west-2.amazonaws.com";
     SNSEndpoint := "https://sns.us-west-2.amazonaws.com";
     SQSEndpoint := "https://sqs.us-west-2.amazonaws.com";
     IAMEndpoint := "https://iam.amazonaws.com" |}.

Definition EUWest : Region :=
  {| Name := "eu-west-1";
     EC2Endpoint := "https://ec2.eu-west-1.amazonaws.com";
     S3Endpoint := "https://s3-eu-west-1.amazonaws.com";
     S3BucketEndpoint := "";
     S3LocationConstraint := true;
     S3LowercaseBucket := true;
     SDBEndpoint := "https://sdb.eu-west-1.amazonaws.com";
     SNSEndpoint := "https://sns.eu-west-1.amazonaws.com";
     SQSEndpoint := "https://sqs.eu-west-1.amazonaws.com";
     IAMEndpoint := "https://iam.amazonaws.com" |}.

Definition APSoutheast : Region :=
  {| Name := "ap-southeast-1";
     EC2Endpoint := "https://ec2.ap-southeast-1.amazonaws.com";
     S3Endpoint := "https://s3-ap-southeast-1.amazonaws.com";
     S3BucketEndpoint := "";
     S3LocationConstraint := true;
     S3LowercaseBucket := true;
     SDBEndpoint := "https://sdb.ap-southeast-1.amazonaws.com";
     SNSEndpoint := "https://sns.ap-southeast-1.amazonaws.com";
     SQSEndpoint := "https://sqs.ap-southeast-1.amazonaws.com";
     IAMEndpoint := "https://iam.amazonaws.com" |}.

Definition APSoutheast2 : Region :=
  {| Name := "ap-southeast-2";
     EC2Endpoint := "https://ec2.ap-southeast-2.amazonaws.com";
     S3Endpoint := "https://s3-ap-southeast-2.amazonaws.com";
     S3BucketEndpoint := "";
     S3LocationConstraint := true;
     S3LowercaseBucket := true;
     SDBEndpoint := "https://sdb.ap-southeast-2.amazonaws.com";
     SNSEndpoint := "https://sns.ap-southeast-2.amazonaws.com";
     SQSEndpoint := "https://sqs.ap-southeast-2.amazonaws.com";
     IAMEndpoint := "https://iam.amazonaws.com" |}.

Definition APNortheast : Region :=
  {| Name := "ap-northeast-1";
     EC2Endpoint := "https://ec2.ap-northeast-1.amazonaws.com";
     S3Endpoint := "https://s3-ap-northeast-1.amazonaws.com";
     S3BucketEndpoint := "";
     S3LocationConstraint := true;
     S3LowercaseBucket := true;
     SDBEndpoint := "https://sdb.ap-northeast-1.amazonaws.com";
     SNSEndpoint := "https://sns.ap-northeast-1.amazonaws.com";
     SQSEndpoint := "https://sqs.ap-northeast-1.amazonaws.com";
     IAMEndpoint := "https://iam.amazonaws.com" |}.

Definition SAEast : Region :=
  {| Name := "sa-east-1";
     EC2Endpoint := "https://ec2.sa-east-1.amazonaws.com";
     S3Endpoint := "https://s3-sa-east-1.amazonaws.com";
     S3BucketEndpoint := "";
     S3LocationConstraint := true;
     S3LowercaseBucket := true;
     SDBEndpoint := "https://sdb.sa-east-1.amazonaws.com";
     SNSEndpoint := "https://sns.sa-east-1.amazonaws.com";
     SQSEndpoint := "https://sqs.sa-east-1.amazonaws.com";
     IAMEndpoint := "https://iam.amazonaws.com" |}.

Definition Regions : gmap string Region :=
  list_to_map
    [(Name APNortheast, APNortheast); (Name APSoutheast, APSoutheast);
     (Name APSoutheast2, APSoutheast2); (Name EUWest, EUWest);
     (Name USEast, USEast); (Name USWest, USWest);
     (Name USWest2, USWest2); (Name SAEast, SAEast)].

(** *** request.go *)

Record request := {
  method : string;
  bucket : string;
  path : string;
  signpath : string;
  params : Values;
  headers : Header;
  baseurl : string;
  payload : option string;
  prepared : bool
}.

Definition set_signing (params' : Values) (headers' : Header)
    (req : request) : request :=
  {| method := method req; bucket := bucket req; path := path req;
     signpath := signpath req; params := params'; headers := headers';
     baseurl := baseurl req; payload := payload req;
     prepared := prepared req |}.

Definition set_headers (headers' : Header) (req : request) : request :=
  set_signing (params req) headers' req.

(** *** s3.go *)

Record S3 := {
  S3_Auth : Auth;
  S3_Region : Region;
  private : Z
}.

Definition attempts : AttemptStrategy :=
  {| Min := 5; Total := 5 * Second; Delay := 200 * Millisecond |}.

Section WithPlatform.
Context `{Platform}.

Definition url (self : request) : URL + error :=
  match url_Parse (baseurl self) with
  | inr msg => inr (BadEndpoint (baseurl self) msg)
  | inl u =>
      inl {| Scheme := Scheme u; Host := Host u;
             Path := path self; RawQuery := Values_Encode (params self) |}
  end.

(** The block of [prepare] guarded by [if !req.prepared]: the error it
    returns early with, if any, and the request as it leaves it. *)
Definition prepare_resolve (self : S3) (req : request)
  : option error * request :=
  (* req.prepared = true *)
  let method' := if String.eqb (method req) "" then "GET" else method req in
  (* params and headers are copied key by key: the same maps by value *)
  let path' :=
    if negb (HasPrefix (path req) "/") then "/" +:+ path req else path req in
  let signpath' := path' in
  if negb (String.eqb (bucket req) "") then
    let baseurl' := S3BucketEndpoint (S3_Region self) in
    if String.eqb baseurl' "" then
      (* Use the path method to address the bucket. *)
      (None,
       {| method := method'; bucket := bucket req;
          path := "/" +:+ bucket req +:+ path';
          signpath := "/" +:+ bucket req +:+ signpath';
          params := params req; headers := headers req;
          baseurl := S3Endpoint (S3_Region self);
          payload := payload req; prepared := true |})
    else if 0 <=? IndexAny (bucket req) "/:@" then
      (* Just in case, prevent injection. *)
      (Some (BadBucket (bucket req)),
       {| method := method'; bucket := bucket req; path := path';
          signpath := signpath';
          params := params req; headers := headers req;
          baseurl := baseurl';
          payload := payload req; prepared := true |})
    else
      (None,
       {| method := method'; bucket := bucket req; path := path';
          signpath := "/" +:+ bucket req +:+ signpath';
          params := params req; headers := headers req;
          baseurl := Replace baseurl' "${bucket}" (bucket req);
          payload := payload req; prepared := true |})
  else
    (None,
     {| method := method'; bucket := bucket req; path := path';
        signpath := signpath';
        params := params req; headers := headers req;
        baseurl := baseurl req;
        payload := payload req; prepared := true |}).

(** [prepare] sets up [req] to be delivered to S3. *)
Definition prepare (self : S3) (req : request) : M (option error * request) :=
  match (if negb (prepared req) then prepare_resolve self req
         else (None, req)) with
  | (Some err, req) => mret (Some err, req)
  | (None, req) =>
      (* Always sign again *)
      match url_Parse (baseurl req) with
      | inr msg => mret (Some (BadEndpoint (baseurl req) msg), req)
      | inl u =>
          now ← time_Now;
          let headers' :=
            <["Date" := [Format_RFC1123 now]]>
              (<["Host" := [Host u]]> (headers req)) in
          let '(params'', headers'') :=
            sign (S3_Auth self) (method req) (signpath req)
                 (params req) headers' in
          mret (None, set_signing params'' headers'' req)
      end
  end.

Definition buildError (r : Response) : M error :=
  let err := Error_zero in
  let err := xml_Decode_Error r err in
  Body_Close;;
  let err := {| ErrStatusCode := StatusCode r; Code := Code err;
                Message := Message err; RequestId := RequestId err |} in
  let err :=
    if String.eqb (Message err) ""
    then {| ErrStatusCode := ErrStatusCode err; Code := Code err;
            Message := Status r; RequestId := RequestId err |}
    else err in
  mret (S3Error err).

(** [run] sends [req] and returns the http response from the server.
    [hreq.Header] is the map [req.headers] itself, so the deletion of
    Content-Length is seen by both. *)
Definition run (req : request) (resp : option Shape)
  : M (option Response * option error * request * option Shape) :=
  match url req with
  | inr err => mret (None, Some err, req, resp)
  | inl u =>
      '(length, req) ←
        match headers req !! "Content-Length" with
        | Some v =>
            match v with
            | [] => panic "index out of range"
            | v0 :: _ =>
                mret (ParseInt v0,
                      set_headers (delete "Content-Length" (headers req)) req)
            end
        | None => mret (0, req)
        end;
      let hreq :=
        {| ReqURL := u; Method := method req; ProtoMajor := 1;
           ProtoMinor := 1; Close := true; ReqHeader := headers req;
           ContentLength := length; ReqBody := payload req |} in
      '(hresp, err) ← transport_RoundTrip hreq;
      match err, hresp with
      | Some err, _ => mret (None, Some err, req, resp)
      | None, None => panic "nil pointer dereference"
      | None, Some hresp =>
          if negb (StatusCode hresp =? 200) && negb (StatusCode hresp =? 204)
          then
            Body_Close;;
            err ← buildError hresp;
            mret (None, Some err, req, resp)
          else
            match resp with
            | Some shape =>
                let '(shape, err) := xml_Decode hresp shape in
                Body_Close;;
                mret (Some hresp, err, req, Some shape)
            | None => mret (Some hresp, None, req, None)
            end
      end
  end.

Definition shouldRetry (err : option error) : bool :=
  match err with
  | None => false
  | Some ErrUnexpectedEOF | Some ErrEOF => true
  | Some (DNSError _) => true
  | Some (OpError Op _) =>
      if String.eqb Op "read" || String.eqb Op "write" then true else false
  | Some (S3Error e) =>
      if String.eqb (Code e) "InternalError"
         || String.eqb (Code e) "NoSuchUpload"
         || String.eqb (Code e) "NoSuchBucket"
      then true else false
  | Some _ => false
  end.

Definition hasCode (err : option error) (code : string) : bool :=
  match err with
  | Some (S3Error s3err) => String.eqb (Code s3err) code
  | _ => false
  end.

(** *** bucket.go *)

Record Bucket := {
  Bucket_S3 : S3;
  Bucket_Name : string
}.

(** The loop of [GetResponse],
    [for attempt := attempts.Start(); attempt.Next(); { ... }], then
    [panic("unreachable")].  [fuel] bounds the number of iterations. *)
Fixpoint GetResponse_loop (fuel : nat) (req : request) (attempt : Attempt)
  : M (option Response * option error) :=
  match fuel with
  | O => stuck
  | S fuel' =>
      '(more, attempt) ← Next attempt;
      if more : bool then
        '(resp, err, req, _) ← run req None;
        '(again, attempt) ←
          (if shouldRetry err then HasNext attempt
           else mret (false, attempt));
        if again : bool then GetResponse_loop fuel' req attempt
        else
          match err with
          | Some err => mret (None, Some err)
          | None => mret (resp, None)
          end
      else panic "unreachable"
  end.

Definition GetResponse (fuel : nat) (self : Bucket) (path : string)
  : M (option Response * option error) :=
  let req :=
    {| method := ""; bucket := Bucket_Name self; path := path;
       signpath := ""; params := ∅; headers := ∅; baseurl := "";
       payload := None; prepared := false |} in
  '(err, req) ← prepare (Bucket_S3 self) req;
  match err with
  | Some err => mret (None, Some err)
  | None =>
      attempt ← Start attempts;
      GetResponse_loop fuel req attempt
  end.

(** *** s3.go, continued *)

(** [query] prepares and runs the [req] request. *)
Definition query (self : S3) (req : request) (resp : option Shape)
  : M (option error * request * option Shape) :=
  '(err, req) ← prepare self req;
  match err with
  | Some _ => mret (err, req, resp)
  | None =>
      '(httpResponse, err, req, resp') ← run req resp;
      match resp, httpResponse with
      | None, Some _ => Body_Close
      | _, _ => mret tt
      end;;
      mret (err, req, resp')
  end.

(** *** bucket.go, continued *)

(** The loop of [DelBucket],
    [for attempt := attempts.Start(); attempt.Next(); { ... }], whose
    result is the named result [err]. *)
Fixpoint DelBucket_loop (fuel : nat) (self : S3) (req : request)
    (attempt : Attempt) (err : option error) : M (option error) :=
  match fuel with
  | O => stuck
  | S fuel' =>
      '(more, attempt) ← Next attempt;
      if more : bool then
        '(err, req, _) ← query self req None;
        if negb (shouldRetry err) then mret err
        else DelBucket_loop fuel' self req attempt err
      else mret err
  end.

Definition DelBucket (fuel : nat) (self : Bucket) : M (option error) :=
  let req :=
    {| method := "DELETE"; bucket := Bucket_Name self; path := "/";
       signpath := ""; params := ∅; headers := ∅; baseurl := "";
       payload := None; prepared := false |} in
  attempt ← Start attempts;
  DelBucket_loop fuel (Bucket_S3 self) req attempt None.

(** [PutReader] inserts an object into the S3 bucket by consuming data
    from [r]. *)
Definition PutReader (self : Bucket) (path : string) (r : string)
    (length : Z) (contType perm : string) : M (option error) :=
  let headers : Header :=
    <["x-amz-acl" := [perm]]>
      (<["Content-Type" := [contType]]>
         (<["Content-Length" := [FormatInt length]]> ∅)) in
  let req :=
    {| method := "PUT"; bucket := Bucket_Name self; path := path;
       signpath := ""; params := ∅; headers := headers; baseurl := "";
       payload := Some r; prepared := false |} in
  '(err, _, _) ← query (Bucket_S3 self) req None;
  mret err.

(** [Put] inserts an object into the S3 bucket. *)
Definition Put (self : Bucket) (path : string) (data : string)
    (contType perm : string) : M (option error) :=
  PutReader self path data (Z.of_nat (String.length data)) contType perm.

(** The loop [for key, value := range customHeaders
    { headers[key] = value }]. *)
Definition override (customHeaders headers : Header) : Header :=
  map_fold (fun key value headers => <[key := value]> headers)
    headers customHeaders.

(** [PutReaderHeader]: like [PutReader], with custom headers that override
    the defaults. *)
Definition PutReaderHeader (self : Bucket) (path : string) (r : string)
    (length : Z) (customHeaders : Header) (perm : string)
  : M (option error) :=
  let headers : Header :=
    <["x-amz-acl" := [perm]]>
      (<["Content-Type" := ["application/text"]]>
         (<["Content-Length" := [FormatInt length]]> ∅)) in
  let headers := override customHeaders headers in
  let req :=
    {| method := "PUT"; bucket := Bucket_Name self; path := path;
       signpath := ""; params := ∅; headers := headers; baseurl := "";
       payload := Some r; prepared := false |} in
  '(err, _, _) ← query (Bucket_S3 self) req None;
  mret err.

Definition PutHeader (self : Bucket) (path : string) (data : string)
    (customHeaders : Header) (perm : string) : M (option error) :=
  PutReaderHeader self path data (Z.of_nat (String.length data))
    customHeaders perm.

(** [Del] removes an object from the S3 bucket. *)
Definition Del (self : Bucket) (path : string) : M (option error) :=
  let req :=
    {| method := "DELETE"; bucket := Bucket_Name self; path := path;
       signpath := ""; params := ∅; headers := ∅; baseurl := "";
       payload := None; prepared := false |} in
  '(err, _, _) ← query (Bucket_S3 self) req None;
  mret err.

End WithPlatform.

End s3.

(** ** Vocabulary of the statements *)

(** The path with the slash that [prepare] puts in front when missing. *)
Definition slashed (p : string) : string :=
  if HasPrefix p "/" then p else "/" +:+ p.

(** A wait function that returns and leaves the network alone, as the
    backoffs of [client.go] do. *)
Definition quiet_wait (wait : option (Z -> M unit)) : Prop :=
  forall f, wait = Some f ->
    forall (try : Z) (w : World),
      exists w', f try w = (Done tt, w')
                 /\ sent w' = sent w /\ wire w' = wire w.

(** The world after one more execution of the transport, and after [n]
    more closed bodies. *)
Definition with_sent (q : Request) (w : World) : World :=
  {| clock := clock w; ticks := ticks w; slept := slept w;
     wire := wire w; sent := q :: sent w; closed := closed w |}.

Definition with_closed (n : nat) (w : World) : World :=
  {| clock := clock w; ticks := ticks w; slept := slept w;
     wire := wire w; sent := sent w; closed := n + closed w |}.

(** The HTTP request [run] builds for a request whose base URL parses to
    [u]. *)
Definition http_request `{Platform} (u : URL) (req : s3.request) : Request :=
  {| ReqURL := {| Scheme := Scheme u; Host := Host u; Path := s3.path req;
                  RawQuery := Values_Encode (s3.params req) |};
     Method := s3.method req; ProtoMajor := 1; ProtoMinor := 1;
     Close := true;
     ReqHeader := delete "Content-Length" (s3.headers req);
     ContentLength :=
       match s3.headers req !! "Content-Length" with
       | Some (v0 :: _) => ParseInt v0
       | _ => 0
       end;
     ReqBody := s3.payload req |}.

(** The error [buildError] makes of a response. *)
Definition built_Error `{Platform} (r : Response) : Error :=
  let decoded := xml_Decode_Error r Error_zero in
  {| ErrStatusCode := StatusCode r; Code := Code decoded;
     Message := if String.eqb (Message decoded) "" then Status r
                else Message decoded;
     RequestId := RequestId decoded |}.

(** The world after one more reading of the clock. *)
Definition with_tick (w : World) : World :=
  {| clock := clock w; ticks := S (ticks w); slept := slept w;
     wire := wire w; sent := sent w; closed := closed w |}.

(** A request that [query] can send in a region addressed by path: it has
    no Content-Length header, and it either has been prepared for the
    service endpoint or is fresh and names a bucket. *)
Definition ready (self : s3.S3) (req : s3.request) : Prop :=
  s3.headers req !! "Content-Length" = None
  /\ ((s3.prepared req = true
       /\ s3.baseurl req = s3.S3Endpoint (s3.S3_Region self))
      \/ (s3.prepared req = false /\ s3.bucket req <> "")).

(** How many attempts the minimum of five still owes after [n]. *)
Definition owed (n : Z) : Z :=
  if (0 <=? n) && (n <? 5) then 5 - n else 0.

(** A clock that moves on between any two readings. *)
Definition advancing (w : World) : Prop :=
  forall i : nat, clock w i < clock w (S i).

Ltac unfold_M :=
  unfold mbind, M_bind, mret, M_ret, time_Now, time_Sleep, panic, stuck in *;
  simpl in *.

(** ** Sample values

    A stand-in for the platform and a few concrete worlds and requests, on
    which the statements below are evaluated. *)

Module sample.

Import aws s3.

Definition parse (s : string) : URL + string :=
  if HasPrefix s "https://"
  then inl {| Scheme := "https";
              Host := String.substring 8 (String.length s - 8) s;
              Path := ""; RawQuery := "" |}
  else inr "unsupported protocol scheme".

Definition stamp (t : Time) : string :=
  if t <? 1000 then "Thu, 01 Jan 1970 00:00:00 UTC"
  else "Thu, 01 Jan 1970 00:00:01 UTC".

Definition sign_header (a : Auth) (method path : string) (ps : Values)
    (hs : Header) : Values * Header :=
  (ps,
   <["Authorization" :=
       ["AWS " +:+ AccessKey a +:+ ":" +:+ method +:+ path
        +:+ default "" (hs !! "Date" ≫= head)]]> hs).

#[local] Instance platform : Platform :=
  {| url_Parse := parse;
     Values_Encode := fun _ => "";
     Format_RFC1123 := stamp;
     sign := sign_header;
     xml_Decode_Error := fun _ e => e;
     Shape := unit;
     xml_Decode := fun _ s => (s, None) |}.

Definition auth : Auth :=
  {| AccessKey := "AKIDEXAMPLE"; SecretKey := "secret"; Token := "" |}.

(** A region addressed by host name. *)
Definition hosted : Region :=
  {| Name := "example-1";
     EC2Endpoint := "";
     S3Endpoint := "https://s3.example.com";
     S3BucketEndpoint := "https://${bucket}.s3.example.com";
     S3LocationConstraint := true;
     S3LowercaseBucket := true;
     SDBEndpoint := ""; SNSEndpoint := ""; SQSEndpoint := "";
     IAMEndpoint := "" |}.

Definition s3_hosted : S3 :=
  {| S3_Auth := auth; S3_Region := hosted; private := 0 |}.
Definition s3_useast : S3 :=
  {| S3_Auth := auth; S3_Region := USEast; private := 0 |}.

Definition fresh (bucket path : string) : request :=
  {| method := ""; bucket := bucket; path := path; signpath := "";
     params := ∅; headers := ∅; baseurl := ""; payload := None;
     prepared := false |}.

(** The headers of a signed request, and the requests that resolving
    [fresh "example" "key"] at time 0 gives in the two regions. *)
Definition signed_headers (host date authorization : string) : Header :=
  <["Authorization" := [authorization]]>
    (<["Date" := [date]]> (<["Host" := [host]]> ∅)).

Definition by_path_request : request :=
  {| method := "GET"; bucket := "example"; path := "/example/key";
     signpath := "/example/key"; params := ∅;
     headers :=
       signed_headers "s3.amazonaws.com" "Thu, 01 Jan 1970 00:00:00 UTC"
         "AWS AKIDEXAMPLE:GET/example/keyThu, 01 Jan 1970 00:00:00 UTC";
     baseurl := "https://s3.amazonaws.com"; payload := None;
     prepared := true |}.

Definition by_host_request : request :=
  {| method := "GET"; bucket := "example"; path := "/key";
     signpath := "/example/key"; params := ∅;
     headers :=
       signed_headers "example.s3.example.com"
         "Thu, 01 Jan 1970 00:00:00 UTC"
         "AWS AKIDEXAMPLE:GET/example/keyThu, 01 Jan 1970 00:00:00 UTC";
     baseurl := "https://example.s3.example.com"; payload := None;
     prepared := true |}.

(** [w] after [n] more readings of the clock. *)
Definition read_clock (n : nat) (w : World) : World :=
  {| clock := clock w; ticks := n + ticks w; slept := slept w;
     wire := wire w; sent := sent w; closed := closed w |}.

Definition ok_response : Response :=
  {| Status := "200 OK"; StatusCode := 200; RespHeader := ∅; Body := "" |}.
Definition denied_response : Response :=
  {| Status := "403 Forbidden"; StatusCode := 403; RespHeader := ∅;
     Body := "" |}.
Definition busy_response : Response :=
  {| Status := "503 Service Unavailable"; StatusCode := 503;
     RespHeader := ∅; Body := "" |}.

(** A world whose clock advances by [step] nanoseconds at every reading and
    whose network answers every request with [answer]. *)
Definition world (step : Z) (answer : option Response * option error)
  : World :=
  {| clock := fun i => step * Z.of_nat i; ticks := 0; slept := [];
     wire := fun _ _ => answer; sent := []; closed := 0 |}.

Definition some_request : Request :=
  {| ReqURL := {| Scheme := "https"; Host := "s3.example.com";
                  Path := "/"; RawQuery := "" |};
     Method := "GET"; ProtoMajor := 1; ProtoMinor := 1; Close := true;
     ReqHeader := ∅; ContentLength := 0; ReqBody := None |}.

Definition always_retry : ResilientTransport :=
  {| DialTimeout := 10 * Second; MaxTries := 3;
     Deadline := (now ← time_Now; mret (Time_Add now (5 * Second)));
     ShouldRetry := fun _ _ _ => true;
     Wait := Some LinearBackoff |}.

Definition deleted_response : Response :=
  {| Status := "204 No Content"; StatusCode := 204; RespHeader := ∅;
     Body := "" |}.
Definition not_found_response : Response :=
  {| Status := "404 Not Found"; StatusCode := 404; RespHeader := ∅;
     Body := "" |}.

(** A transport with the default predicate, and a network whose first
    answer is a 503 and whose later answers are 200. *)
Definition retrying : ResilientTransport :=
  {| DialTimeout := 10 * Second; MaxTries := 3;
     Deadline := (now ← time_Now; mret (Time_Add now (5 * Second)));
     ShouldRetry := awsRetry;
     Wait := Some LinearBackoff |}.

Definition flaky_world : World :=
  {| clock := fun i => Z.of_nat i; ticks := 0; slept := [];
     wire := fun i _ => match i with
                        | O => (Some busy_response, None)
                        | S _ => (Some ok_response, None)
                        end;
     sent := []; closed := 0 |}.

(** An environment with the short name of the access key and the long name
    of the secret key, and a metadata service that knows no role. *)
Definition environment : gmap string string :=
  <["AWS_ACCESS_KEY" := "AKIDEXAMPLE"]>
    (<["AWS_SECRET_ACCESS_KEY" := "secret"]> ∅).

Definition no_role (url : string) : M (option Response * option error) :=
  mret (Some not_found_response, None).

Definition unmarshal (json : string) (cred : auth.credentials)
  : auth.credentials * option error :=
  (cred, Some (OtherError "unexpected end of JSON input")).

Definition read_all (r : Response) : string * option error := (Body r, None).

(** A request as [prepare] leaves it, with a Content-Length header. *)
Definition upload_request : request :=
  {| method := "PUT"; bucket := "example"; path := "/example/key";
     signpath := "/example/key"; params := ∅;
     headers := <["Content-Length" := ["11"]]>
                  (signed_headers "s3.amazonaws.com"
                     "Thu, 01 Jan 1970 00:00:00 UTC" "AWS AKIDEXAMPLE:sig");
     baseurl := "https://s3.amazonaws.com"; payload := Some "hello world";
     prepared := true |}.

End sample.

(** * Properties *)

Import aws.

(** ** Arithmetic of the machine integers *)

Lemma wrap64_range z : - 2 ^ 63 <= wrap64 z < 2 ^ 63.
Proof.
  unfold wrap64.
  pose proof (Z.mod_pos_bound (z + 2 ^ 63) (2 ^ 64) ltac:(lia)). lia.
Qed.

Lemma wrap64_small z : - 2 ^ 63 <= z < 2 ^ 63 -> wrap64 z = z.
Proof.
  intros Hz. unfold wrap64. rewrite Z.mod_small; lia.
Qed.

Lemma wrap64_le z : - 2 ^ 63 <= z -> wrap64 z <= z.
Proof.
  intros Hz. unfold wrap64.
  pose proof (Z.mod_le (z + 2 ^ 63) (2 ^ 64) ltac:(lia) ltac:(lia)). lia.
Qed.

Lemma wrap64_succ z : wrap64 (wrap64 z + 1) = wrap64 (z + 1).
Proof.
  unfold wrap64.
  replace (z + 1 + 2 ^ 63) with ((z + 2 ^ 63) + 1) by lia.
  replace ((z + 2 ^ 63) mod 2 ^ 64 - 2 ^ 63 + 1 + 2 ^ 63)
    with ((z + 2 ^ 63) mod 2 ^ 64 + 1) by lia.
  now rewrite Zplus_mod_idemp_l.
Qed.

Lemma nextSleep_nonneg a now : 0 <= nextSleep a now.
Proof.
  unfold nextSleep. destruct (Z.ltb_spec0 (wrap64 (Delay (strategy a) -
    Time_Sub now (last a))) 0); lia.
Qed.

(** ** The attempt sequence *)

(** [Next] lets the attempt proceed whenever the force flag is set or the
    minimum is not reached, whatever the clock reads. *)
Lemma Next_proceeds (a : Attempt) (w : World) :
  force a = true \/ count a < Min (strategy a) ->
  exists now' w',
    Next a w =
      (Done (true, {| strategy := strategy a; last := now'; end_ := end_ a;
                      force := false; count := wrap64 (count a + 1) |}), w')
    /\ clock w' = clock w /\ (ticks w < ticks w')%nat.
Proof.
  intros Hgo. unfold Next. unfold_M.
  assert (Hcond : negb (force a)
     && negb (Time_Before (Time_Add (clock w (ticks w))
                (nextSleep a (clock w (ticks w)))) (end_ a))
     && (Min (strategy a) <=? count a) = false).
  { destruct Hgo as [-> | Hlt]; [reflexivity |].
    apply andb_false_iff. right. apply Z.leb_gt. exact Hlt. }
  rewrite Hcond.
  destruct ((0 <? nextSleep a (clock w (ticks w))) && (0 <? count a));
    simpl; eexists; eexists; (split; [reflexivity |]); simpl; split; auto; lia.
Qed.

(** [Next] refuses once the flag is clear, the minimum is reached and the
    clock has passed the end of the budget; it then changes nothing. *)
Lemma Next_stops (a : Attempt) (w : World) :
  force a = false ->
  Min (strategy a) <= count a ->
  end_ a <= clock w (ticks w) ->
  exists w', Next a w = (Done (false, a), w').
Proof.
  intros Hf Hmin Hend. unfold Next. unfold_M.
  rewrite Hf. simpl.
  pose proof (nextSleep_nonneg a (clock w (ticks w))) as Hs.
  assert (Hb : Time_Before (Time_Add (clock w (ticks w))
                 (nextSleep a (clock w (ticks w)))) (end_ a) = false).
  { unfold Time_Before, Time_Add. apply Z.ltb_ge. lia. }
  rewrite Hb. simpl.
  assert (Hm : (Min (strategy a) <=? count a) = true) by (apply Z.leb_le; lia).
  rewrite Hm. eexists. reflexivity.
Qed.

(** A refusal of [Next] leaves the attempt as it was; an acceptance clears
    the flag.  In both cases the strategy and the end stay. *)
Lemma Next_frame (a a' : Attempt) (b : bool) (w w' : World) :
  Next a w = (Done (b, a'), w') ->
  strategy a' = strategy a /\ end_ a' = end_ a /\ clock w' = clock w
  /\ (b = false -> a' = a)
  /\ (b = true -> force a' = false /\ count a' = wrap64 (count a + 1)).
Proof.
  unfold Next. unfold_M.
  destruct (negb (force a) && _ && _).
  - intros [= <- <- <-]. repeat split; auto; discriminate.
  - destruct ((0 <? nextSleep a (clock w (ticks w))) && (0 <? count a));
      simpl; intros [= <- <- <-]; simpl; repeat split; auto; discriminate.
Qed.

Lemma Next_returns (a : Attempt) (w : World) :
  exists b a' w', Next a w = (Done (b, a'), w').
Proof.
  unfold Next. unfold_M.
  destruct (negb (force a) && _ && _); [eauto |].
  destruct ((0 <? nextSleep a (clock w (ticks w))) && (0 <? count a));
    simpl; eauto.
Qed.

Arguments Next : simpl never.
Arguments HasNext : simpl never.

Lemma Next_times_S (n : nat) (a : Attempt) (w : World) :
  Next_times (S n) a w =
    match Next a w with
    | (Done (b, a1), w1) =>
        match Next_times n a1 w1 with
        | (Done (bs, a2), w2) => (Done (b :: bs, a2), w2)
        | (Panic msg, w2) => (Panic msg, w2)
        | (Stuck, w2) => (Stuck, w2)
        end
    | (Panic msg, w1) => (Panic msg, w1)
    | (Stuck, w1) => (Stuck, w1)
    end.
Proof.
  simpl. unfold mbind, M_bind, mret, M_ret.
  destruct (Next a w) as [[[b a1] | msg |] w1]; try reflexivity.
  destruct (Next_times n a1 w1) as [[[bs a2] | msg |] w2]; reflexivity.
Qed.

(** While the minimum is not reached every poll is accepted: from a state
    that has counted [k], the next [n] polls all succeed as long as
    [k + n] stays within the minimum (or the flag forces a single one). *)
Lemma Next_times_accepts (n : nat) :
  forall (a : Attempt) (w : World) (k : Z),
    0 <= k -> count a = wrap64 k ->
    ((1 <= n)%nat -> force a = true \/ k < Min (strategy a)) ->
    k + Z.of_nat n <= Z.max (k + 1) (Min (strategy a)) ->
    exists a' w',
      Next_times n a w = (Done (replicate n true, a'), w')
      /\ count a' = wrap64 (k + Z.of_nat n)
      /\ strategy a' = strategy a /\ end_ a' = end_ a.
Proof.
  induction n as [| n IH]; intros a w k Hk Hc Hgo Hle.
  - exists a, w. simpl. unfold mret, M_ret.
    rewrite Z.add_0_r. auto.
  - assert (Hgo' : force a = true \/ count a < Min (strategy a)).
    { destruct (Hgo ltac:(lia)) as [Hf | Hlt]; [now left | right].
      rewrite Hc. pose proof (wrap64_le k ltac:(lia)). lia. }
    destruct (Next_proceeds a w Hgo') as (now' & w1 & E & _ & _).
    set (a1 := {| strategy := strategy a; last := now'; end_ := end_ a;
                  force := false; count := wrap64 (count a + 1) |}) in E.
    destruct (IH a1 w1 (k + 1)) as (a' & w' & E' & Hc' & Hs' & He').
    + lia.
    + subst a1. simpl. rewrite Hc. apply wrap64_succ.
    + intros Hn. right. subst a1. simpl. lia.
    + subst a1. simpl. lia.
    + exists a', w'. rewrite Next_times_S, E, E'.
      split; [reflexivity |]. split; [| now split].
      rewrite Hc'. f_equal. lia.
Qed.

(** Polling never changes the strategy or the end of the budget, and after
    at least one poll the force flag that [Start] set is clear. *)
Lemma Next_times_frame (n : nat) :
  forall (a a' : Attempt) (bs : list bool) (w w' : World),
    Next_times n a w = (Done (bs, a'), w') ->
    strategy a' = strategy a /\ end_ a' = end_ a /\ clock w' = clock w
    /\ (force a = false \/ (1 <= n)%nat -> force a' = false).
Proof.
  induction n as [| n IH]; intros a a' bs w w' E.
  - simpl in E. unfold mret, M_ret in E. injection E as <- <- <-.
    repeat split; auto. intros [Hf | Hn]; [exact Hf | lia].
  - rewrite Next_times_S in E.
    destruct (Next_returns a w) as (b & a1 & w1 & E1). rewrite E1 in E.
    destruct (Next_times n a1 w1) as [[[bs2 a2] | msg |] w2] eqn:E2;
      try discriminate.
    injection E as <- <- <-.
    destruct (Next_frame _ _ _ _ _ E1) as (Hs & He & Hc & Hno & Hyes).
    destruct (IH _ _ _ _ _ E2) as (Hs2 & He2 & Hc2 & Hf2).
    repeat split; try congruence.
    intros _. apply Hf2. left.
    destruct b.
    + now destruct (Hyes eq_refl).
    + rewrite (Hno eq_refl) in *.
      destruct (force a) eqn:Hfa; [| reflexivity].
      destruct (Next_proceeds a w (or_introl Hfa)) as (? & ? & E' & _).
      rewrite E' in E1. discriminate.
Qed.

Lemma Start_returns (s : AttemptStrategy) (w : World) :
  exists w',
    Start s w =
      (Done {| strategy := s; last := clock w (ticks w);
               end_ := clock w (ticks w) + Total s;
               force := true; count := 0 |}, w')
    /\ clock w' = clock w.
Proof.
  unfold Start. unfold_M. eexists. split; reflexivity.
Qed.

(** C3.  Whatever the strategy and whatever the clock reads: the first
    [Next] after [Start] answers true; the polls keep answering true until
    the minimum [Min] has been counted, however much time has passed; and
    after at least one poll, once the count has reached [Min] and the clock
    has passed the start by [Total], [Next] answers false and leaves the
    attempt as it is. *)
Theorem Next_minimum_overrides_budget (s : AttemptStrategy) (w : World) :
  (exists a w1 a' w2,
      Start s w = (Done a, w1) /\ Next a w1 = (Done (true, a'), w2))
  /\ (forall n : nat,
        Z.of_nat n <= Z.max 1 (Min s) ->
        exists a w',
          (Start s ≫= Next_times n) w = (Done (replicate n true, a), w')
          /\ count a = wrap64 (Z.of_nat n))
  /\ (forall (n : nat) (bs : list bool) (a : Attempt) (w' : World),
        (1 <= n)%nat ->
        (Start s ≫= Next_times n) w = (Done (bs, a), w') ->
        Min s <= count a ->
        clock w (ticks w) + Total s <= clock w' (ticks w') ->
        exists w'', Next a w' = (Done (false, a), w'')).
Proof.
  destruct (Start_returns s w) as (w1 & ES & Hclock).
  set (a0 := {| strategy := s; last := clock w (ticks w);
                end_ := clock w (ticks w) + Total s;
                force := true; count := 0 |}) in ES.
  split; [| split].
  - destruct (Next_proceeds a0 w1 (or_introl eq_refl)) as (now' & w2 & E & _).
    eauto 6.
  - intros n Hn.
    destruct (Next_times_accepts n a0 w1 0) as (a & w' & E & Hc & _);
      try (simpl; auto; lia).
    exists a, w'. unfold mbind, M_bind at 1. rewrite ES. auto.
  - intros n bs a w' Hn E Hmin Hlate.
    unfold mbind, M_bind at 1 in E. rewrite ES in E.
    destruct (Next_times_frame _ _ _ _ _ _ E) as (Hs & He & Hc & Hf).
    apply Next_stops.
    + apply Hf. now right.
    + rewrite Hs. exact Hmin.
    + rewrite He. simpl. unfold Time in *. lia.
Qed.

(** C4.  If [HasNext] answers true, the call of [Next] that follows answers
    true as well, in whatever world it runs: whatever the clock reads by
    then. *)
Theorem HasNext_true_binds_Next (a a1 : Attempt) (w w1 : World) :
  HasNext a w = (Done (true, a1), w1) ->
  forall w2 : World,
    exists a2 w3, Next a1 w2 = (Done (true, a2), w3).
Proof.
  intros E w2.
  assert (Hgo : force a1 = true \/ count a1 < Min (strategy a1)).
  { unfold HasNext in E. unfold_M.
    destruct (force a) eqn:Hf; simpl in E.
    - injection E as <- <-. now left.
    - destruct (Z.ltb_spec0 (count a) (Min (strategy a))).
      + injection E as <- <-. now right.
      + destruct (Time_Before _ _); [| discriminate].
        injection E as <- <-. now left. }
  destruct (Next_proceeds a1 w2 Hgo) as (now' & w3 & E' & _).
  eauto.
Qed.

(** ** The retry predicates *)

(** C9.  [awsRetry] answers true exactly when the error is a temporary
    network error or there is a response whose status is in [500, 600).
    So it answers false for a 2xx response without error, and for an error
    that is not a temporary network error unless a 5xx response comes
    with it. *)
Theorem awsRetry_policy (req : Request) (res : option Response)
    (err : option error) :
  (awsRetry req res err = true <->
     as_net_Error err = Some true
     \/ exists r, res = Some r /\ 500 <= StatusCode r < 600)
  /\ (forall r, res = Some r -> err = None -> 200 <= StatusCode r < 300 ->
        awsRetry req res err = false)
  /\ (as_net_Error err <> Some true ->
      (forall r, res = Some r -> ~ 500 <= StatusCode r < 600) ->
        awsRetry req res err = false).
Proof.
  assert (Hiff : awsRetry req res err = true <->
     as_net_Error err = Some true
     \/ exists r, res = Some r /\ 500 <= StatusCode r < 600).
  { unfold awsRetry, as_net_Error.
    destruct res as [r |];
      [destruct (Z.leb_spec0 500 (StatusCode r)),
         (Z.ltb_spec0 (StatusCode r) 600) |];
      destruct err as [[| | [|] | ? [|] | [|] | ? | ? | ? ? | ?] |]; simpl;
      (split; intros Ht;
       [ try discriminate; try (left; reflexivity);
         try (right; exists r; split; [reflexivity | lia])
       | try reflexivity;
         destruct Ht as [Ht | (r' & Hr & Ht)]; try discriminate;
         injection Hr as <-; lia ]). }
  split; [exact Hiff |]. split.
  - intros r -> -> Hok. apply not_true_is_false. rewrite Hiff.
    intros [Ht | (r' & [= <-] & Ht)]; [discriminate | lia].
  - intros Hnet Hres. apply not_true_is_false. rewrite Hiff.
    intros [Ht | (r' & Hr & Ht)]; [contradiction | exact (Hres r' Hr Ht)].
Qed.

(** C7.  [shouldRetry] answers true for a decoded [*Error] exactly when
    its code is InternalError, NoSuchUpload or NoSuchBucket; it does for
    NoSuchBucket, does not for AccessDenied, and never for nil. *)
Theorem shouldRetry_codes :
  (forall e : Error,
      s3.shouldRetry (Some (S3Error e)) = true <->
      Code e = "InternalError" \/ Code e = "NoSuchUpload"
      \/ Code e = "NoSuchBucket")
  /\ (forall e, Code e = "NoSuchBucket" ->
        s3.shouldRetry (Some (S3Error e)) = true)
  /\ (forall e, Code e = "AccessDenied" ->
        s3.shouldRetry (Some (S3Error e)) = false)
  /\ s3.shouldRetry None = false.
Proof.
  assert (Hiff : forall e : Error,
      s3.shouldRetry (Some (S3Error e)) = true <->
      Code e = "InternalError" \/ Code e = "NoSuchUpload"
      \/ Code e = "NoSuchBucket").
  { intros e. unfold s3.shouldRetry.
    destruct (String.eqb_spec (Code e) "InternalError") as [-> | H1];
      [simpl; tauto |].
    destruct (String.eqb_spec (Code e) "NoSuchUpload") as [-> | H2];
      [simpl; tauto |].
    destruct (String.eqb_spec (Code e) "NoSuchBucket") as [-> | H3];
      [simpl; tauto |].
    simpl. split; [discriminate | tauto]. }
  split; [exact Hiff |]. split; [| split].
  - intros e He. apply Hiff. auto.
  - intros e He. apply not_true_is_false. rewrite Hiff, He.
    intros [Hc | [Hc | Hc]]; discriminate.
  - reflexivity.
Qed.

(** ** The resilient transport *)

Lemma LinearBackoff_quiet : quiet_wait (Some LinearBackoff).
Proof.
  intros f [= <-] try w. unfold LinearBackoff, time_Sleep.
  eexists. split; [reflexivity |]. split; reflexivity.
Qed.

Lemma close_and_wait_quiet (self : ResilientTransport) (try : Z)
    (response : option Response) (w : World) :
  quiet_wait (Wait self) ->
  exists w', close_and_wait self try response w = (Done tt, w')
             /\ sent w' = sent w /\ wire w' = wire w.
Proof.
  intros Hq. unfold close_and_wait, Body_Close. unfold_M.
  destruct response as [r |]; destruct (Wait self) as [f |] eqn:Hw;
    try (eexists; split; [reflexivity |]; split; reflexivity).
  - destruct (Hq f eq_refl try
      {| clock := clock w; ticks := ticks w; slept := slept w;
         wire := wire w; sent := sent w; closed := S (closed w) |})
      as (w' & -> & Hs & Hwire).
    exists w'. auto.
  - destruct (Hq f eq_refl try w) as (w' & -> & Hs & Hwire).
    exists w'. auto.
Qed.

Lemma fixed_tries_from_all (self : ResilientTransport) (request : Request) :
  (forall q r e, ShouldRetry self q r e = true) ->
  quiet_wait (Wait self) ->
  forall (left : nat) (try : Z) (result : option Response * option error)
         (w : World),
    exists w',
      fixed.tries_from self request left try result w =
        (Done (match left with
               | O => result
               | S k => wire w (length (sent w) + k)%nat request
               end), w')
      /\ sent w' = (replicate left request ++ sent w)%list
      /\ wire w' = wire w.
Proof.
  intros Hretry Hq. induction left as [| k IH]; intros try result w.
  - exists w. simpl. auto.
  - simpl. unfold mbind, M_bind, transport_RoundTrip at 1.
    rewrite Hretry. simpl.
    set (w1 := {| clock := clock w; ticks := ticks w; slept := slept w;
                  wire := wire w; sent := request :: sent w;
                  closed := closed w |}).
    set (r1 := wire w (length (sent w)) request).
    destruct (close_and_wait_quiet self try r1.1 w1 Hq)
      as (w2 & -> & Hs2 & Hw2).
    destruct (IH (try + 1) r1 w2) as (w3 & -> & Hs3 & Hw3).
    exists w3. rewrite Hs3, Hw3, Hs2, Hw2. subst w1. simpl.
    split; [| split; [| reflexivity]].
    + destruct k as [| k']; [subst r1; now rewrite Nat.add_0_r |].
      simpl. now rewrite Nat.add_succ_r.
    + clear. induction k as [| k IHk]; simpl; [reflexivity |].
      now rewrite IHk.
Qed.

(** In the copy that executes the underlying transport, [MaxTries = n >= 1]
    and a predicate that always asks for a retry give exactly [n]
    executions, and the answer of the last one is returned. *)
Lemma fixed_tries_exactly_MaxTries (self : ResilientTransport)
    (request : Request) (n : nat) (w : World) :
  MaxTries self = Z.of_nat (S n) ->
  (forall q r e, ShouldRetry self q r e = true) ->
  quiet_wait (Wait self) ->
  exists w',
    fixed.tries self request w =
      (Done (wire w (length (sent w) + n)%nat request), w')
    /\ sent w' = (replicate (S n) request ++ sent w)%list.
Proof.
  intros Hmax Hretry Hq. unfold fixed.tries. rewrite Hmax, Nat2Z.id.
  destruct (fixed_tries_from_all self request Hretry Hq (S n) 0
              (None, None) w) as (w' & E & Hs & _).
  exists w'. auto.
Qed.

Lemma recursive_RoundTrip_stuck (self : ResilientTransport) (req : Request) :
  1 <= MaxTries self ->
  forall (depth : nat) (w : World),
    recursive.RoundTrip depth self req w = (Stuck, w).
Proof.
  intros Hmax. induction depth as [| d IH]; intros w; [reflexivity |].
  simpl. destruct (Z.to_nat (MaxTries self)) as [| m] eqn:Hm; [lia |].
  unfold mbind, M_bind. now rewrite IH.
Qed.

(** C5.  In [aws/resilient_transport.go] the loop of [tries] calls
    [self.RoundTrip], which calls [tries]: with [MaxTries >= 1] the call
    returns at no depth of nesting, and the underlying transport is never
    executed. *)
Theorem recursive_tries_never_returns (self : ResilientTransport)
    (req : Request) (depth : nat) (w : World) :
  1 <= MaxTries self ->
  recursive.tries depth self req w = (Stuck, w)
  /\ sent (recursive.tries depth self req w).2 = sent w.
Proof.
  intros Hmax. unfold recursive.tries.
  rewrite (recursive_RoundTrip_stuck self req Hmax). auto.
Qed.

(** ** Resolution of a request *)

Import s3.

Lemma string_length_app (s t : string) :
  String.length (s +:+ t) = (String.length s + String.length t)%nat.
Proof.
  induction s as [| c s IH]; simpl; [reflexivity | now rewrite IH].
Qed.

Lemma IndexAny_from_found (chars s : string) :
  forall i : Z,
    0 <= i ->
    (exists c, In c (list_ascii_of_string s) /\ contains_byte chars c = true) ->
    0 <= IndexAny_from i s chars.
Proof.
  induction s as [| d s IH]; intros i Hi (c & Hin & Hc); simpl in *.
  - contradiction.
  - destruct (contains_byte chars d) eqn:Hd; [exact Hi |].
    apply IH; [lia |]. exists c. split; [| exact Hc].
    destruct Hin as [-> |]; [congruence | assumption].
Qed.

Lemma IndexAny_from_none (chars s : string) :
  forall i : Z,
    0 <= i -> 0 <= IndexAny_from i s chars ->
    exists c, In c (list_ascii_of_string s) /\ contains_byte chars c = true.
Proof.
  induction s as [| d s IH]; intros i Hi Hfound; simpl in *.
  - lia.
  - destruct (contains_byte chars d) eqn:Hd.
    + exists d. auto.
    + destruct (IH (i + 1) ltac:(lia) Hfound) as (c & Hin & Hc). eauto.
Qed.

Section Resolution.
Context `{Platform}.

(** The signing step alone: what [prepare] does after the guarded block. *)
Lemma prepare_prepared (self : S3) (req : request) (w : World) :
  prepared req = true ->
  prepare self req w =
    match url_Parse (baseurl req) with
    | inr msg => (Done (Some (BadEndpoint (baseurl req) msg), req), w)
    | inl u =>
        let signed :=
          sign (S3_Auth self) (method req) (signpath req) (params req)
            (<["Date" := [Format_RFC1123 (clock w (ticks w))]]>
               (<["Host" := [Host u]]> (headers req))) in
        (Done (None, set_signing signed.1 signed.2 req),
         {| clock := clock w; ticks := S (ticks w); slept := slept w;
            wire := wire w; sent := sent w; closed := closed w |})
    end.
Proof.
  intros Hp. unfold prepare. rewrite Hp. simpl.
  destruct (url_Parse (baseurl req)) as [u | msg]; [| reflexivity].
  unfold_M. destruct (sign _ _ _ _ _) as [ps hs]. reflexivity.
Qed.

Lemma prepare_fresh (self : S3) (req : request) (w : World) :
  prepared req = false ->
  prepare self req w =
    match prepare_resolve self req with
    | (Some err, req1) => (Done (Some err, req1), w)
    | (None, req1) => prepare self req1 w
    end
  /\ prepared (prepare_resolve self req).2 = true.
Proof.
  intros Hp. split.
  - unfold prepare at 1. rewrite Hp. simpl.
    destruct (prepare_resolve self req) as [[err |] req1] eqn:E;
      [reflexivity |].
    assert (Hp1 : prepared req1 = true).
    { revert E. unfold prepare_resolve.
      repeat match goal with
             | |- context [if ?b then _ else _] => destruct b
             end; intros [= <-]; reflexivity. }
    unfold prepare. rewrite Hp1. reflexivity.
  - unfold prepare_resolve.
    repeat match goal with
           | |- context [if ?b then _ else _] => destruct b
           end; reflexivity.
Qed.

(** [prepare] always returns, and marks the request as prepared. *)
Lemma prepare_returns (self : S3) (req : request) (w : World) :
  exists err req' w',
    prepare self req w = (Done (err, req'), w') /\ prepared req' = true.
Proof.
  assert (Hsigned : forall r, prepared r = true ->
    exists err req' w',
      prepare self r w = (Done (err, req'), w') /\ prepared req' = true).
  { intros r Hr. rewrite (prepare_prepared self r w Hr).
    destruct (url_Parse (baseurl r)); simpl; eauto 6. }
  destruct (prepared req) eqn:Hp; [now apply Hsigned |].
  destruct (prepare_fresh self req w Hp) as [-> Hp1].
  destruct (prepare_resolve self req) as [[err |] req1]; simpl in *;
    [eauto 6 | now apply Hsigned].
Qed.

End Resolution.

Section Addressing.
Context `{Platform}.

(** C1.  For a request with a bucket that has not been prepared yet,
    whenever [prepare] succeeds the signable path is
    "/" + bucket + the slash-prefixed original path; path-style resolution
    puts the bucket into the resource path and keeps the service endpoint,
    host-style resolution keeps the resource path and substitutes the
    bucket into the endpoint template.  So both styles sign the same path
    although they resolve to different resource paths. *)
Theorem signpath_same_in_both_styles (req : request) :
  prepared req = false ->
  bucket req <> "" ->
  (forall (self : S3) (w w' : World) (req' : request),
      prepare self req w = (Done (None, req'), w') ->
      signpath req' = "/" +:+ bucket req +:+ slashed (path req)
      /\ (S3BucketEndpoint (S3_Region self) = "" ->
          path req' = "/" +:+ bucket req +:+ slashed (path req)
          /\ baseurl req' = S3Endpoint (S3_Region self))
      /\ (S3BucketEndpoint (S3_Region self) <> "" ->
          path req' = slashed (path req)
          /\ baseurl req' =
               Replace (S3BucketEndpoint (S3_Region self)) "${bucket}"
                 (bucket req)))
  /\ (forall (by_path by_host : S3) (w1 w1' w2 w2' : World)
             (req1 req2 : request),
        S3BucketEndpoint (S3_Region by_path) = "" ->
        S3BucketEndpoint (S3_Region by_host) <> "" ->
        prepare by_path req w1 = (Done (None, req1), w1') ->
        prepare by_host req w2 = (Done (None, req2), w2') ->
        signpath req1 = signpath req2 /\ path req1 <> path req2).
Proof.
  intros Hp Hb.
  assert (Hone : forall (self : S3) (w w' : World) (req' : request),
      prepare self req w = (Done (None, req'), w') ->
      signpath req' = "/" +:+ bucket req +:+ slashed (path req)
      /\ (S3BucketEndpoint (S3_Region self) = "" ->
          path req' = "/" +:+ bucket req +:+ slashed (path req)
          /\ baseurl req' = S3Endpoint (S3_Region self))
      /\ (S3BucketEndpoint (S3_Region self) <> "" ->
          path req' = slashed (path req)
          /\ baseurl req' =
               Replace (S3BucketEndpoint (S3_Region self)) "${bucket}"
                 (bucket req))).
  { intros self w w' req' E.
    destruct (prepare_fresh self req w Hp) as [E1 Hp1]. rewrite E1 in E.
    assert (Hres : exists req1,
      prepare_resolve self req = (None, req1)
      /\ prepare self req1 w = (Done (None, req'), w')).
    { destruct (prepare_resolve self req) as [[err |] req1];
        [discriminate | eauto]. }
    destruct Hres as (req1 & Hres & E2). rewrite Hres in Hp1. simpl in Hp1.
    rewrite (prepare_prepared self req1 w Hp1) in E2.
    destruct (url_Parse (baseurl req1)) as [u | msg]; [| discriminate].
    simpl in E2. injection E2 as <- _. simpl.
    revert Hres. unfold prepare_resolve, slashed.
    destruct (String.eqb_spec (bucket req) "") as [| _]; [contradiction |].
    simpl.
    destruct (String.eqb_spec (S3BucketEndpoint (S3_Region self)) "")
      as [He | He].
    - intros [= <-]. simpl.
      destruct (HasPrefix (path req) "/"); simpl;
        (split; [reflexivity |]; split; [auto | contradiction]).
    - destruct (0 <=? IndexAny (bucket req) "/:@"); [discriminate |].
      intros [= <-]. simpl.
      destruct (HasPrefix (path req) "/"); simpl;
        (split; [reflexivity |]; split; [contradiction | auto]). }
  split; [exact Hone |].
  intros by_path by_host w1 w1' w2 w2' req1 req2 He1 He2 E1 E2.
  destruct (Hone _ _ _ _ E1) as (Hs1 & Hpath1 & _).
  destruct (Hone _ _ _ _ E2) as (Hs2 & _ & Hpath2).
  destruct (Hpath1 He1) as [Hp1 _]. destruct (Hpath2 He2) as [Hp2 _].
  split; [congruence |].
  rewrite Hp1, Hp2. intros Heq.
  apply (f_equal String.length) in Heq.
  rewrite !string_length_app in Heq. simpl in Heq. lia.
Qed.

(** C2, as the code has it.  A fresh request whose bucket contains '/',
    ':' or '@' is refused with the bad-bucket error in a region with a
    bucket endpoint template, before the clock is read or anything is
    signed.  The bucket, the parameters, the headers and the payload are
    as before; the request is left marked as prepared, with its method
    defaulted, its path slash-prefixed, its signable path set to that path
    and its base URL set to the template. *)
Theorem bad_bucket_refused (self : S3) (req : request) (w : World) :
  prepared req = false ->
  S3BucketEndpoint (S3_Region self) <> "" ->
  (exists c, In c (list_ascii_of_string (bucket req))
             /\ (c = "/" \/ c = ":" \/ c = "@")%char) ->
  prepare self req w =
    (Done (Some (BadBucket (bucket req)),
           {| method := if String.eqb (method req) "" then "GET"
                        else method req;
              bucket := bucket req;
              path := slashed (path req);
              signpath := slashed (path req);
              params := params req;
              headers := headers req;
              baseurl := S3BucketEndpoint (S3_Region self);
              payload := payload req;
              prepared := true |}), w).
Proof.
  intros Hp He (c & Hin & Hc).
  assert (Hidx : 0 <= IndexAny (bucket req) "/:@").
  { apply IndexAny_from_found; [lia |]. exists c. split; [exact Hin |].
    destruct Hc as [-> | [-> | ->]]; reflexivity. }
  assert (Hb : bucket req <> "").
  { intros Hb. rewrite Hb in Hin. contradiction. }
  destruct (prepare_fresh self req w Hp) as [-> _].
  unfold prepare_resolve, slashed.
  destruct (String.eqb_spec (bucket req) "") as [| _]; [contradiction |].
  destruct (String.eqb_spec (S3BucketEndpoint (S3_Region self)) "")
    as [| _]; [contradiction |].
  simpl. apply Z.leb_le in Hidx. rewrite Hidx.
  destruct (HasPrefix (path req) "/"); reflexivity.
Qed.

(** C6.  Whether [prepare] writes the Date header and signs depends on
    what the call returns.  A call that returns no error has parsed the
    base URL, read the clock once, handed [sign] the headers with Host and
    with Date set to that reading, and kept the maps [sign] gave back.  A
    call that returns an error, for the bucket name or for the base URL,
    has not read the clock and has left parameters and headers, Date
    included, as they were.  Any call after an earlier one returns and
    leaves method, bucket, path, signable path, base URL, payload and the
    prepared flag as they were: the guarded block is skipped.  It signs
    again, with Date at the current time, exactly when the base URL
    parses, as it does whenever the earlier call succeeded; otherwise it
    returns the error for the base URL and changes nothing.  With a
    [sign] that writes headers only the parameters are unchanged too. *)
Theorem prepare_again_only_signs (self : S3) (req req1 : request)
    (err1 : option error) (w1 w1' : World) :
  prepare self req w1 = (Done (err1, req1), w1') ->
  (err1 = None ->
   exists u,
     url_Parse (baseurl req1) = inl u
     /\ ticks w1' = S (ticks w1)
     /\ (params req1, headers req1) =
          sign (S3_Auth self) (method req1) (signpath req1) (params req)
            (<["Date" := [Format_RFC1123 (clock w1 (ticks w1))]]>
               (<["Host" := [Host u]]> (headers req)))
     /\ ((forall a m p ps hs, (sign a m p ps hs).2 !! "Date"
                              = hs !! "Date") ->
         headers req1 !! "Date"
         = Some [Format_RFC1123 (clock w1 (ticks w1))]))
  /\ (err1 <> None ->
      w1' = w1 /\ params req1 = params req /\ headers req1 = headers req)
  /\ forall w2 : World,
       exists err2 req2 w2',
         prepare self req1 w2 = (Done (err2, req2), w2')
         /\ (method req2 = method req1 /\ bucket req2 = bucket req1
             /\ path req2 = path req1 /\ signpath req2 = signpath req1
             /\ baseurl req2 = baseurl req1 /\ payload req2 = payload req1
             /\ prepared req2 = prepared req1)
         /\ (forall u, url_Parse (baseurl req1) = inl u ->
               err2 = None
               /\ ticks w2' = S (ticks w2)
               /\ (params req2, headers req2) =
                    sign (S3_Auth self) (method req1) (signpath req1)
                      (params req1)
                      (<["Date" := [Format_RFC1123 (clock w2 (ticks w2))]]>
                         (<["Host" := [Host u]]> (headers req1)))
               /\ ((forall a m p ps hs, (sign a m p ps hs).2 !! "Date"
                                        = hs !! "Date") ->
                   headers req2 !! "Date"
                   = Some [Format_RFC1123 (clock w2 (ticks w2))]))
         /\ (forall msg, url_Parse (baseurl req1) = inr msg ->
               err2 = Some (BadEndpoint (baseurl req1) msg)
               /\ req2 = req1 /\ w2' = w2)
         /\ ((forall a m p ps hs, (sign a m p ps hs).1 = ps) ->
             params req2 = params req1).
Proof.
  intros E1.
  (* what a call on a prepared request does *)
  assert (Hsigned : forall (r r' : request) (e : option error)
                           (w w' : World),
    prepared r = true ->
    prepare self r w = (Done (e, r'), w') ->
    (method r' = method r /\ bucket r' = bucket r /\ path r' = path r
     /\ signpath r' = signpath r /\ baseurl r' = baseurl r
     /\ payload r' = payload r /\ prepared r' = prepared r)
    /\ (forall u, url_Parse (baseurl r) = inl u ->
          e = None
          /\ ticks w' = S (ticks w)
          /\ (params r', headers r') =
               sign (S3_Auth self) (method r) (signpath r) (params r)
                 (<["Date" := [Format_RFC1123 (clock w (ticks w))]]>
                    (<["Host" := [Host u]]> (headers r)))
          /\ ((forall a m p ps hs, (sign a m p ps hs).2 !! "Date"
                                   = hs !! "Date") ->
              headers r' !! "Date"
              = Some [Format_RFC1123 (clock w (ticks w))]))
    /\ (forall msg, url_Parse (baseurl r) = inr msg ->
          e = Some (BadEndpoint (baseurl r) msg) /\ r' = r /\ w' = w)
    /\ ((forall a m p ps hs, (sign a m p ps hs).1 = ps) ->
        params r' = params r)).
  { intros r r' e w w' Hr E. rewrite (prepare_prepared self r w Hr) in E.
    destruct (url_Parse (baseurl r)) as [u | msg] eqn:Hu.
    - simpl in E. injection E as <- <- <-. simpl.
      split; [repeat split |]. split; [| split].
      + intros u' [= <-]. repeat split.
        * now destruct (sign _ _ _ _ _).
        * intros Hdate. rewrite Hdate. apply lookup_insert_eq.
      + discriminate.
      + intros Hparams. apply Hparams.
    - injection E as <- <- <-.
      split; [repeat split |]. split; [discriminate |].
      split; [| reflexivity].
      intros msg' [= <-]. repeat split. }
  (* the request that the guarded block leaves *)
  assert (Hblock : exists r : request,
    prepared r = true /\ params r = params req /\ headers r = headers req
    /\ (prepare self r w1 = (Done (err1, req1), w1')
        \/ (err1 <> None /\ req1 = r /\ w1' = w1))).
  { destruct (prepared req) eqn:Hp.
    - exists req. split; [exact Hp |]. do 2 (split; [reflexivity |]).
      now left.
    - destruct (prepare_fresh self req w1 Hp) as [E Hp'].
      rewrite E in E1.
      assert (Hps : params (prepare_resolve self req).2 = params req
                    /\ headers (prepare_resolve self req).2 = headers req).
      { unfold prepare_resolve.
        repeat match goal with
               | |- context [if ?b then _ else _] => destruct b
               end; split; reflexivity. }
      destruct (prepare_resolve self req) as [[e |] r]; simpl in *.
      + injection E1 as <- <- <-. exists r.
        destruct Hps as [Hps Hhs].
        do 3 (split; [assumption |]). right.
        split; [discriminate | split; reflexivity].
      + exists r. destruct Hps as [Hps Hhs].
        do 3 (split; [assumption |]). now left. }
  destruct Hblock as (r & Hr & Hps & Hhs & [E | (He & -> & ->)]).
  - destruct (Hsigned r req1 err1 w1 w1' Hr E)
      as ((Hm & _ & _ & Hsp & Hb & _ & Hp1) & Hok & Hbad & _).
    assert (Hp1' : prepared req1 = true) by congruence.
    split; [| split].
    + intros ->.
      destruct (url_Parse (baseurl r)) as [u | msg] eqn:Hu.
      * destruct (Hok u eq_refl) as (_ & Ht & Hs & Hd).
        exists u. rewrite Hb, Hm, Hsp, <- Hps, <- Hhs.
        repeat split; auto.
      * destruct (Hbad msg eq_refl) as (Habs & _). discriminate.
    + intros He.
      destruct (url_Parse (baseurl r)) as [u | msg] eqn:Hu.
      * destruct (Hok u eq_refl) as (Habs & _). contradiction.
      * destruct (Hbad msg eq_refl) as (_ & -> & ->). auto.
    + intros w2.
      destruct (prepare_returns self req1 w2) as (e2 & r2 & w2' & E2 & _).
      exists e2, r2, w2'. split; [exact E2 |].
      exact (Hsigned req1 r2 e2 w2 w2' Hp1' E2).
  - split; [| split].
    + intros Hn. contradiction.
    + intros _. auto.
    + intros w2.
      destruct (prepare_returns self r w2) as (e2 & r2 & w2' & E2 & _).
      exists e2, r2, w2'. split; [exact E2 |].
      exact (Hsigned r r2 e2 w2 w2' Hr E2).
Qed.

End Addressing.

(** ** Failure responses *)

Section Decoding.
Context `{Platform}.

Lemma buildError_returns (r : Response) (w : World) :
  exists e w',
    buildError r w = (Done (S3Error e), w')
    /\ ErrStatusCode e = StatusCode r
    /\ Code e = Code (xml_Decode_Error r Error_zero)
    /\ (Message (xml_Decode_Error r Error_zero) = "" ->
        Message e = Status r)
    /\ (Message (xml_Decode_Error r Error_zero) <> "" ->
        Message e = Message (xml_Decode_Error r Error_zero))
    /\ sent w' = sent w.
Proof.
  unfold buildError, Body_Close. unfold_M.
  destruct (String.eqb_spec (Message (xml_Decode_Error r Error_zero)) "")
    as [Hm | Hm]; do 2 eexists; (split; [reflexivity |]); simpl;
    repeat split; auto; contradiction.
Qed.

Lemma cons_neq_self {A} (x : A) (l : list A) : x :: l <> l.
Proof.
  intros E. apply (f_equal (@List.length A)) in E. simpl in E. lia.
Qed.

(** C8.  Whenever [run] has executed the request and the server answered
    with a response whose status is neither 200 nor 204, [run] returns no
    response and a structured error; that error carries the status code of
    the response, and its message is the status line when the decoded
    document has an empty message (the decoded message otherwise). *)
Theorem run_failure_is_structured (req : request) (resp : option Shape)
    (w w' : World) (hreq : Request) (hresp : Response)
    (out : outcome (option Response * option error * request
                    * option Shape)) :
  run req resp w = (out, w') ->
  sent w' = hreq :: sent w ->
  wire w (length (sent w)) hreq = (Some hresp, None) ->
  StatusCode hresp <> 200 ->
  StatusCode hresp <> 204 ->
  exists (e : Error) (req' : request),
    out = Done (None, Some (S3Error e), req', resp)
    /\ ErrStatusCode e = StatusCode hresp
    /\ (Message (xml_Decode_Error hresp Error_zero) = "" ->
        Message e = Status hresp)
    /\ (Message (xml_Decode_Error hresp Error_zero) <> "" ->
        Message e = Message (xml_Decode_Error hresp Error_zero)).
Proof.
  intros E Hsent Hwire H200 H204. unfold run in E.
  destruct (url req) as [u | err].
  2:{ unfold_M. injection E as <- <-.
      symmetry in Hsent. now apply cons_neq_self in Hsent. }
  assert (Hsend : forall (len : Z) (rq : request),
    (let hreq0 :=
       {| ReqURL := u; Method := method rq; ProtoMajor := 1;
          ProtoMinor := 1; Close := true; ReqHeader := headers rq;
          ContentLength := len; ReqBody := payload rq |} in
     ('(hresp0, err) ← transport_RoundTrip hreq0;
      match err, hresp0 with
      | Some err, _ => mret (None, Some err, rq, resp)
      | None, None => panic "nil pointer dereference"
      | None, Some hresp0 =>
          if negb (StatusCode hresp0 =? 200)
             && negb (StatusCode hresp0 =? 204)
          then Body_Close;; err ← buildError hresp0;
               mret (None, Some err, rq, resp)
          else
            match resp with
            | Some shape =>
                let '(shape, err) := xml_Decode hresp0 shape in
                Body_Close;; mret (Some hresp0, err, rq, Some shape)
            | None => mret (Some hresp0, None, rq, None)
            end
      end) w) = (out, w') ->
    exists (e : Error) (req' : request),
      out = Done (None, Some (S3Error e), req', resp)
      /\ ErrStatusCode e = StatusCode hresp
      /\ (Message (xml_Decode_Error hresp Error_zero) = "" ->
          Message e = Status hresp)
      /\ (Message (xml_Decode_Error hresp Error_zero) <> "" ->
          Message e = Message (xml_Decode_Error hresp Error_zero))).
  { intros len rq E'. cbv zeta in E'.
    unfold mbind, M_bind, transport_RoundTrip at 1 in E'.
    set (hreq0 := {| ReqURL := u; Method := method rq; ProtoMajor := 1;
                     ProtoMinor := 1; Close := true;
                     ReqHeader := headers rq; ContentLength := len;
                     ReqBody := payload rq |}) in *.
    set (w1 := {| clock := clock w; ticks := ticks w; slept := slept w;
                  wire := wire w; sent := hreq0 :: sent w;
                  closed := closed w |}) in *.
    assert (Hgrow : forall w2, sent w2 = sent w1 -> sent w' = sent w2 ->
                               hreq = hreq0).
    { intros w2 H2 H'. rewrite H', H2 in Hsent. subst w1. simpl in Hsent.
      now injection Hsent. }
    destruct (wire w (length (sent w)) hreq0) as [hresp0 err0] eqn:Hw0.
    destruct err0 as [err0 |].
    { unfold mret, M_ret in E'. injection E' as <- <-.
      rewrite <- (Hgrow w1 eq_refl eq_refl) in Hw0. congruence. }
    destruct hresp0 as [hresp0 |].
    2:{ unfold panic in E'. injection E' as <- <-.
        rewrite <- (Hgrow w1 eq_refl eq_refl) in Hw0. congruence. }
    destruct (negb (StatusCode hresp0 =? 200)
              && negb (StatusCode hresp0 =? 204)) eqn:Hst.
    - unfold Body_Close at 1 in E'. cbv beta iota in E'.
      match type of E' with
      | context [buildError hresp0 ?w2] =>
          destruct (buildError_returns hresp0 w2)
            as (e & w3 & Eb & Hc & _ & Hm1 & Hm2 & Hs3);
          rewrite Eb in E'; unfold mret, M_ret in E';
          injection E' as <- <-;
          assert (Hh : hreq = hreq0) by
            (apply (Hgrow w3); [rewrite Hs3; reflexivity | reflexivity])
      end.
      rewrite <- Hh in Hw0. rewrite Hwire in Hw0. injection Hw0 as <-.
      exists e, rq. auto.
    - exfalso.
      assert (Hh : hreq = hreq0).
      { destruct resp as [shape |].
        - destruct (xml_Decode hresp0 shape) as [shape' err'].
          unfold Body_Close, mret, M_ret in E'. injection E' as <- <-.
          now apply (Hgrow w1).
        - unfold mret, M_ret in E'. injection E' as <- <-.
          now apply (Hgrow w1). }
      rewrite <- Hh in Hw0. rewrite Hwire in Hw0. injection Hw0 as <-.
      apply andb_false_iff in Hst.
      destruct Hst as [Hst | Hst]; apply negb_false_iff, Z.eqb_eq in Hst;
        contradiction. }
  unfold mbind, M_bind at 1 in E.
  destruct (headers req !! "Content-Length") as [[| v0 v] |].
  - unfold panic in E. injection E as <- <-.
    symmetry in Hsent. now apply cons_neq_self in Hsent.
  - unfold mret, M_ret at 1 in E. cbv beta iota in E.
    exact (Hsend _ _ E).
  - unfold mret, M_ret at 1 in E. cbv beta iota in E.
    exact (Hsend _ _ E).
Qed.

End Decoding.

(** ** The attempt loop of GetResponse *)

Lemma HasNext_returns (a : Attempt) (w : World) :
  exists b a' w',
    HasNext a w = (Done (b, a'), w')
    /\ (b = true -> force a' = true \/ count a' < Min (strategy a')).
Proof.
  unfold HasNext. unfold_M.
  destruct (force a) eqn:Hf; simpl.
  - do 3 eexists. split; [reflexivity | auto].
  - destruct (Z.ltb_spec0 (count a) (Min (strategy a))).
    + do 3 eexists. split; [reflexivity | auto].
    + destruct (Time_Before _ _); do 3 eexists;
        (split; [reflexivity |]); simpl; auto; discriminate.
Qed.

Lemma advancing_le (w : World) :
  advancing w ->
  forall i j : nat, (i <= j)%nat ->
    clock w i + Z.of_nat (j - i) <= clock w j.
Proof.
  intros Ha i j Hij. induction Hij as [| j Hij IH].
  - rewrite Nat.sub_diag. simpl. lia.
  - pose proof (Ha j). replace (S j - i)%nat with (S (j - i)) by lia. lia.
Qed.

Lemma HasNext_late (a : Attempt) (w : World) :
  exists (b : bool) (a' : Attempt) (w' : World),
    HasNext a w = (Done (b, a'), w')
    /\ clock w' = clock w /\ (ticks w <= ticks w')%nat
    /\ strategy a' = strategy a /\ count a' = count a
    /\ end_ a' = end_ a
    /\ (b = true -> force a' = true \/ count a' < Min (strategy a'))
    /\ (force a = false -> Min (strategy a) <= count a ->
        end_ a <= clock w (ticks w) -> b = false).
Proof.
  unfold HasNext. unfold_M.
  destruct (force a) eqn:Hf; simpl.
  - do 3 eexists. split; [reflexivity |]. repeat split; auto; discriminate.
  - destruct (Z.ltb_spec0 (count a) (Min (strategy a))).
    + do 3 eexists. split; [reflexivity |]. repeat split; auto; lia.
    + pose proof (nextSleep_nonneg a (clock w (ticks w))) as Hs.
      unfold Time_Before, Time_Add.
      destruct (Z.ltb_spec0 (clock w (ticks w)
                  + nextSleep a (clock w (ticks w))) (end_ a));
        do 3 eexists; (split; [reflexivity |]); simpl;
        repeat split; auto; try discriminate; try lia.
Qed.

Section AttemptLoop.
Context `{Platform}.

(** [run] panics only where it indexes an empty header value or
    dereferences a missing response. *)
Lemma run_panics (req : request) (resp : option Shape) (w w' : World)
    (msg : string) :
  run req resp w = (Panic msg, w') ->
  msg = "index out of range" \/ msg = "nil pointer dereference".
Proof.
  unfold run. destruct (url req) as [u | err]; [| discriminate].
  unfold mbind, M_bind at 1.
  assert (Hsend : forall (len : Z) (rq : request) (w0 : World),
    ('(hresp0, err) ← transport_RoundTrip
        {| ReqURL := u; Method := method rq; ProtoMajor := 1;
           ProtoMinor := 1; Close := true; ReqHeader := headers rq;
           ContentLength := len; ReqBody := payload rq |};
      match err, hresp0 with
      | Some err, _ => mret (None, Some err, rq, resp)
      | None, None => panic "nil pointer dereference"
      | None, Some hresp0 =>
          if negb (StatusCode hresp0 =? 200)
             && negb (StatusCode hresp0 =? 204)
          then Body_Close;; err ← buildError hresp0;
               mret (None, Some err, rq, resp)
          else
            match resp with
            | Some shape =>
                let '(shape, err) := xml_Decode hresp0 shape in
                Body_Close;; mret (Some hresp0, err, rq, Some shape)
            | None => mret (Some hresp0, None, rq, None)
            end
      end) w0 = (Panic msg, w') ->
    msg = "index out of range" \/ msg = "nil pointer dereference").
  { intros len rq w0. unfold mbind, M_bind, transport_RoundTrip at 1.
    destruct (wire w0 _ _) as [[hresp0 |] [err0 |]];
      try discriminate.
    - destruct (negb _ && negb _).
      + unfold Body_Close at 1. cbv beta iota.
        match goal with
        | |- context [buildError hresp0 ?w2] =>
            destruct (buildError_returns hresp0 w2) as (e & w3 & -> & _)
        end.
        discriminate.
      + destruct resp as [shape |]; [| discriminate].
        destruct (xml_Decode hresp0 shape). discriminate.
    - unfold panic. intros [= <- _]. now right. }
  destruct (headers req !! "Content-Length") as [[| v0 v] |].
  - unfold panic. intros [= <- _]. now left.
  - unfold mret, M_ret at 1. cbv beta iota. apply Hsend.
  - unfold mret, M_ret at 1. cbv beta iota. apply Hsend.
Qed.

(** From a state in which [Next] must accept, the loop never falls out of
    its [for] statement. *)
Lemma GetResponse_loop_stays (fuel : nat) :
  forall (req : request) (a : Attempt) (w : World),
    force a = true \/ count a < Min (strategy a) ->
    (GetResponse_loop fuel req a w).1 <> Panic "unreachable".
Proof.
  induction fuel as [| fuel IH]; intros req a w Hgo; [discriminate |].
  simpl. unfold mbind, M_bind at 1.
  destruct (Next_proceeds a w Hgo) as (now' & w1 & -> & _).
  cbv beta iota. unfold mbind, M_bind at 1.
  destruct (run req None w1) as [[[[[resp err] req1] shape] | msg |] w2]
    eqn:Erun.
  - unfold mbind, M_bind at 1.
    destruct (shouldRetry err).
    + match goal with
      | |- context [HasNext ?a1 w2] =>
          destruct (HasNext_returns a1 w2) as (b & a2 & w3 & -> & Hb)
      end.
      destruct b.
      * apply IH. now apply Hb.
      * destruct err; discriminate.
    + unfold mret, M_ret at 1. cbv beta iota.
      destruct err; discriminate.
  - simpl. intros [= ->].
    destruct (run_panics _ _ _ _ _ Erun); discriminate.
  - discriminate.
Qed.

Lemma run_frame (req : request) (resp : option Shape) (w w' : World)
    (out : outcome (option Response * option error * request * option Shape)) :
  run req resp w = (out, w') ->
  out <> Stuck /\ clock w' = clock w /\ ticks w' = ticks w.
Proof.
  unfold run, buildError, transport_RoundTrip, Body_Close. unfold_M.
  intros E.
  destruct (url req) as [u | err]; [| now injection E as <- <-].
  destruct (headers req !! "Content-Length") as [[| v0 v] |];
    [now injection E as <- <- | |];
    repeat match type of E with
           | context [match ?x with _ => _ end] =>
               destruct x eqn:?; simpl in E
           | context [if ?x then _ else _] => destruct x eqn:?; simpl in E
           end;
    injection E as <- <-; simpl; (split; [discriminate | split; reflexivity]).
Qed.

Lemma prepare_clock (self : S3) (req : request) (w : World) :
  clock (prepare self req w).2 = clock w.
Proof.
  assert (Hsigned : forall r, prepared r = true ->
                              clock (prepare self r w).2 = clock w).
  { intros r Hr. rewrite (prepare_prepared self r w Hr).
    destruct (url_Parse (baseurl r)); reflexivity. }
  destruct (prepared req) eqn:Hp; [now apply Hsigned |].
  destruct (prepare_fresh self req w Hp) as [-> Hp1].
  destruct (prepare_resolve self req) as [[err |] req1]; simpl in *;
    [reflexivity | now apply Hsigned].
Qed.

(** Under a clock that moves on between readings the loop comes to an end:
    [n] bounds both the attempts still owed to the minimum and the
    nanoseconds left in the budget. *)
Lemma GetResponse_loop_ends (n : nat) :
  forall (req : request) (a : Attempt) (w : World),
    advancing w ->
    force a = true \/ count a < Min (strategy a) ->
    0 <= count a ->
    count a + Z.of_nat n + 1 < 2 ^ 63 ->
    Min (strategy a) - count a <= Z.of_nat n ->
    end_ a - clock w (ticks w) <= Z.of_nat n ->
    (GetResponse_loop (S n) req a w).1 <> Stuck.
Proof.
  induction n as [| n IH]; intros req a w Hadv Hgo Hc0 Hcmax Hmin Hend.
  - simpl. unfold mbind, M_bind at 1.
    destruct (Next_proceeds a w Hgo) as (now' & w1 & -> & Hck1 & Ht1).
    cbv beta iota. unfold mbind, M_bind at 1.
    destruct (run req None w1) as [[[[[resp err] req1] shape] | msg |] w2]
      eqn:Erun; [| discriminate |].
    2:{ destruct (run_frame _ _ _ _ _ Erun) as [Hns _]. contradiction. }
    destruct (run_frame _ _ _ _ _ Erun) as (_ & Hck2 & Ht2).
    unfold mbind, M_bind at 1.
    destruct (shouldRetry err).
    + match goal with
      | |- context [HasNext ?a1 w2] =>
          destruct (HasNext_late a1 w2)
            as (b & a2 & w3 & -> & _ & _ & _ & _ & _ & _ & Hlate)
      end.
      simpl in Hlate. rewrite Hlate.
      * destruct err; discriminate.
      * reflexivity.
      * rewrite wrap64_small by lia. lia.
      * rewrite Hck2, Ht2, Hck1.
        pose proof (advancing_le w Hadv (ticks w) (ticks w1) ltac:(lia)).
        simpl in Hend. lia.
    + unfold mret, M_ret at 1. cbv beta iota. destruct err; discriminate.
  - change (GetResponse_loop (S (S n)) req a w) with
      (('(more, attempt) ← Next a;
        if more : bool then
          '(resp, err, req, _) ← run req None;
          '(again, attempt) ←
            (if shouldRetry err then HasNext attempt
             else mret (false, attempt));
          if again : bool then GetResponse_loop (S n) req attempt
          else
            match err with
            | Some err => mret (None, Some err)
            | None => mret (resp, None)
            end
        else panic "unreachable") w).
    unfold mbind, M_bind at 1.
    destruct (Next_proceeds a w Hgo) as (now' & w1 & -> & Hck1 & Ht1).
    cbv beta iota. unfold mbind, M_bind at 1.
    destruct (run req None w1) as [[[[[resp err] req1] shape] | msg |] w2]
      eqn:Erun; [| discriminate |].
    2:{ destruct (run_frame _ _ _ _ _ Erun) as [Hns _]. contradiction. }
    destruct (run_frame _ _ _ _ _ Erun) as (_ & Hck2 & Ht2).
    unfold mbind, M_bind at 1.
    destruct (shouldRetry err).
    + match goal with
      | |- context [HasNext ?a1 w2] =>
          destruct (HasNext_late a1 w2)
            as (b & a2 & w3 & -> & Hck3 & Ht3 & Hs3 & Hc3 & He3 & Hb & _)
      end.
      simpl in Hs3, Hc3, He3.
      rewrite wrap64_small in Hc3 by lia.
      destruct b; [| destruct err; discriminate].
      apply IH.
      * intros i. rewrite Hck3, Hck2, Hck1. apply Hadv.
      * now apply Hb.
      * lia.
      * lia.
      * rewrite Hs3, Hc3. lia.
      * rewrite He3, Hck3, Hck2, Hck1.
        pose proof (advancing_le w Hadv (ticks w) (ticks w3) ltac:(lia)).
        lia.
    + unfold mret, M_ret at 1. cbv beta iota. destruct err; discriminate.
Qed.

(** C10.  However many iterations are allowed and whatever the clock and
    the network do, [GetResponse] never ends in [panic("unreachable")]:
    the first [Next] is accepted, and the loop goes round again only after
    [HasNext] answered true, which binds the next [Next].  And the loop is
    left: under a clock that moves on, a bounded number of iterations
    brings [GetResponse] to an end. *)
Theorem GetResponse_unreachable_is_unreachable (self : Bucket)
    (path : string) (w : World) :
  (forall fuel : nat,
      (GetResponse fuel self path w).1 <> Panic "unreachable")
  /\ (advancing w ->
      exists fuel : nat, (GetResponse fuel self path w).1 <> Stuck).
Proof.
  split.
  - intros fuel. unfold GetResponse. unfold mbind, M_bind at 1.
    match goal with
    | |- context [prepare ?s ?r w] =>
        destruct (prepare_returns s r w) as ([err |] & req' & w' & -> & _)
    end.
    + discriminate.
    + unfold mbind, M_bind at 1.
      destruct (Start_returns attempts w') as (w1 & -> & _).
      apply GetResponse_loop_stays. now left.
  - intros Hadv.
    exists (S (Z.to_nat (Total attempts))).
    unfold GetResponse. unfold mbind, M_bind at 1.
    match goal with
    | |- context [prepare ?s ?r w] =>
        pose proof (prepare_clock s r w) as Hck;
        destruct (prepare_returns s r w) as ([err |] & req' & w' & E & _);
        rewrite E in Hck |- *
    end; [discriminate |].
    simpl in Hck. unfold mbind, M_bind at 1.
    destruct (Start_returns attempts w') as (w1 & ES & Hck1).
    rewrite ES.
    assert (Ht1 : ticks w1 = S (ticks w')).
    { unfold Start in ES. unfold_M. now injection ES as <-. }
    assert (HT : Total attempts = 5000000000) by reflexivity.
    assert (HM : Min attempts = 5) by reflexivity.
    apply GetResponse_loop_ends; cbn [force count strategy end_].
    + intros i. rewrite Hck1, Hck. apply Hadv.
    + now left.
    + lia.
    + rewrite Z2Nat.id by lia. lia.
    + rewrite Z2Nat.id by lia. lia.
    + rewrite Z2Nat.id by lia. rewrite Hck1, Ht1.
      assert (Hadv' : advancing w') by (intros i; rewrite Hck; apply Hadv).
      pose proof (Hadv' (ticks w')). lia.
Qed.

End AttemptLoop.

(** * The statements on sample values *)

Section Samples.

#[local] Existing Instance sample.platform.

(** The strategy of package [s3] under a clock that advances two seconds
    per reading: five polls are accepted, although the budget of five
    seconds is spent after the third, and the sixth is refused. *)
Lemma Next_minimum_overrides_budget_sample :
  exists (a : Attempt) (w' : World),
    (Start attempts ≫= Next_times 5)
      (sample.world (2 * Second) (None, None))
    = (Done ([true; true; true; true; true], a), w')
    /\ count a = 5
    /\ exists w'', Next a w' = (Done (false, a), w'').
Proof.
  destruct (Next_minimum_overrides_budget attempts
              (sample.world (2 * Second) (None, None)))
    as (_ & Hmin & Hstop).
  destruct (Hmin 5%nat) as (a & w' & E & Hc); [vm_compute; discriminate |].
  exists a, w'. split; [exact E |]. split; [exact Hc |].
  apply (Hstop 5%nat (replicate 5 true) a w');
    [repeat constructor | exact E | |].
  - rewrite Hc. vm_compute. discriminate.
  - vm_compute in E. injection E as Ha Hw. subst a w'.
    vm_compute. discriminate.
Defined.

(** A sequence that has made its five attempts, asked 100ms after the
    last one; the following [Next] runs an hour later. *)
Lemma HasNext_true_binds_Next_sample :
  let a := {| strategy := attempts; last := 0; end_ := 5 * Second;
              force := false; count := 5 |} in
  exists (a1 : Attempt) (w1 : World),
    HasNext a (sample.world (100 * Millisecond) (None, None))
    = (Done (true, a1), w1)
    /\ exists a2 w3,
         Next a1 (sample.world (3600 * Second) (None, None))
         = (Done (true, a2), w3).
Proof.
  intros a. do 2 eexists. split; [reflexivity |].
  eapply (HasNext_true_binds_Next a _
            (sample.world (100 * Millisecond) (None, None)) _).
  reflexivity.
Defined.

Lemma awsRetry_policy_sample :
  awsRetry sample.some_request (Some sample.busy_response) None = true
  /\ awsRetry sample.some_request (Some sample.ok_response) None = false
  /\ awsRetry sample.some_request None (Some (OtherError "refused")) = false.
Proof.
  split; [| split].
  - apply (awsRetry_policy sample.some_request (Some sample.busy_response)
             None).
    right. exists sample.busy_response. split; [reflexivity |].
    simpl. lia.
  - apply (awsRetry_policy sample.some_request (Some sample.ok_response)
             None) with (r := sample.ok_response);
      [reflexivity | reflexivity |].
    simpl. lia.
  - apply (awsRetry_policy sample.some_request None
             (Some (OtherError "refused"))); discriminate.
Defined.

Lemma shouldRetry_codes_sample :
  shouldRetry (Some (S3Error {| ErrStatusCode := 404; Code := "NoSuchBucket";
                                Message := "404 Not Found";
                                RequestId := "" |})) = true
  /\ shouldRetry (Some (S3Error {| ErrStatusCode := 403;
                                   Code := "AccessDenied";
                                   Message := "403 Forbidden";
                                   RequestId := "" |})) = false.
Proof.
  destruct shouldRetry_codes as (_ & Hyes & Hno & _).
  split; [apply Hyes | apply Hno]; reflexivity.
Defined.

Lemma recursive_tries_never_returns_sample :
  recursive.tries 1000 sample.always_retry sample.some_request
    (sample.world 1 (Some sample.busy_response, None))
  = (Stuck, sample.world 1 (Some sample.busy_response, None))
  /\ sent (recursive.tries 1000 sample.always_retry sample.some_request
             (sample.world 1 (Some sample.busy_response, None))).2 = [].
Proof.
  apply (recursive_tries_never_returns sample.always_retry
           sample.some_request 1000
           (sample.world 1 (Some sample.busy_response, None))).
  vm_compute. discriminate.
Defined.

(** The other copy on the same input: three executions, then the last
    answer. *)
Lemma fixed_tries_sample :
  exists w',
    fixed.tries sample.always_retry sample.some_request
      (sample.world 1 (Some sample.busy_response, None))
    = (Done (Some sample.busy_response, None), w')
    /\ sent w' = [sample.some_request; sample.some_request;
                  sample.some_request].
Proof.
  destruct (fixed_tries_exactly_MaxTries sample.always_retry
              sample.some_request 2
              (sample.world 1 (Some sample.busy_response, None)))
    as (w' & E & Hs);
    [reflexivity | reflexivity | apply LinearBackoff_quiet |].
  exists w'. split; [exact E | exact Hs].
Qed.

End Samples.

Section ResolutionSamples.

#[local] Existing Instance sample.platform.

(** GET of "key" in bucket "example": addressed by path in us-east-1 and by
    host in the sample region, signed as "/example/key" in both. *)
Lemma signpath_same_in_both_styles_sample :
  prepare sample.s3_useast (sample.fresh "example" "key")
    (sample.world 1 (None, None))
  = (Done (None, sample.by_path_request),
     sample.read_clock 1 (sample.world 1 (None, None)))
  /\ prepare sample.s3_hosted (sample.fresh "example" "key")
       (sample.world 1 (None, None))
     = (Done (None, sample.by_host_request),
        sample.read_clock 1 (sample.world 1 (None, None)))
  /\ signpath sample.by_path_request = signpath sample.by_host_request
  /\ path sample.by_path_request <> path sample.by_host_request.
Proof.
  assert (E1 : prepare sample.s3_useast (sample.fresh "example" "key")
                 (sample.world 1 (None, None))
               = (Done (None, sample.by_path_request),
                  sample.read_clock 1 (sample.world 1 (None, None))))
    by (vm_compute; reflexivity).
  assert (E2 : prepare sample.s3_hosted (sample.fresh "example" "key")
                 (sample.world 1 (None, None))
               = (Done (None, sample.by_host_request),
                  sample.read_clock 1 (sample.world 1 (None, None))))
    by (vm_compute; reflexivity).
  split; [exact E1 |]. split; [exact E2 |].
  destruct (signpath_same_in_both_styles (sample.fresh "example" "key"))
    as [_ Htwo]; [reflexivity | discriminate |].
  apply (Htwo sample.s3_useast sample.s3_hosted _ _ _ _ _ _
           eq_refl ltac:(discriminate) E1 E2).
Defined.

(** A bucket name with a slash, in the region addressed by host: the call
    fails, and the request it leaves behind is not the one it was given. *)
Lemma failed_prepare_changes_request :
  exists req' : request,
    prepare sample.s3_hosted (sample.fresh "a/b" "key")
      (sample.world 1 (None, None))
    = (Done (Some (BadBucket "a/b"), req'), sample.world 1 (None, None))
    /\ req' <> sample.fresh "a/b" "key"
    /\ prepared req' = true
    /\ method req' = "GET"
    /\ path req' = "/key"
    /\ signpath req' = "/key"
    /\ baseurl req' = "https://${bucket}.s3.example.com".
Proof.
  eexists. split; [reflexivity |].
  split; [| repeat split].
  intros E. apply (f_equal prepared) in E. discriminate.
Qed.

Lemma bad_bucket_refused_sample :
  prepare sample.s3_hosted (sample.fresh "a/b" "key")
    (sample.world 1 (None, None))
  = (Done (Some (BadBucket "a/b"),
           {| method := "GET"; bucket := "a/b"; path := "/key";
              signpath := "/key"; params := ∅; headers := ∅;
              baseurl := "https://${bucket}.s3.example.com";
              payload := None; prepared := true |}),
     sample.world 1 (None, None)).
Proof.
  apply (bad_bucket_refused sample.s3_hosted (sample.fresh "a/b" "key")
           (sample.world 1 (None, None))).
  - reflexivity.
  - discriminate.
  - exists "/"%char. split; [simpl; auto | auto].
Defined.

(** A request that carries a Date header from before, with a bucket name
    that the guard refuses: the call returns without reading the clock,
    the old Date header is still there, and nothing has been signed. *)
Lemma refused_prepare_keeps_old_Date :
  exists req' : request,
    prepare sample.s3_hosted
      (set_headers {["Date" := ["Wed, 31 Dec 1969 23:59:59 UTC"]]}
         (sample.fresh "a/b" "key"))
      (sample.world 1 (None, None))
    = (Done (Some (BadBucket "a/b"), req'), sample.world 1 (None, None))
    /\ headers req' !! "Date" = Some ["Wed, 31 Dec 1969 23:59:59 UTC"]
    /\ headers req' !! "Date"
       <> Some [Format_RFC1123 (clock (sample.world 1 (None, None)) 0)]
    /\ headers req' !! "Authorization" = None.
Proof.
  eexists. split; [reflexivity |].
  split; [reflexivity |]. split; [discriminate | reflexivity].
Qed.

(** Two calls in a row, the clock advancing a microsecond per reading: the
    resolved fields stay, the Date header moves on.  And a call that is
    refused for its bucket name: no clock reading, no header written; the
    call after it signs, under the address that was left. *)
Lemma prepare_again_only_signs_sample :
  prepare sample.s3_useast (sample.fresh "example" "key")
    (sample.world 1000 (None, None))
  = (Done (None, sample.by_path_request),
     sample.read_clock 1 (sample.world 1000 (None, None)))
  /\ (exists req2 w2',
       prepare sample.s3_useast sample.by_path_request
         (sample.read_clock 1 (sample.world 1000 (None, None)))
       = (Done (None, req2), w2')
       /\ path req2 = "/example/key"
       /\ signpath req2 = "/example/key"
       /\ baseurl req2 = "https://s3.amazonaws.com"
       /\ method req2 = "GET"
       /\ params req2 = ∅
       /\ headers sample.by_path_request !! "Date"
          = Some ["Thu, 01 Jan 1970 00:00:00 UTC"]
       /\ headers req2 !! "Date" = Some ["Thu, 01 Jan 1970 00:00:01 UTC"])
  /\ exists req1 w1' req2 w2',
       prepare sample.s3_hosted (sample.fresh "a/b" "key")
         (sample.world 1000 (None, None))
       = (Done (Some (BadBucket "a/b"), req1), w1')
       /\ w1' = sample.world 1000 (None, None)
       /\ headers req1 = ∅
       /\ prepare sample.s3_hosted req1 w1' = (Done (None, req2), w2')
       /\ baseurl req2 = "https://${bucket}.s3.example.com"
       /\ signpath req2 = "/key"
       /\ headers req2 !! "Date" = Some ["Thu, 01 Jan 1970 00:00:00 UTC"].
Proof.
  assert (E1 : prepare sample.s3_useast (sample.fresh "example" "key")
                 (sample.world 1000 (None, None))
               = (Done (None, sample.by_path_request),
                  sample.read_clock 1 (sample.world 1000 (None, None))))
    by (vm_compute; reflexivity).
  split; [exact E1 |]. split.
  - destruct (prepare_again_only_signs sample.s3_useast
                (sample.fresh "example" "key") sample.by_path_request None
                (sample.world 1000 (None, None)) _ E1)
      as (_ & _ & Hnext).
    destruct (Hnext (sample.read_clock 1 (sample.world 1000 (None, None))))
      as (err2 & req2 & w2' & E & Hsame & Hsign & _ & Hparams).
    destruct Hsame as (Hm & _ & Hp & Hsp & Hb & _).
    destruct (Hsign _ eq_refl) as (-> & _ & _ & Hdate).
    exists req2, w2'. split; [exact E |].
    split; [rewrite Hp; reflexivity |].
    split; [rewrite Hsp; reflexivity |].
    split; [rewrite Hb; reflexivity |].
    split; [rewrite Hm; reflexivity |].
    split; [rewrite Hparams; reflexivity |].
    split; [vm_compute; reflexivity |].
    rewrite Hdate; [reflexivity |].
    intros a m p ps hs. apply lookup_insert_ne. discriminate.
  - assert (E : exists req1,
               prepare sample.s3_hosted (sample.fresh "a/b" "key")
                 (sample.world 1000 (None, None))
               = (Done (Some (BadBucket "a/b"), req1),
                  sample.world 1000 (None, None))
               /\ baseurl req1 = "https://${bucket}.s3.example.com"
               /\ signpath req1 = "/key")
      by (eexists; vm_compute; repeat split; reflexivity).
    destruct E as (req1 & E & Hb1 & Hsp1).
    destruct (prepare_again_only_signs sample.s3_hosted
                (sample.fresh "a/b" "key") req1 (Some (BadBucket "a/b"))
                (sample.world 1000 (None, None)) _ E)
      as (_ & Hrefused & Hnext).
    destruct (Hrefused ltac:(discriminate)) as (_ & _ & Hhs).
    destruct (Hnext (sample.world 1000 (None, None)))
      as (err2 & req2 & w2' & E2 & Hsame & Hsign & _).
    destruct Hsame as (_ & _ & _ & Hsp & Hb & _).
    destruct (Hsign {| Scheme := "https"; Host := "${bucket}.s3.example.com";
                       Path := ""; RawQuery := "" |})
      as (-> & _ & _ & Hdate); [rewrite Hb1; reflexivity |].
    exists req1, (sample.world 1000 (None, None)), req2, w2'.
    split; [exact E |]. split; [reflexivity |].
    split; [exact Hhs |]. split; [exact E2 |].
    split; [now rewrite Hb |]. split; [now rewrite Hsp |].
    rewrite Hdate; [reflexivity |].
    intros a m p ps hs. apply lookup_insert_ne. discriminate.
Defined.

(** A 403 answer: no response, a structured error with the status code
    and, the document giving no message, the status line. *)
Lemma run_failure_is_structured_sample :
  let req := {| method := "GET"; bucket := "example";
                path := "/example/key"; signpath := "/example/key";
                params := ∅; headers := ∅;
                baseurl := "https://s3.amazonaws.com";
                payload := None; prepared := true |} in
  exists (e : Error) (req' : request),
    (run req None (sample.world 1 (Some sample.denied_response, None))).1
    = Done (None, Some (S3Error e), req', None)
    /\ ErrStatusCode e = 403
    /\ Message e = "403 Forbidden".
Proof.
  intros req.
  destruct (run_failure_is_structured req None
              (sample.world 1 (Some sample.denied_response, None))
              (run req None
                 (sample.world 1 (Some sample.denied_response, None))).2
              {| ReqURL := {| Scheme := "https"; Host := "s3.amazonaws.com";
                              Path := "/example/key"; RawQuery := "" |};
                 Method := "GET"; ProtoMajor := 1; ProtoMinor := 1;
                 Close := true; ReqHeader := ∅; ContentLength := 0;
                 ReqBody := None |}
              sample.denied_response
              (run req None
                 (sample.world 1 (Some sample.denied_response, None))).1)
    as (e & req' & Hout & Hc & Hm & _).
  - reflexivity.
  - reflexivity.
  - reflexivity.
  - discriminate.
  - discriminate.
  - exists e, req'. split; [exact Hout |]. split; [exact Hc |].
    apply Hm. reflexivity.
Defined.

End ResolutionSamples.

Section LoopSamples.

#[local] Existing Instance sample.platform.

(** A server that keeps cutting the connection, under a clock that advances
    one second per reading: the five attempts of the minimum are made, then
    the last error is returned. *)
Lemma GetResponse_retries_sample :
  exists w',
    GetResponse 10 {| Bucket_S3 := sample.s3_useast;
                      Bucket_Name := "example" |} "key"
      (sample.world Second (None, Some ErrEOF))
    = (Done (None, Some ErrEOF), w')
    /\ List.length (sent w') = 5%nat.
Proof.
  eexists. split; [vm_compute; reflexivity | reflexivity].
Qed.

Lemma GetResponse_unreachable_is_unreachable_sample :
  exists fuel : nat,
    (GetResponse fuel {| Bucket_S3 := sample.s3_useast;
                         Bucket_Name := "example" |} "key"
       (sample.world 1 (Some sample.ok_response, None))).1 <> Stuck
    /\ (GetResponse fuel {| Bucket_S3 := sample.s3_useast;
                           Bucket_Name := "example" |} "key"
          (sample.world 1 (Some sample.ok_response, None))).1
       <> Panic "unreachable".
Proof.
  destruct (GetResponse_unreachable_is_unreachable
              {| Bucket_S3 := sample.s3_useast; Bucket_Name := "example" |}
              "key" (sample.world 1 (Some sample.ok_response, None)))
    as [Hsafe Hends].
  destruct Hends as (fuel & Hfuel).
  - intros i. simpl. lia.
  - exists fuel. split; [exact Hfuel | apply Hsafe].
Defined.

End LoopSamples.

(** * Further properties *)

(** ** More on the attempt sequence *)

(** When the next attempt may start: not before now and not before the
    delay after the last one.  The wait itself is never longer than the
    delay. *)
Lemma nextSleep_next_time (a : Attempt) (now : Time) :
  0 <= Delay (strategy a) <= max_int64 ->
  last a <= now ->
  now + nextSleep a now = Z.max now (last a + Delay (strategy a))
  /\ 0 <= nextSleep a now <= Delay (strategy a).
Proof.
  unfold nextSleep, Time_Sub, clamp64, min_int64, max_int64.
  intros Hd Hl.
  destruct (Z.ltb_spec0 (now - last a) (- 2 ^ 63)); [lia |].
  destruct (Z.ltb_spec0 (2 ^ 63 - 1) (now - last a)).
  - rewrite wrap64_small by lia.
    destruct (Z.ltb_spec0 (Delay (strategy a) - (2 ^ 63 - 1)) 0); lia.
  - rewrite wrap64_small by lia.
    destruct (Z.ltb_spec0 (Delay (strategy a) - (now - last a)) 0); lia.
Qed.

(** X1.  [HasNext] is a lookahead: it reads the clock at most once, never
    sleeps, and changes nothing of the attempt but the force flag, which it
    changes only to set it when it answers true. *)
Theorem HasNext_only_forces (a a' : Attempt) (b : bool) (w w' : World) :
  HasNext a w = (Done (b, a'), w') ->
  strategy a' = strategy a /\ last a' = last a /\ end_ a' = end_ a
  /\ count a' = count a
  /\ (force a' = force a \/ (b = true /\ force a' = true))
  /\ (b = false -> a' = a)
  /\ slept w' = slept w /\ sent w' = sent w /\ closed w' = closed w
  /\ (ticks w' = ticks w \/ ticks w' = S (ticks w)).
Proof.
  unfold HasNext. unfold_M.
  destruct (force a || (count a <? Min (strategy a))) eqn:Hgo.
  - intros [= <- <- <-]. repeat split; auto; discriminate.
  - destruct (Time_Before _ _); intros [= <- <- <-]; simpl;
      repeat split; auto; discriminate.
Qed.

(** X2.  A false answer of [HasNext] is binding as well, as long as the
    clock does not go back: the next [Next] refuses. *)
Theorem HasNext_false_binds_Next (a a1 : Attempt) (w w1 : World) :
  0 <= Delay (strategy a) <= max_int64 ->
  last a <= clock w (ticks w) ->
  HasNext a w = (Done (false, a1), w1) ->
  forall w2 : World,
    clock w (ticks w) <= clock w2 (ticks w2) ->
    exists w3, Next a1 w2 = (Done (false, a1), w3).
Proof.
  intros Hd Hl E w2 Hlater.
  unfold HasNext in E. unfold_M.
  destruct (force a) eqn:Hf; simpl in E; [discriminate |].
  destruct (Z.ltb_spec0 (count a) (Min (strategy a))); [discriminate |].
  destruct (Time_Before _ _) eqn:Hb; [discriminate |].
  injection E as <- <-.
  unfold Time_Before, Time_Add in Hb. apply Z.ltb_ge in Hb.
  destruct (nextSleep_next_time a (clock w (ticks w)) Hd Hl) as [E1 _].
  destruct (nextSleep_next_time a (clock w2 (ticks w2)) Hd ltac:(lia))
    as [E2 _].
  unfold Next. unfold_M. rewrite Hf. simpl.
  assert (Hb2 : Time_Before (Time_Add (clock w2 (ticks w2))
                  (nextSleep a (clock w2 (ticks w2)))) (end_ a) = false).
  { unfold Time_Before, Time_Add. apply Z.ltb_ge. lia. }
  rewrite Hb2. simpl.
  assert (Hm : (Min (strategy a) <=? count a) = true) by (apply Z.leb_le; lia).
  rewrite Hm. eauto.
Qed.

(** X3.  [Next] sleeps at most once and for no longer than the delay, only
    when it accepts, and never before the first attempt. *)
Theorem Next_sleeps_at_most_Delay (a a' : Attempt) (b : bool)
    (w w' : World) :
  0 <= Delay (strategy a) <= max_int64 ->
  last a <= clock w (ticks w) ->
  Next a w = (Done (b, a'), w') ->
  (slept w' = slept w
   \/ exists d, slept w' = d :: slept w
                /\ 0 < d <= Delay (strategy a) /\ b = true)
  /\ (count a <= 0 -> slept w' = slept w)
  /\ sent w' = sent w /\ closed w' = closed w.
Proof.
  intros Hd Hl. unfold Next. unfold_M.
  destruct (nextSleep_next_time a (clock w (ticks w)) Hd Hl) as [_ Hs].
  destruct (negb (force a) && _ && _).
  - intros [= <- <- <-]. simpl. auto.
  - destruct (Z.ltb_spec0 0 (nextSleep a (clock w (ticks w))));
      destruct (Z.ltb_spec0 0 (count a)); simpl;
      intros [= <- <- <-]; simpl; repeat split; auto; try lia.
    right. eexists. split; [reflexivity |]. split; [lia | reflexivity].
Qed.

(** ** More on the resilient transport *)

(** Whatever the predicate answers, the loop of [tries] executes the
    transport at most [left] times and returns. *)
Lemma fixed_tries_from_bounded (self : ResilientTransport)
    (request : Request) :
  quiet_wait (Wait self) ->
  forall (left : nat) (try : Z) (result : option Response * option error)
         (w : World),
    exists (res : option Response * option error) (w' : World) (k : nat),
      fixed.tries_from self request left try result w = (Done res, w')
      /\ sent w' = (replicate k request ++ sent w)%list
      /\ (k <= left)%nat
      /\ (k = O -> res = result)
      /\ wire w' = wire w.
Proof.
  intros Hq. induction left as [| n IH]; intros try result w.
  - exists result, w, O. simpl. auto.
  - simpl. unfold mbind, M_bind, transport_RoundTrip at 1.
    set (w1 := {| clock := clock w; ticks := ticks w; slept := slept w;
                  wire := wire w; sent := request :: sent w;
                  closed := closed w |}).
    set (r1 := wire w (length (sent w)) request).
    destruct (ShouldRetry self request r1.1 r1.2); simpl.
    + destruct (close_and_wait_quiet self try r1.1 w1 Hq)
        as (w2 & -> & Hs2 & Hw2).
      destruct (IH (try + 1) r1 w2) as (res & w3 & k & -> & Hs3 & Hk & _ & Hw3).
      exists res, w3, (S k). rewrite Hs3, Hw3, Hs2, Hw2. subst w1. simpl.
      repeat split; try lia; try discriminate.
      clear. induction k as [| k IHk]; simpl; [reflexivity |].
      now rewrite IHk.
    + exists r1, w1, 1%nat. unfold mret, M_ret. subst w1. simpl.
      repeat split; try lia; discriminate.
Qed.

(** X4.  [tries] always returns, after at most [MaxTries] executions of the
    transport, whatever the predicate; with [MaxTries <= 0] it executes
    nothing and returns neither a response nor an error. *)
Theorem fixed_tries_at_most_MaxTries (self : ResilientTransport)
    (request : Request) (w : World) :
  quiet_wait (Wait self) ->
  exists (res : option Response * option error) (w' : World) (k : nat),
    fixed.tries self request w = (Done res, w')
    /\ sent w' = (replicate k request ++ sent w)%list
    /\ Z.of_nat k <= Z.max 0 (MaxTries self)
    /\ (MaxTries self <= 0 -> res = (None, None) /\ sent w' = sent w).
Proof.
  intros Hq. unfold fixed.tries.
  destruct (fixed_tries_from_bounded self request Hq
              (Z.to_nat (MaxTries self)) 0 (None, None) w)
    as (res & w' & k & E & Hs & Hk & H0 & _).
  exists res, w', k. split; [exact E |]. split; [exact Hs |].
  split; [lia |].
  intros Hmax. assert (k = O) by lia. subst k. split; [auto | exact Hs].
Qed.

(** The loop of [tries], from any state it can be in. *)
Lemma fixed_tries_from_first_final (self : ResilientTransport)
    (request : Request) :
  quiet_wait (Wait self) ->
  forall (k left : nat) (try : Z) (result : option Response * option error)
         (w : World),
    (k < left)%nat ->
    (forall i : nat, (i < k)%nat ->
       ShouldRetry self request
         (wire w (length (sent w) + i)%nat request).1
         (wire w (length (sent w) + i)%nat request).2 = true) ->
    ShouldRetry self request
      (wire w (length (sent w) + k)%nat request).1
      (wire w (length (sent w) + k)%nat request).2 = false ->
    exists w',
      fixed.tries_from self request left try result w
      = (Done (wire w (length (sent w) + k)%nat request), w')
      /\ sent w' = (replicate (S k) request ++ sent w)%list.
Proof.
  intros Hq. induction k as [| k IH]; intros left try result w Hk Hre Hfin.
  - destruct left as [| n]; [lia |].
    simpl. unfold mbind, M_bind, transport_RoundTrip at 1.
    rewrite Nat.add_0_r in Hfin. rewrite Hfin. simpl.
    unfold mret, M_ret. rewrite Nat.add_0_r. eauto.
  - destruct left as [| n]; [lia |].
    simpl. unfold mbind, M_bind, transport_RoundTrip at 1.
    pose proof (Hre O ltac:(lia)) as H0. rewrite Nat.add_0_r in H0.
    rewrite H0. simpl.
    set (w1 := {| clock := clock w; ticks := ticks w; slept := slept w;
                  wire := wire w; sent := request :: sent w;
                  closed := closed w |}).
    set (r1 := wire w (length (sent w)) request).
    destruct (close_and_wait_quiet self try r1.1 w1 Hq)
      as (w2 & -> & Hs2 & Hw2).
    destruct (IH n (try + 1) r1 w2) as (w3 & -> & Hs3).
    + lia.
    + intros i Hi. rewrite Hs2, Hw2. subst w1. simpl.
      specialize (Hre (S i) ltac:(lia)).
      now rewrite Nat.add_succ_r in Hre.
    + rewrite Hs2, Hw2. subst w1. simpl.
      now rewrite Nat.add_succ_r in Hfin.
    + exists w3. rewrite Hs3, Hs2, Hw2. subst w1. simpl.
      split; [now rewrite Nat.add_succ_r |].
      clear. induction k as [| k IHk]; simpl; [reflexivity |].
      now rewrite IHk.
Qed.

(** X5.  [tries] stops at the first answer the predicate does not want
    retried, and returns that answer: if the answers to the first [k]
    executions are to be retried and the next one is not, with [k <
    MaxTries], there are exactly [k + 1] executions. *)
Theorem fixed_tries_stops_at_first_final (self : ResilientTransport)
    (request : Request) (k : nat) (w : World) :
  quiet_wait (Wait self) ->
  Z.of_nat k < MaxTries self ->
  (forall i : nat, (i < k)%nat ->
     ShouldRetry self request
       (wire w (length (sent w) + i)%nat request).1
       (wire w (length (sent w) + i)%nat request).2 = true) ->
  ShouldRetry self request
    (wire w (length (sent w) + k)%nat request).1
    (wire w (length (sent w) + k)%nat request).2 = false ->
  exists w',
    fixed.tries self request w
    = (Done (wire w (length (sent w) + k)%nat request), w')
    /\ sent w' = (replicate (S k) request ++ sent w)%list.
Proof.
  intros Hq Hk Hre Hfin. unfold fixed.tries.
  apply fixed_tries_from_first_final; auto. lia.
Qed.

(** The loop of [tries] under [LinearBackoff], from any state. *)
Lemma fixed_tries_from_linear (self : ResilientTransport)
    (request : Request) :
  Wait self = Some LinearBackoff ->
  (forall q r e, ShouldRetry self q r e = true) ->
  forall (left : nat) (try : Z) (result : option Response * option error)
         (w : World),
    0 <= try -> try + Z.of_nat left < 2 ^ 30 ->
    (forall i q, (wire w i q).1 <> None) ->
    exists res w',
      fixed.tries_from self request left try result w = (Done res, w')
      /\ slept w' =
           (rev (map (fun i => (try + Z.of_nat i) * (100 * Millisecond))
                   (seq 0 left)) ++ slept w)%list
      /\ closed w' = (left + closed w)%nat.
Proof.
  intros Hwait Hretry.
  induction left as [| n IH]; intros try result w Ht Hmax Hresp.
  - exists result, w. simpl. auto.
  - simpl. unfold mbind, M_bind, transport_RoundTrip at 1.
    rewrite Hretry. simpl.
    set (r1 := wire w (length (sent w)) request).
    assert (Hr1 : r1.1 <> None) by apply Hresp.
    unfold close_and_wait. rewrite Hwait.
    destruct (r1.1) as [resp |] eqn:Hr; [| contradiction].
    unfold mbind, M_bind, Body_Close at 1. unfold LinearBackoff at 1.
    unfold time_Sleep at 1.
    match goal with
    | |- context [fixed.tries_from self request n (try + 1) r1 ?w2] =>
        destruct (IH (try + 1) r1 w2) as (res & w3 & E & Hs & Hc);
        [lia | lia | exact Hresp |]
    end.
    exists res, w3. split; [exact E |]. rewrite Hs, Hc. simpl.
    split; [| lia].
    rewrite <- seq_shift, map_map.
    rewrite <- app_assoc. simpl. f_equal.
    + f_equal. apply map_ext. intros i. lia.
    + f_equal. unfold Millisecond.
      rewrite (wrap64_small (try * 100)) by lia.
      rewrite wrap64_small by lia. lia.
Qed.

(** X6.  With [LinearBackoff] and a predicate that always asks for a retry,
    every execution is followed by a wait and by the closing of its response
    body, the last execution included: [n] executions give the waits 0,
    100ms, ..., (n-1)*100ms, and the response handed back to the caller has
    been closed. *)
Theorem fixed_tries_linear_backoff (self : ResilientTransport)
    (request : Request) (n : nat) (w : World) :
  Wait self = Some LinearBackoff ->
  (forall q r e, ShouldRetry self q r e = true) ->
  MaxTries self = Z.of_nat n -> Z.of_nat n < 2 ^ 30 ->
  (forall i q, (wire w i q).1 <> None) ->
  exists res w',
    fixed.tries self request w = (Done res, w')
    /\ slept w' =
         (rev (map (fun i => Z.of_nat i * (100 * Millisecond)) (seq 0 n))
            ++ slept w)%list
    /\ closed w' = (n + closed w)%nat.
Proof.
  intros Hwait Hretry Hmax Hn Hresp. unfold fixed.tries.
  rewrite Hmax, Nat2Z.id.
  destruct (fixed_tries_from_linear self request Hwait Hretry n 0
              (None, None) w) as (res & w' & E & Hs & Hc);
    [lia | lia | exact Hresp |].
  exists res, w'. auto.
Qed.

(** ** Credentials *)

Import auth.

(** X7.  [EnvAuth] succeeds exactly when an access key and a secret key are
    set under one of their two names each; the longer name wins when both
    are set; there is never a token; and when both keys are missing the
    error names the secret key. *)
Theorem EnvAuth_environment (env : gmap string string) :
  ((EnvAuth env).2 = None <->
     (Getenv env "AWS_ACCESS_KEY_ID" <> ""
      \/ Getenv env "AWS_ACCESS_KEY" <> "")
     /\ (Getenv env "AWS_SECRET_ACCESS_KEY" <> ""
         \/ Getenv env "AWS_SECRET_KEY" <> ""))
  /\ AccessKey (EnvAuth env).1 =
       (if String.eqb (Getenv env "AWS_ACCESS_KEY_ID") ""
        then Getenv env "AWS_ACCESS_KEY"
        else Getenv env "AWS_ACCESS_KEY_ID")
  /\ SecretKey (EnvAuth env).1 =
       (if String.eqb (Getenv env "AWS_SECRET_ACCESS_KEY") ""
        then Getenv env "AWS_SECRET_KEY"
        else Getenv env "AWS_SECRET_ACCESS_KEY")
  /\ Token (EnvAuth env).1 = ""
  /\ (Getenv env "AWS_SECRET_ACCESS_KEY" = "" ->
      Getenv env "AWS_SECRET_KEY" = "" ->
      (EnvAuth env).2 =
        Some (OtherError
          "AWS_SECRET_ACCESS_KEY or AWS_SECRET_KEY not found in environment")).
Proof.
  unfold EnvAuth. simpl.
  destruct (String.eqb_spec (Getenv env "AWS_ACCESS_KEY_ID") "") as [Ha | Ha];
    destruct (String.eqb_spec (Getenv env "AWS_SECRET_ACCESS_KEY") "")
      as [Hs | Hs];
    repeat match goal with
           | |- context [String.eqb ?x ""] =>
               destruct (String.eqb_spec x "")
           end;
    repeat split; try discriminate; try tauto; try congruence;
    intros; try tauto; try congruence.
Qed.

Section Credentials.
Variable client_Get : string -> M (option Response * option error).
Variable json_Unmarshal : string -> credentials -> credentials * option error.
Variable ReadAll : Response -> string * option error.

(** X8.  Credentials passed in win over everything else, without a token and
    without a look at the environment or the network, but only when both are
    given: an access key without a secret key is ignored. *)
Theorem GetAuth_passed_in (env : gmap string string)
    (accessKey secretKey : string) (w : World) :
  (accessKey <> "" -> secretKey <> "" ->
   auth.GetAuth client_Get json_Unmarshal ReadAll env accessKey secretKey w =
     (Done ({| AccessKey := accessKey; SecretKey := secretKey;
               Token := "" |}, None), w))
  /\ (accessKey = "" \/ secretKey = "" ->
      auth.GetAuth
        client_Get json_Unmarshal ReadAll env accessKey secretKey w
      = auth.GetAuth client_Get json_Unmarshal ReadAll env "" "" w).
Proof.
  unfold auth.GetAuth. split.
  - intros Ha Hs.
    destruct (String.eqb_spec accessKey ""); [contradiction |].
    destruct (String.eqb_spec secretKey ""); [contradiction |].
    reflexivity.
  - intros [-> | ->]; [reflexivity |].
    destruct (String.eqb_spec accessKey ""); reflexivity.
Qed.

(** X9.  Without passed-in credentials: a complete environment is used as it
    is, with no request to the metadata service; otherwise the instance role
    is asked, and its credentials, token included, are returned; when that
    fails too, the error is the fixed "No valid AWS authentication found",
    whatever went wrong. *)
Theorem GetAuth_fallback (env : gmap string string) (w : World) :
  ((EnvAuth env).2 = None ->
   auth.GetAuth
     client_Get json_Unmarshal ReadAll env "" "" w
   = (Done ((EnvAuth env).1, None), w))
  /\ ((EnvAuth env).2 <> None ->
      forall (cred : credentials) (w' : World),
        auth.getInstanceCredentials
          client_Get json_Unmarshal ReadAll w = (Done (cred, None), w') ->
        auth.GetAuth client_Get json_Unmarshal ReadAll env "" "" w =
          (Done ({| AccessKey := AccessKeyId cred;
                    SecretKey := SecretAccessKey cred;
                    Token := cred_Token cred |}, None), w'))
  /\ ((EnvAuth env).2 <> None ->
      forall (cred : credentials) (e : error) (w' : World),
        auth.getInstanceCredentials
          client_Get json_Unmarshal ReadAll w = (Done (cred, Some e), w') ->
        auth.GetAuth client_Get json_Unmarshal ReadAll env "" "" w =
          (Done ((EnvAuth env).1,
                 Some (OtherError "No valid AWS authentication found")),
           w')).
Proof.
  unfold auth.GetAuth.
  remember (EnvAuth env) as found eqn:Hfound. clear Hfound.
  destruct found as [a [e0 |]]; simpl.
  - split; [intros [=] |]. split; intros _ cred; intros;
      unfold mbind, M_bind;
      match goal with H : _ = (Done _, _) |- _ => rewrite H end;
      reflexivity.
  - split; [reflexivity |]. split; intros Hne; contradiction.
Qed.

(** What [GetMetaData] makes of the answer of the client. *)
Lemma GetMetaData_answer (path : string) (w w1 : World)
    (answer : option Response * option error) :
  client_Get ("http://169.254.169.254/latest/meta-data/" +:+ path) w
  = (Done answer, w1) ->
  let closed1 :=
    {| clock := clock w1; ticks := ticks w1; slept := slept w1;
       wire := wire w1; sent := sent w1; closed := S (closed w1) |} in
  auth.GetMetaData client_Get ReadAll path w =
    match answer with
    | (_, Some e) => (Done (None, Some e), w1)
    | (None, None) => (Panic "nil pointer dereference", w1)
    | (Some r, None) =>
        if StatusCode r =? 200 then
          match ReadAll r with
          | (_, Some e) => (Done (None, Some e), closed1)
          | (body, None) => (Done (Some body, None), closed1)
          end
        else
          (Done (None,
                 Some (OtherError
                   ("Code " +:+ FormatInt (StatusCode r)
                    +:+ " returned for url "
                    +:+ "http://169.254.169.254/latest/meta-data/"
                    +:+ path))), closed1)
    end.
Proof.
  intros E. unfold auth.GetMetaData. cbv zeta.
  unfold mbind, M_bind, mret, M_ret, panic, Body_Close. rewrite E.
  destruct answer as [[r |] [e |]]; try reflexivity.
  destruct (StatusCode r =? 200); simpl; [| reflexivity].
  destruct (ReadAll r) as [body [e |]]; reflexivity.
Qed.

(** X10.  The role is looked up first; when that request fails, or is
    answered with a status other than 200, nothing else is requested and no
    credentials come back. Otherwise the credentials are asked for under the
    name of the role, and decoded from the answer. *)
Theorem getInstanceCredentials_role_first (w w1 : World)
    (answer : option Response * option error) :
  client_Get
    "http://169.254.169.254/latest/meta-data/iam/security-credentials/" w
  = (Done answer, w1) ->
  let closed1 :=
    {| clock := clock w1; ticks := ticks w1; slept := slept w1;
       wire := wire w1; sent := sent w1; closed := S (closed w1) |} in
  (forall e, answer.2 = Some e ->
     auth.getInstanceCredentials
       client_Get json_Unmarshal ReadAll w
     = (Done (credentials_zero, Some e), w1))
  /\ (forall r, answer = (Some r, None) -> StatusCode r <> 200 ->
        exists e,
          auth.getInstanceCredentials client_Get json_Unmarshal ReadAll w
          = (Done (credentials_zero, Some e), closed1))
  /\ (forall r role, answer = (Some r, None) -> StatusCode r = 200 ->
        ReadAll r = (role, None) ->
        auth.getInstanceCredentials client_Get json_Unmarshal ReadAll w =
          match auth.GetMetaData client_Get ReadAll
                  ("iam/security-credentials/" +:+ role) closed1
          with
          | (Done (_, Some e), w2) => (Done (credentials_zero, Some e), w2)
          | (Done (credentialJSON, None), w2) =>
              (Done (json_Unmarshal (default "" credentialJSON)
                       credentials_zero), w2)
          | (Panic msg, w2) => (Panic msg, w2)
          | (Stuck, w2) => (Stuck, w2)
          end).
Proof.
  intros E closed1.
  assert (Hfirst :
    auth.getInstanceCredentials client_Get json_Unmarshal ReadAll w =
      match auth.GetMetaData client_Get ReadAll
              "iam/security-credentials/" w with
      | (Done (_, Some e), w2) => (Done (credentials_zero, Some e), w2)
      | (Done (role, None), w2) =>
          match auth.GetMetaData client_Get ReadAll
                  ("iam/security-credentials/" +:+ default "" role)
                  w2 with
          | (Done (_, Some e), w3) => (Done (credentials_zero, Some e), w3)
          | (Done (credentialJSON, None), w3) =>
              (Done (json_Unmarshal (default "" credentialJSON)
                       credentials_zero), w3)
          | (Panic msg, w3) => (Panic msg, w3)
          | (Stuck, w3) => (Stuck, w3)
          end
      | (Panic msg, w2) => (Panic msg, w2)
      | (Stuck, w2) => (Stuck, w2)
      end).
  { unfold auth.getInstanceCredentials. cbv zeta.
    unfold mbind, M_bind, mret, M_ret.
    destruct (auth.GetMetaData client_Get ReadAll "iam/security-credentials/" w)
      as [[[role [e |]] | msg |] w2]; try reflexivity.
    destruct (auth.GetMetaData client_Get ReadAll _ w2)
      as [[[js [e |]] | msg |] w3]; reflexivity. }
  rewrite Hfirst.
  rewrite (GetMetaData_answer "iam/security-credentials/" w w1 answer E).
  destruct answer as [resp err]. simpl.
  split; [| split].
  - intros e ->. destruct resp; reflexivity.
  - intros r [= -> ->] Hst.
    destruct (Z.eqb_spec (StatusCode r) 200); [contradiction |]. eauto.
  - intros r role [= -> ->] Hst Hread.
    destruct (Z.eqb_spec (StatusCode r) 200); [| contradiction].
    rewrite Hread. reflexivity.
Qed.

End Credentials.

(** ** Decimal numbers *)

Lemma digit_char_of (d : Z) :
  0 <= d <= 9 ->
  digit_of (digit_char d) = Some d
  /\ Ascii.eqb (digit_char d) "+" = false
  /\ Ascii.eqb (digit_char d) "-" = false.
Proof.
  intros Hd.
  assert (Hcases : d = 0 \/ d = 1 \/ d = 2 \/ d = 3 \/ d = 4 \/ d = 5
                   \/ d = 6 \/ d = 7 \/ d = 8 \/ d = 9) by lia.
  repeat destruct Hcases as [-> | Hcases]; try subst d; repeat split.
Qed.

Lemma digits_to_spec (fuel : nat) :
  forall (n : Z) (acc : string),
    0 <= n < 10 ^ Z.of_nat (S fuel) ->
    (exists k, forall a,
        digits_from a (digits_to (S fuel) n acc)
        = digits_from (a * k + n) acc)
    /\ exists d rest,
         digits_to (S fuel) n acc = String (digit_char d) rest
         /\ 0 <= d <= 9.
Proof.
  induction fuel as [| fuel IH]; intros n acc Hn;
    cbn [digits_to];
    assert (Hmod : 0 <= n mod 10 <= 9)
      by (pose proof (Z.mod_pos_bound n 10); lia);
    destruct (digit_char_of (n mod 10) Hmod) as (Hdig & _ & _);
    (destruct (Z.ltb_spec0 n 10) as [Hlt | Hge];
     [ split;
       [ exists 10; intros a; cbn [digits_from]; rewrite Hdig;
         rewrite Z.mod_small by lia; f_equal; lia
       | exists (n mod 10), acc; auto ]
     | ]).
  - exfalso. change (10 ^ Z.of_nat 1) with 10 in Hn. lia.
  - assert (Hdiv : 0 <= n / 10 < 10 ^ Z.of_nat (S fuel)).
    { rewrite (Nat2Z.inj_succ (S fuel)), Z.pow_succ_r in Hn by lia.
      split; [apply Z.div_pos; lia |].
      apply Z.div_lt_upper_bound; lia. }
    destruct (IH (n / 10) (String (digit_char (n mod 10)) acc) Hdiv)
      as ((k & Hk) & Hfirst).
    split; [| exact Hfirst].
    exists (10 * k). intros a.
    change (digits_from a
              (digits_to (S fuel) (n / 10)
                 (String (digit_char (n mod 10)) acc))
            = digits_from (a * (10 * k) + n) acc).
    rewrite Hk. cbn [digits_from].
    rewrite Hdig. f_equal.
    pose proof (Z.div_mod n 10 ltac:(lia)). lia.
Qed.

Lemma clamp64_small (z : Z) :
  min_int64 <= z <= max_int64 -> clamp64 z = z.
Proof.
  unfold clamp64. intros Hz.
  destruct (Z.ltb_spec0 z min_int64); [lia |].
  destruct (Z.ltb_spec0 max_int64 z); lia.
Qed.

(** [ParseInt] reads back what [FormatInt] writes, for every [int64]. *)
Lemma ParseInt_FormatInt (i : Z) :
  min_int64 <= i <= max_int64 -> ParseInt (FormatInt i) = i.
Proof.
  intros Hi. unfold FormatInt.
  assert (Hrange : - 10 ^ Z.of_nat 20 < min_int64
                   /\ max_int64 < 10 ^ Z.of_nat 20) by (split; reflexivity).
  destruct (Z.ltb_spec0 i 0) as [Hneg | Hpos].
  - destruct (digits_to_spec 19 (- i) "") as ((k & Hk) & d & rest & E & Hd);
      [lia |].
    unfold ParseInt. cbn [Ascii.eqb Bool.eqb]. cbv iota.
    unfold unsigned_of. rewrite E. rewrite <- E. rewrite Hk.
    cbn [digits_from].
    replace (- (0 * k + - i)) with i by lia.
    now apply clamp64_small.
  - destruct (digits_to_spec 19 i "") as ((k & Hk) & d & rest & E & Hd);
      [lia |].
    destruct (digit_char_of d Hd) as (_ & Hplus & Hminus).
    unfold ParseInt. rewrite E. rewrite Hplus, Hminus.
    unfold unsigned_of. rewrite <- E. rewrite Hk.
    cbn [digits_from].
    replace (0 * k + i) with i by lia.
    now apply clamp64_small.
Qed.

(** ** Running a request *)

Section Running.
Context `{Platform}.

Lemma set_headers_same (req : request) : set_headers (headers req) req = req.
Proof. now destruct req. Qed.

Lemma buildError_built (r : Response) (w : World) :
  buildError r w = (Done (S3Error (built_Error r)), with_closed 1 w).
Proof.
  unfold buildError, built_Error, Body_Close. unfold_M.
  destruct (String.eqb (Message (xml_Decode_Error r Error_zero)) "");
    reflexivity.
Qed.

(** [run], case by case. *)
Lemma run_outcome (req : request) (resp : option Shape) (w : World) :
  run req resp w =
    match url_Parse (baseurl req) with
    | inr msg =>
        (Done (None, Some (BadEndpoint (baseurl req) msg), req, resp), w)
    | inl u =>
        match headers req !! "Content-Length" with
        | Some [] => (Panic "index out of range", w)
        | _ =>
            let req1 :=
              set_headers (delete "Content-Length" (headers req)) req in
            let w1 := with_sent (http_request u req) w in
            match wire w (length (sent w)) (http_request u req) with
            | (_, Some err) => (Done (None, Some err, req1, resp), w1)
            | (None, None) => (Panic "nil pointer dereference", w1)
            | (Some hresp, None) =>
                if negb (StatusCode hresp =? 200)
                   && negb (StatusCode hresp =? 204)
                then (Done (None, Some (S3Error (built_Error hresp)),
                            req1, resp), with_closed 2 w1)
                else
                  match resp with
                  | Some shape =>
                      (Done (Some hresp, (xml_Decode hresp shape).2, req1,
                             Some (xml_Decode hresp shape).1),
                       with_closed 1 w1)
                  | None => (Done (Some hresp, None, req1, None), w1)
                  end
            end
        end
    end.
Proof.
  unfold run, url.
  destruct (url_Parse (baseurl req)) as [u | msg]; [| reflexivity].
  unfold mbind, M_bind at 1.
  assert (Hsend : forall (len : Z) (rq : request),
    len = ContentLength (http_request u req) ->
    rq = set_headers (delete "Content-Length" (headers req)) req ->
    ('(hresp0, err) ← transport_RoundTrip
        {| ReqURL := {| Scheme := Scheme u; Host := Host u;
                        Path := path req;
                        RawQuery := Values_Encode (params req) |};
           Method := method rq; ProtoMajor := 1;
           ProtoMinor := 1; Close := true; ReqHeader := headers rq;
           ContentLength := len; ReqBody := payload rq |};
      match err, hresp0 with
      | Some err, _ => mret (None, Some err, rq, resp)
      | None, None => panic "nil pointer dereference"
      | None, Some hresp0 =>
          if negb (StatusCode hresp0 =? 200)
             && negb (StatusCode hresp0 =? 204)
          then Body_Close;; err ← buildError hresp0;
               mret (None, Some err, rq, resp)
          else
            match resp with
            | Some shape =>
                let '(shape, err) := xml_Decode hresp0 shape in
                Body_Close;; mret (Some hresp0, err, rq, Some shape)
            | None => mret (Some hresp0, None, rq, None)
            end
      end) w =
    (let req1 := set_headers (delete "Content-Length" (headers req)) req in
     let w1 := with_sent (http_request u req) w in
     match wire w (length (sent w)) (http_request u req) with
     | (_, Some err) => (Done (None, Some err, req1, resp), w1)
     | (None, None) => (Panic "nil pointer dereference", w1)
     | (Some hresp, None) =>
         if negb (StatusCode hresp =? 200) && negb (StatusCode hresp =? 204)
         then (Done (None, Some (S3Error (built_Error hresp)), req1, resp),
               with_closed 2 w1)
         else
           match resp with
           | Some shape =>
               (Done (Some hresp, (xml_Decode hresp shape).2, req1,
                      Some (xml_Decode hresp shape).1), with_closed 1 w1)
           | None => (Done (Some hresp, None, req1, None), w1)
           end
     end)).
  { intros len rq -> ->. cbv zeta.
    unfold mbind, M_bind, transport_RoundTrip at 1.
    cbn [set_headers set_signing method headers payload].
    change {| ReqURL := {| Scheme := Scheme u; Host := Host u;
                           Path := path req;
                           RawQuery := Values_Encode (params req) |};
              Method := method req; ProtoMajor := 1; ProtoMinor := 1;
              Close := true;
              ReqHeader := delete "Content-Length" (headers req);
              ContentLength := ContentLength (http_request u req);
              ReqBody := payload req |}
      with (http_request u req).
    destruct (wire w (length (sent w)) (http_request u req))
      as [[hresp0 |] [err0 |]]; try reflexivity.
    destruct (negb (StatusCode hresp0 =? 200)
              && negb (StatusCode hresp0 =? 204)).
    - unfold Body_Close at 1. cbv beta iota.
      rewrite buildError_built. reflexivity.
    - destruct resp as [shape |]; [| reflexivity].
      destruct (xml_Decode hresp0 shape) as [shape' err']. reflexivity. }
  destruct (headers req !! "Content-Length") as [[| v0 v] |] eqn:Hcl.
  - reflexivity.
  - unfold mret, M_ret at 1. cbv beta iota.
    apply Hsend; [| reflexivity].
    unfold http_request. simpl. now rewrite Hcl.
  - unfold mret, M_ret at 1. cbv beta iota.
    apply Hsend.
    + unfold http_request. simpl. now rewrite Hcl.
    + rewrite (delete_id (headers req) "Content-Length" Hcl).
      symmetry. apply set_headers_same.
Qed.


(** X11.  [run] never forwards a Content-Length header: the request it hands
    to the transport has none, carries the number parsed from the first
    value as its content length, and agrees with the headers of [req] on
    every other name; the header is gone from [req] as well afterwards. *)
Theorem run_never_forwards_Content_Length (req : request)
    (resp : option Shape) (w w' : World)
    (out : outcome (option Response * option error * request
                    * option Shape)) :
  run req resp w = (out, w') ->
  sent w' = sent w
  \/ exists q : Request,
       sent w' = q :: sent w
       /\ ReqHeader q !! "Content-Length" = None
       /\ (forall name, name <> "Content-Length" ->
             ReqHeader q !! name = headers req !! name)
       /\ ContentLength q =
            match headers req !! "Content-Length" with
            | Some (v0 :: _) => ParseInt v0
            | _ => 0
            end
       /\ (forall r e req' s, out = Done (r, e, req', s) ->
             headers req' !! "Content-Length" = None).
Proof.
  rewrite run_outcome.
  destruct (url_Parse (baseurl req)) as [u | msg];
    [| intros [= <- <-]; now left].
  assert (Hsent : forall o,
    (o, w') = (out, w') ->
    (forall r e req' s, out = Done (r, e, req', s) ->
       req' = set_headers (delete "Content-Length" (headers req)) req) ->
    sent w' = http_request u req :: sent w ->
    sent w' = sent w
    \/ exists q : Request,
         sent w' = q :: sent w
         /\ ReqHeader q !! "Content-Length" = None
         /\ (forall name, name <> "Content-Length" ->
               ReqHeader q !! name = headers req !! name)
         /\ ContentLength q =
              match headers req !! "Content-Length" with
              | Some (v0 :: _) => ParseInt v0
              | _ => 0
              end
         /\ (forall r e req' s, out = Done (r, e, req', s) ->
               headers req' !! "Content-Length" = None)).
  { intros o _ Hreq Hs. right. exists (http_request u req).
    split; [exact Hs |]. simpl.
    split; [apply lookup_delete_eq |].
    split; [intros name Hne; now apply lookup_delete_ne |].
    split; [reflexivity |].
    intros r e req' s Hout. rewrite (Hreq _ _ _ _ Hout). simpl.
    apply lookup_delete_eq. }
  destruct (headers req !! "Content-Length") as [[| v0 v] |] eqn:Hcl;
    [intros [= <- <-]; now left | |];
    cbv zeta;
    (destruct (wire w (length (sent w)) (http_request u req))
       as [[hresp |] [err |]];
     [ | destruct (negb (StatusCode hresp =? 200)
                   && negb (StatusCode hresp =? 204));
         [| destruct resp as [shape |]] | | ];
     intros [= <- <-];
     (eapply Hsent; [reflexivity | | reflexivity]);
     intros r e req' s; intros [= <- <- <- <-] || intros [=];
     reflexivity).
Qed.

(** [prepare], case by case. *)
Lemma prepare_outcome (self : S3) (req : request) (w : World) :
  prepare self req w =
    match (if negb (prepared req) then prepare_resolve self req
           else (None, req)) with
    | (Some err, req1) => (Done (Some err, req1), w)
    | (None, req1) =>
        match url_Parse (baseurl req1) with
        | inr msg => (Done (Some (BadEndpoint (baseurl req1) msg), req1), w)
        | inl u =>
            let signed :=
              sign (S3_Auth self) (method req1) (signpath req1)
                (params req1)
                (<["Date" := [Format_RFC1123 (clock w (ticks w))]]>
                   (<["Host" := [Host u]]> (headers req1))) in
            (Done (None, set_signing signed.1 signed.2 req1), with_tick w)
        end
    end.
Proof.
  unfold prepare.
  destruct (if negb (prepared req) then prepare_resolve self req
            else (None, req)) as [[err |] req1]; [reflexivity |].
  destruct (url_Parse (baseurl req1)) as [u | msg]; [| reflexivity].
  unfold_M. destruct (sign _ _ _ _ _) as [ps hs]. reflexivity.
Qed.

(** What the guarded block of [prepare] leaves alone. *)
Lemma prepare_resolve_frame (self : S3) (req : request) :
  let req1 := (prepare_resolve self req).2 in
  bucket req1 = bucket req /\ params req1 = params req
  /\ headers req1 = headers req /\ payload req1 = payload req
  /\ prepared req1 = true
  /\ method req1 = (if String.eqb (method req) "" then "GET" else method req).
Proof.
  unfold prepare_resolve.
  repeat match goal with
         | |- context [if ?b then (_, _) else _] => destruct b
         end; simpl; repeat split.
Qed.

(** [query], case by case. *)
Lemma query_outcome (self : S3) (req : request) (resp : option Shape)
    (w : World) :
  query self req resp w =
    match prepare self req w with
    | (Done (Some err, req1), w1) => (Done (Some err, req1, resp), w1)
    | (Done (None, req1), w1) =>
        match run req1 resp w1 with
        | (Done (httpResponse, err, req2, resp'), w2) =>
            (Done (err, req2, resp'),
             match resp, httpResponse with
             | None, Some _ => with_closed 1 w2
             | _, _ => w2
             end)
        | (Panic msg, w2) => (Panic msg, w2)
        | (Stuck, w2) => (Stuck, w2)
        end
    | (Panic msg, w1) => (Panic msg, w1)
    | (Stuck, w1) => (Stuck, w1)
    end.
Proof.
  unfold query. unfold mbind, M_bind at 1.
  destruct (prepare self req w) as [[[[err |] req1] | msg |] w1];
    try reflexivity.
  unfold mbind, M_bind at 1.
  destruct (run req1 resp w1)
    as [[[[[httpResponse err] req2] resp'] | msg |] w2]; try reflexivity.
  unfold mbind, M_bind, mret, M_ret, Body_Close.
  destruct resp as [shape |], httpResponse as [r |]; reflexivity.
Qed.

Lemma prepare_network_frame (self : S3) (req : request) (w : World) :
  let w' := (prepare self req w).2 in
  sent w' = sent w /\ wire w' = wire w /\ closed w' = closed w
  /\ slept w' = slept w /\ clock w' = clock w
  /\ (ticks w <= ticks w' <= S (ticks w))%nat.
Proof.
  rewrite prepare_outcome.
  destruct (if negb (prepared req) then prepare_resolve self req
            else (None, req)) as [[err |] req1]; simpl;
    [repeat split; lia |].
  destruct (url_Parse (baseurl req1)) as [u | msg]; simpl;
    repeat split; lia.
Qed.

(** X12.  A request that [prepare] has accepted has a URL: its path and
    encoded parameters on the host that was given to [sign] in the Host
    header. So [run] never fails on the base URL after a successful
    [prepare]. *)
Theorem prepared_request_has_url (self : S3) (req req' : request)
    (w w' : World) :
  prepare self req w = (Done (None, req'), w') ->
  exists u : URL,
    url_Parse (baseurl req') = inl u
    /\ url req' = inl {| Scheme := Scheme u; Host := Host u;
                         Path := path req';
                         RawQuery := Values_Encode (params req') |}
    /\ exists hs : Header,
         hs !! "Host" = Some [Host u]
         /\ (params req', headers req') =
              sign (S3_Auth self) (method req') (signpath req')
                   (params req) hs.
Proof.
  rewrite prepare_outcome.
  pose proof (prepare_resolve_frame self req) as (_ & Hps & _).
  destruct (prepared req) eqn:Hp; simpl.
  - destruct (url_Parse (baseurl req)) as [u | msg] eqn:Hu; [| discriminate].
    intros [= <- <-]. exists u. simpl. unfold url. simpl. rewrite Hu.
    split; [reflexivity |]. split; [reflexivity |].
    exists (<["Date" := [Format_RFC1123 (clock w (ticks w))]]>
              (<["Host" := [Host u]]> (headers req))).
    split; [| now destruct (sign _ _ _ _ _)].
    rewrite lookup_insert_ne by discriminate. apply lookup_insert_eq.
  - destruct (prepare_resolve self req) as [[err |] req1]; [discriminate |].
    simpl in *. rewrite <- Hps.
    destruct (url_Parse (baseurl req1)) as [u | msg] eqn:Hu; [| discriminate].
    intros [= <- <-]. exists u. simpl. unfold url. simpl. rewrite Hu.
    split; [reflexivity |]. split; [reflexivity |].
    exists (<["Date" := [Format_RFC1123 (clock w (ticks w))]]>
              (<["Host" := [Host u]]> (headers req1))).
    split; [| now destruct (sign _ _ _ _ _)].
    rewrite lookup_insert_ne by discriminate. apply lookup_insert_eq.
Qed.

(** X13.  Without a bucket the region plays no part: the path gets its
    slash, the signable path is that path, and the base URL stays what the
    request had. *)
Theorem prepare_without_bucket (self : S3) (req req' : request)
    (err : option error) (w w' : World) :
  prepared req = false ->
  bucket req = "" ->
  prepare self req w = (Done (err, req'), w') ->
  path req' = slashed (path req)
  /\ signpath req' = slashed (path req)
  /\ baseurl req' = baseurl req
  /\ forall b, err <> Some (BadBucket b).
Proof.
  intros Hp Hb. rewrite prepare_outcome. rewrite Hp. simpl.
  unfold prepare_resolve, slashed. rewrite Hb. simpl.
  destruct (HasPrefix (path req) "/"); simpl;
    (destruct (url_Parse (baseurl req)) as [u | msg];
     intros [= <- <- <-]; simpl; repeat split; discriminate).
Qed.

(** X14.  The injection guard works once: after [prepare] has refused a
    bucket name, a second call on the same request does not refuse it again.
    It goes on to sign with the base URL left at the endpoint template. *)
Theorem prepare_after_refusal (self : S3) (req req1 : request)
    (b : string) (w w1 : World) :
  prepare self req w = (Done (Some (BadBucket b), req1), w1) ->
  forall w2 : World,
    exists err2 req2 w2',
      prepare self req1 w2 = (Done (err2, req2), w2')
      /\ (forall b', err2 <> Some (BadBucket b'))
      /\ baseurl req2 = S3BucketEndpoint (S3_Region self)
      /\ (forall u, url_Parse (S3BucketEndpoint (S3_Region self)) = inl u ->
            err2 = None).
Proof.
  rewrite prepare_outcome.
  destruct (prepared req) eqn:Hp; simpl.
  { destruct (url_Parse (baseurl req)); discriminate. }
  pose proof (prepare_resolve_frame self req) as (_ & _ & _ & _ & Hp1 & _).
  destruct (prepare_resolve self req) as [[err |] req0] eqn:Hres.
  2:{ destruct (url_Parse (baseurl req0)); discriminate. }
  intros [= -> <- <-] w2. simpl in Hp1.
  assert (Hbase : baseurl req0 = S3BucketEndpoint (S3_Region self)).
  { revert Hres. unfold prepare_resolve.
    destruct (negb (String.eqb (bucket req) "")); [| discriminate].
    destruct (String.eqb (S3BucketEndpoint (S3_Region self)) "");
      [discriminate |].
    destruct (0 <=? IndexAny (bucket req) "/:@"); [| discriminate].
    intros [= _ <-]. reflexivity. }
  rewrite prepare_outcome, Hp1. simpl. rewrite Hbase.
  destruct (url_Parse (S3BucketEndpoint (S3_Region self))) as [u | msg].
  - do 3 eexists. split; [reflexivity |]. simpl.
    split; [discriminate |]. split; [exact Hbase | reflexivity].
  - do 3 eexists. split; [reflexivity |].
    split; [discriminate |]. split; [exact Hbase | discriminate].
Qed.

End Running.

(** ** Queries and uploads *)

Section Queries.
Context `{Platform}.

(** X15.  Bodies are closed exactly: a query without result shape closes the
    body of a 200/204 answer once; for any other status the body is closed
    before the error document is decoded from it, and once more after. *)
Theorem query_closes_body (self : S3) (req : request) (w w' : World)
    (hreq : Request) (hresp : Response)
    (out : outcome (option error * request * option Shape)) :
  query self req None w = (out, w') ->
  sent w' = hreq :: sent w ->
  wire w (length (sent w)) hreq = (Some hresp, None) ->
  (StatusCode hresp = 200 \/ StatusCode hresp = 204 ->
   (exists req', out = Done (None, req', None))
   /\ closed w' = S (closed w))
  /\ (StatusCode hresp <> 200 -> StatusCode hresp <> 204 ->
      (exists req', out = Done (Some (S3Error (built_Error hresp)), req',
                                None))
      /\ closed w' = S (S (closed w))).
Proof.
  rewrite query_outcome.
  pose proof (prepare_network_frame self req w)
    as (Hs1 & Hw1 & Hc1 & _).
  destruct (prepare self req w) as [[[[err |] req1] | msg |] w1];
    simpl in Hs1, Hw1, Hc1;
    try (intros [= <- <-] Hsent; exfalso; rewrite Hs1 in Hsent;
         symmetry in Hsent; now apply cons_neq_self in Hsent).
  rewrite run_outcome.
  destruct (url_Parse (baseurl req1)) as [u | msg].
  2:{ intros [= <- <-] Hsent; exfalso; rewrite Hs1 in Hsent;
        symmetry in Hsent; now apply cons_neq_self in Hsent. }
  assert (Hgo :
    (let req2 := set_headers (delete "Content-Length" (headers req1)) req1 in
     let w2 := with_sent (http_request u req1) w1 in
     match
       match wire w1 (length (sent w1)) (http_request u req1) with
       | (_, Some err) => (Done (None, Some err, req2, None), w2)
       | (None, None) => (Panic "nil pointer dereference", w2)
       | (Some hresp0, None) =>
           if negb (StatusCode hresp0 =? 200)
              && negb (StatusCode hresp0 =? 204)
           then (Done (None, Some (S3Error (built_Error hresp0)), req2,
                       None), with_closed 2 w2)
           else (Done (Some hresp0, None, req2, None), w2)
       end
     with
     | (Done (httpResponse, err, req3, resp'), w3) =>
         (Done (err, req3, resp'),
          match httpResponse with
          | Some _ => with_closed 1 w3
          | None => w3
          end)
     | (Panic msg, w3) => (Panic msg, w3)
     | (Stuck, w3) => (Stuck, w3)
     end) = (out, w') ->
    sent w' = hreq :: sent w ->
    wire w (length (sent w)) hreq = (Some hresp, None) ->
    (StatusCode hresp = 200 \/ StatusCode hresp = 204 ->
     (exists req', out = Done (None, req', None))
     /\ closed w' = S (closed w))
    /\ (StatusCode hresp <> 200 -> StatusCode hresp <> 204 ->
        (exists req', out = Done (Some (S3Error (built_Error hresp)), req',
                                  None))
        /\ closed w' = S (S (closed w)))).
  { cbv zeta. rewrite Hw1, Hs1.
    destruct (wire w (length (sent w)) (http_request u req1))
      as [[hresp0 |] [err0 |]] eqn:Hwire;
      try (intros [= <- <-] Hsent Hans; simpl in Hsent; rewrite Hs1 in Hsent;
           injection Hsent as <-; congruence).
    destruct (Z.eqb_spec (StatusCode hresp0) 200) as [H200 | H200];
      destruct (Z.eqb_spec (StatusCode hresp0) 204) as [H204 | H204];
      simpl; intros [= <- <-] Hsent Hans; simpl in Hsent;
      rewrite Hs1 in Hsent; injection Hsent as <-;
      rewrite Hwire in Hans; injection Hans as <-;
      (split; [intros Hok | intros Hn200 Hn204]); try lia;
      (split; [eauto |]); simpl; rewrite Hc1; reflexivity. }
  destruct (headers req1 !! "Content-Length") as [[| v0 v] |];
    [ intros [= <- <-] Hsent; exfalso; rewrite Hs1 in Hsent;
      symmetry in Hsent; now apply cons_neq_self in Hsent
    | exact Hgo | exact Hgo ].
Qed.

(** X16.  The length given to [PutReader] arrives as the content length of
    the HTTP request, not as a header, together with the body and the method
    PUT, whenever a request is sent at all; [sign] is assumed to leave the
    Content-Length header as it finds it. *)
Theorem PutReader_sends_length (self : Bucket) (path r : string)
    (length : Z) (contType perm : string) (w w' : World)
    (out : outcome (option error)) :
  (forall a m p ps hs,
      (sign a m p ps hs).2 !! "Content-Length" = hs !! "Content-Length") ->
  min_int64 <= length <= max_int64 ->
  PutReader self path r length contType perm w = (out, w') ->
  sent w' = sent w
  \/ exists q : Request,
       sent w' = q :: sent w
       /\ ContentLength q = length
       /\ ReqHeader q !! "Content-Length" = None
       /\ ReqBody q = Some r
       /\ Method q = "PUT".
Proof.
  intros Hsign Hlen. unfold PutReader. cbv zeta.
  unfold mbind, M_bind at 1. rewrite query_outcome.
  set (req := {| method := "PUT"; bucket := Bucket_Name self; path := path;
                 signpath := ""; params := ∅;
                 headers := <["x-amz-acl" := [perm]]>
                              (<["Content-Type" := [contType]]>
                                 (<["Content-Length" :=
                                      [FormatInt length]]> ∅));
                 baseurl := ""; payload := Some r; prepared := false |}).
  pose proof (prepare_network_frame (Bucket_S3 self) req w) as (Hs1 & _).
  rewrite prepare_outcome in Hs1 |- *.
  pose proof (prepare_resolve_frame (Bucket_S3 self) req)
    as (_ & _ & Hh & Hpay & _ & Hm).
  change (negb (prepared req)) with true in *. cbv iota in *.
  destruct (prepare_resolve (Bucket_S3 self) req) as [[err |] req1];
    simpl in Hh, Hpay, Hm, Hs1.
  { intros [= <- <-]. now left. }
  destruct (url_Parse (baseurl req1)) as [u | msg] eqn:Hu.
  2:{ intros [= <- <-]. now left. }
  cbv beta iota zeta.
  set (signed := sign (S3_Auth (Bucket_S3 self)) (method req1)
                   (signpath req1) (params req1)
                   (<["Date" := [Format_RFC1123 (clock w (ticks w))]]>
                      (<["Host" := [Host u]]> (headers req1)))).
  set (req2 := set_signing signed.1 signed.2 req1).
  assert (Hcl : headers req2 !! "Content-Length" = Some [FormatInt length]).
  { subst req2 signed. simpl. rewrite Hsign.
    rewrite !lookup_insert_ne by discriminate. rewrite Hh. subst req. simpl.
    rewrite !lookup_insert_ne by discriminate. apply lookup_insert_eq. }
  rewrite run_outcome.
  change (baseurl req2) with (baseurl req1). rewrite Hu, Hcl. cbv zeta.
  assert (Hq : ContentLength (http_request u req2) = length
               /\ ReqHeader (http_request u req2) !! "Content-Length" = None
               /\ ReqBody (http_request u req2) = Some r
               /\ Method (http_request u req2) = "PUT").
  { unfold http_request. cbn [ContentLength ReqHeader ReqBody Method].
    rewrite Hcl.
    split; [now apply ParseInt_FormatInt |].
    split; [apply lookup_delete_eq |].
    change (payload req2) with (payload req1).
    change (method req2) with (method req1).
    split; [rewrite Hpay; reflexivity |].
    rewrite Hm. reflexivity. }
  destruct (wire (with_tick w) (List.length (sent (with_tick w)))
              (http_request u req2)) as [[hresp |] [err0 |]];
    [ | destruct (negb (StatusCode hresp =? 200)
                  && negb (StatusCode hresp =? 204)) | | ];
    unfold mret, M_ret; intros [= <- <-]; right;
    exists (http_request u req2); (split; [reflexivity | exact Hq]).
Qed.

End Queries.

(** ** Headers of an upload, and the table of regions *)

(** X17.  After the loop that copies the custom headers over the defaults, a
    name has its custom value if there is one and its default otherwise. *)
Theorem override_lookup (customHeaders defaults : Header) (name : string) :
  override customHeaders defaults !! name =
    match customHeaders !! name with
    | Some value => Some value
    | None => defaults !! name
    end.
Proof.
  unfold override.
  apply (map_fold_weak_ind
           (fun (result : Header) (custom : Header) =>
              result !! name =
                match custom !! name with
                | Some value => Some value
                | None => defaults !! name
                end)).
  - now rewrite lookup_empty.
  - intros key value custom result Hfresh IH.
    destruct (decide (key = name)) as [-> | Hne].
    + now rewrite !lookup_insert_eq.
    + now rewrite !lookup_insert_ne.
Qed.

(** The table of regions, entry by entry. *)
Lemma Regions_path_style (name : string) (r : Region) :
  Regions !! name = Some r ->
  Name r = name /\ S3BucketEndpoint r = "".
Proof.
  intros Hr. unfold Regions in Hr.
  apply elem_of_list_to_map_2 in Hr.
  repeat (apply elem_of_cons in Hr as [[= -> ->] | Hr];
          [split; reflexivity |]).
  now apply elem_of_nil in Hr.
Qed.

Section RegionTable.
Context `{Platform}.

(** X18.  Every region of the table is filed under its own name and has no
    bucket endpoint template, so buckets are addressed by path: preparing a
    fresh request in such a region never refuses a bucket name, and puts the
    bucket in front of the path on the service endpoint. *)
Theorem Regions_address_by_path (name : string) (self : S3)
    (req req' : request) (err : option error) (w w' : World) :
  Regions !! name = Some (S3_Region self) ->
  prepared req = false ->
  bucket req <> "" ->
  prepare self req w = (Done (err, req'), w') ->
  Name (S3_Region self) = name
  /\ (forall b, err <> Some (BadBucket b))
  /\ path req' = "/" +:+ bucket req +:+ slashed (path req)
  /\ signpath req' = path req'
  /\ baseurl req' = S3Endpoint (S3_Region self).
Proof.
  intros Hr Hp Hb.
  destruct (Regions_path_style name (S3_Region self) Hr) as [Hname Hpath].
  rewrite prepare_outcome, Hp. simpl.
  unfold prepare_resolve, slashed. rewrite Hpath.
  destruct (String.eqb_spec (bucket req) "") as [| _]; [contradiction |].
  simpl.
  destruct (HasPrefix (path req) "/"); simpl;
    (destruct (url_Parse (S3Endpoint (S3_Region self))) as [u | msg];
     intros [= <- <- <-]; simpl; repeat split; auto; discriminate).
Qed.

End RegionTable.

(** ** The attempt loops of the bucket operations *)

Lemma Next_network_frame (a a' : Attempt) (b : bool) (w w' : World) :
  Next a w = (Done (b, a'), w') ->
  sent w' = sent w /\ wire w' = wire w /\ closed w' = closed w
  /\ clock w' = clock w /\ (ticks w < ticks w')%nat
  /\ strategy a' = strategy a /\ end_ a' = end_ a
  /\ (b = false -> a' = a /\ force a = false /\ Min (strategy a) <= count a)
  /\ (b = true -> force a' = false /\ count a' = wrap64 (count a + 1)).
Proof.
  unfold Next. unfold_M.
  destruct (force a) eqn:Hf; simpl.
  - destruct ((0 <? nextSleep a (clock w (ticks w))) && (0 <? count a));
      simpl; intros [= <- <- <-]; simpl; repeat split; auto; try lia;
      discriminate.
  - destruct (negb (Time_Before _ _)); simpl.
    + destruct (Z.leb_spec0 (Min (strategy a)) (count a)).
      * intros [= <- <- <-]; simpl; repeat split; auto; discriminate.
      * destruct ((0 <? nextSleep a (clock w (ticks w))) && (0 <? count a));
          simpl; intros [= <- <- <-]; simpl; repeat split; auto; try lia;
          discriminate.
    + destruct ((0 <? nextSleep a (clock w (ticks w))) && (0 <? count a));
        simpl; intros [= <- <- <-]; simpl; repeat split; auto; try lia;
        discriminate.
Qed.

Lemma HasNext_network_frame (a a' : Attempt) (b : bool) (w w' : World) :
  HasNext a w = (Done (b, a'), w') -> sent w' = sent w.
Proof.
  unfold HasNext. unfold_M.
  destruct (force a || (count a <? Min (strategy a))).
  - now intros [= <- <- <-].
  - destruct (Time_Before _ _); now intros [= <- <- <-].
Qed.

Section BucketLoops.
Context `{Platform}.

Lemma query_frame (self : S3) (req : request) (resp : option Shape)
    (w : World) :
  (query self req resp w).1 <> Stuck
  /\ clock (query self req resp w).2 = clock w
  /\ (ticks w <= ticks (query self req resp w).2)%nat.
Proof.
  rewrite query_outcome.
  pose proof (prepare_network_frame self req w) as (_ & _ & _ & _ & Hc & Ht).
  destruct (prepare_returns self req w) as (err & req1 & w1 & E & _).
  rewrite E in *. simpl in Hc, Ht.
  destruct err as [err |]; [simpl; repeat split; [discriminate | auto | lia] |].
  destruct (run req1 resp w1) as [[[[[r e] req2] s] | msg |] w2] eqn:Erun;
    destruct (run_frame _ _ _ _ _ Erun) as (Hns & Hc2 & Ht2);
    try contradiction.
  - destruct resp, r; simpl; repeat split; try discriminate; try congruence;
      lia.
  - simpl. repeat split; try discriminate; try congruence; lia.
Qed.

(** Under a clock that moves on, the loop of [DelBucket] comes to an
    end. *)
Lemma DelBucket_loop_ends (n : nat) :
  forall (self : S3) (req : request) (a : Attempt) (w : World)
         (err : option error),
    advancing w ->
    force a = false ->
    0 <= count a ->
    count a + Z.of_nat n + 1 < 2 ^ 63 ->
    Min (strategy a) - count a <= Z.of_nat n ->
    end_ a - clock w (ticks w) <= Z.of_nat n ->
    (DelBucket_loop (S n) self req a err w).1 <> Stuck.
Proof.
  induction n as [| n IH]; intros self req a w err Hadv Hf Hc0 Hcmax Hmin Hend.
  - simpl. unfold mbind, M_bind at 1.
    destruct (Next_stops a w Hf ltac:(lia) ltac:(lia)) as (w1 & ->).
    discriminate.
  - change (DelBucket_loop (S (S n)) self req a err w) with
      (('(more, attempt) ← Next a;
        if more : bool then
          '(err, req, _) ← query self req None;
          if negb (shouldRetry err) then mret err
          else DelBucket_loop (S n) self req attempt err
        else mret err) w).
    unfold mbind, M_bind at 1.
    destruct (Next_returns a w) as (b & a1 & w1 & E). rewrite E.
    destruct (Next_network_frame _ _ _ _ _ E)
      as (_ & _ & _ & Hck1 & Ht1 & Hs1 & He1 & _ & Hyes).
    destruct b; [| discriminate].
    destruct (Hyes eq_refl) as [Hf1 Hc1].
    rewrite wrap64_small in Hc1 by lia.
    unfold mbind, M_bind at 1.
    destruct (query_frame self req None w1) as (Hns & Hck2 & Ht2).
    destruct (query self req None w1) as [[[[e2 req2] s] | msg |] w2];
      [| discriminate | contradiction].
    simpl in Hck2, Ht2.
    destruct (shouldRetry e2); simpl; [| discriminate].
    apply IH; auto.
    + intros i. rewrite Hck2, Hck1. apply Hadv.
    + lia.
    + lia.
    + rewrite Hs1, Hc1. lia.
    + rewrite He1, Hck2, Hck1.
      pose proof (advancing_le w Hadv (ticks w) (ticks w2) ltac:(lia)).
      lia.
Qed.

Lemma DelBucket_ends (self : Bucket) (w : World) :
  advancing w ->
  exists fuel : nat, (DelBucket fuel self w).1 <> Stuck.
Proof.
  intros Hadv.
  exists (S (S (Z.to_nat (Total attempts)))).
  unfold DelBucket. cbv zeta. unfold mbind, M_bind at 1.
  destruct (Start_returns attempts w) as (w1 & ES & Hck1). rewrite ES.
  assert (Ht1 : ticks w1 = S (ticks w)).
  { unfold Start in ES. unfold_M. now injection ES as <-. }
  assert (HT : Total attempts = 5000000000) by reflexivity.
  assert (HM : Min attempts = 5) by reflexivity.
  match goal with
  | |- (DelBucket_loop _ ?s ?r ?a ?e w1).1 <> Stuck =>
      change (DelBucket_loop (S (S (Z.to_nat (Total attempts)))) s r a e w1)
        with
        (('(more, attempt) ← Next a;
          if more : bool then
            '(err, req, _) ← query s r None;
            if negb (shouldRetry err) then mret err
            else DelBucket_loop (S (Z.to_nat (Total attempts))) s req
                   attempt err
          else mret e) w1);
      unfold mbind, M_bind at 1;
      destruct (Next_returns a w1) as (b & a1 & w2 & E); rewrite E;
      destruct (Next_network_frame _ _ _ _ _ E)
        as (_ & _ & _ & Hck2 & Ht2 & Hs2 & He2 & _ & Hyes)
  end.
  destruct b; [| discriminate].
  destruct (Hyes eq_refl) as [Hf2 Hc2]. simpl in Hs2, He2, Hc2.
  unfold mbind, M_bind at 1.
  match goal with
  | |- context [query ?s ?r None w2] =>
      destruct (query_frame s r None w2) as (Hns & Hck3 & Ht3);
      destruct (query s r None w2) as [[[[e3 req3] sh] | msg |] w3];
      [| discriminate | contradiction]
  end.
  simpl in Hck3, Ht3.
  destruct (shouldRetry e3); cbn [negb];
    [| unfold mret, M_ret; discriminate].
  apply DelBucket_loop_ends; auto.
  - intros i. rewrite Hck3, Hck2, Hck1. apply Hadv.
  - rewrite Hc2. rewrite wrap64_small; lia.
  - rewrite Hc2, wrap64_small by lia. rewrite Z2Nat.id by lia. lia.
  - rewrite Hs2, Hc2, wrap64_small by lia. rewrite Z2Nat.id by lia. lia.
  - rewrite He2, Hck3, Hck2, Hck1. rewrite Z2Nat.id by lia.
    pose proof (advancing_le w Hadv (ticks w) (ticks w3) ltac:(lia)).
    change (5 * Second) with 5000000000. lia.
Qed.

End BucketLoops.

Section ByPath.
Context `{Platform}.
Variable self : S3.
Variable u : URL.
Hypothesis Hstyle : S3BucketEndpoint (S3_Region self) = "".
Hypothesis Hurl : url_Parse (S3Endpoint (S3_Region self)) = inl u.
Hypothesis Hsign : forall a m p ps hs,
  (sign a m p ps hs).2 !! "Content-Length" = hs !! "Content-Length".

(** One [query] of a request that is ready: it is signed at the current
    time and sent, and the answer decides the result. *)
Lemma query_by_path (req : request) (w : World) :
  ready self req ->
  exists (req1 : request) (q : Request),
    ready self req1 /\ prepared req1 = true
    /\ Method q = (if prepared req then method req
                   else if String.eqb (method req) "" then "GET"
                        else method req)
    /\ Path (ReqURL q) = (if prepared req then path req
                          else "/" +:+ bucket req +:+ slashed (path req))
    /\ query self req None w =
         match wire w (length (sent w)) q with
         | (_, Some e) =>
             (Done (Some e, req1, None), with_sent q (with_tick w))
         | (None, None) =>
             (Panic "nil pointer dereference", with_sent q (with_tick w))
         | (Some r, None) =>
             if negb (StatusCode r =? 200) && negb (StatusCode r =? 204)
             then (Done (Some (S3Error (built_Error r)), req1, None),
                   with_closed 2 (with_sent q (with_tick w)))
             else (Done (None, req1, None),
                   with_closed 1 (with_sent q (with_tick w)))
         end.
Proof.
  intros (Hcl & Hstate).
  assert (Hgo : forall r0 : request,
    prepared r0 = true -> baseurl r0 = S3Endpoint (S3_Region self) ->
    headers r0 !! "Content-Length" = None ->
    exists (req1 : request) (q : Request),
      ready self req1 /\ prepared req1 = true
      /\ Method q = method r0 /\ Path (ReqURL q) = path r0
      /\ match prepare self r0 w with
         | (Done (Some err, req1), w1) => (Done (Some err, req1, None), w1)
         | (Done (None, req1), w1) =>
             match run req1 None w1 with
             | (Done (httpResponse, err, req2, resp'), w2) =>
                 (Done (err, req2, resp'),
                  match httpResponse with
                  | Some _ => with_closed 1 w2
                  | None => w2
                  end)
             | (Panic msg, w2) => (Panic msg, w2)
             | (Stuck, w2) => (Stuck, w2)
             end
         | (Panic msg, w1) => (Panic msg, w1)
         | (Stuck, w1) => (Stuck, w1)
         end =
         match wire w (length (sent w)) q with
         | (_, Some e) =>
             (Done (Some e, req1, None), with_sent q (with_tick w))
         | (None, None) =>
             (Panic "nil pointer dereference", with_sent q (with_tick w))
         | (Some r, None) =>
             if negb (StatusCode r =? 200) && negb (StatusCode r =? 204)
             then (Done (Some (S3Error (built_Error r)), req1, None),
                   with_closed 2 (with_sent q (with_tick w)))
             else (Done (None, req1, None),
                   with_closed 1 (with_sent q (with_tick w)))
         end).
  { intros r0 Hp Hbase Hcl0.
    rewrite prepare_outcome, Hp. cbn [negb]. cbv iota.
    rewrite Hbase, Hurl. cbv zeta.
    set (signed := sign (S3_Auth self) (method r0) (signpath r0) (params r0)
                     (<["Date" := [Format_RFC1123 (clock w (ticks w))]]>
                        (<["Host" := [Host u]]> (headers r0)))).
    set (r1 := set_signing signed.1 signed.2 r0).
    assert (Hcl1 : headers r1 !! "Content-Length" = None).
    { subst r1 signed. simpl. rewrite Hsign.
      now rewrite !lookup_insert_ne by discriminate. }
    rewrite run_outcome.
    change (baseurl r1) with (baseurl r0). rewrite Hbase, Hurl, Hcl1.
    cbv zeta.
    exists (set_headers (delete "Content-Length" (headers r1)) r1),
           (http_request u r1).
    split.
    { split; [apply lookup_delete_eq |]. left. simpl. auto. }
    split; [exact Hp |]. split; [reflexivity |]. split; [reflexivity |].
    change (wire (with_tick w)) with (wire w).
    change (sent (with_tick w)) with (sent w).
    destruct (wire w (length (sent w)) (http_request u r1))
      as [[r |] [e |]]; try reflexivity.
    destruct (negb (StatusCode r =? 200) && negb (StatusCode r =? 204));
      reflexivity. }
  rewrite query_outcome.
  destruct Hstate as [[Hp Hbase] | [Hp Hb]].
  - rewrite Hp. now apply Hgo.
  - rewrite Hp.
    pose proof (prepare_resolve_frame self req)
      as (_ & _ & Hh & _ & Hp1 & Hm).
    assert (Hres : (prepare_resolve self req).1 = None
                   /\ baseurl (prepare_resolve self req).2
                      = S3Endpoint (S3_Region self)
                   /\ path (prepare_resolve self req).2
                      = "/" +:+ bucket req +:+ slashed (path req)).
    { unfold prepare_resolve, slashed. rewrite Hstyle.
      destruct (String.eqb_spec (bucket req) ""); [contradiction |].
      simpl. destruct (HasPrefix (path req) "/"); simpl; auto. }
    destruct Hres as (Hnone & Hbase & Hpath).
    cbv zeta in Hh, Hp1, Hm.
    destruct (Hgo (prepare_resolve self req).2 Hp1 Hbase
                ltac:(now rewrite Hh))
      as (req1 & q & Hready & Hprep & Hmq & Hpq & E).
    exists req1, q. split; [exact Hready |]. split; [exact Hprep |].
    split; [now rewrite Hmq, Hm |]. split; [now rewrite Hpq, Hpath |].
    rewrite <- E. rewrite (prepare_outcome self req), Hp.
    rewrite (prepare_outcome self (prepare_resolve self req).2), Hp1.
    cbn [negb]. cbv iota.
    destruct (prepare_resolve self req) as [[e |] r0]; simpl in *;
      [discriminate | reflexivity].
Qed.


Lemma owed_nonneg (n : Z) : 0 <= owed n.
Proof.
  unfold owed.
  destruct (Z.leb_spec0 0 n), (Z.ltb_spec0 n 5); simpl; lia.
Qed.

Lemma owed_step (n : Z) : owed n <= 1 + owed (wrap64 (n + 1)).
Proof.
  pose proof (owed_nonneg (wrap64 (n + 1))) as Hnn.
  unfold owed at 1.
  destruct (Z.leb_spec0 0 n), (Z.ltb_spec0 n 5); simpl; try lia.
  rewrite wrap64_small in * by lia. unfold owed.
  destruct (Z.leb_spec0 0 (n + 1)), (Z.ltb_spec0 (n + 1) 5); simpl; lia.
Qed.

(** While the server only gives answers that are worth a retry, the loop
    of [DelBucket] is left only when the minimum of attempts has been
    made, and with one of those answers. *)
Lemma DelBucket_loop_owes (fuel : nat) :
  forall (req : request) (a : Attempt) (w w' : World)
         (err : option error) (out : outcome (option error)),
    strategy a = attempts ->
    ready self req ->
    (forall i q, exists e,
        wire w i q = (None, Some e) /\ shouldRetry (Some e) = true) ->
    DelBucket_loop fuel self req a err w = (out, w') ->
    out <> Stuck ->
    Z.of_nat (length (sent w)) + owed (count a)
      <= Z.of_nat (length (sent w'))
    /\ ((out = Done err /\ sent w' = sent w)
        \/ exists e, out = Done (Some e) /\ shouldRetry (Some e) = true).
Proof.
  induction fuel as [| fuel IH];
    intros req a w w' err out Hs Hready Hfail E Hns.
  - simpl in E. injection E as <- <-. contradiction.
  - simpl in E. unfold mbind, M_bind at 1 in E.
    destruct (Next_returns a w) as (b & a1 & w1 & EN). rewrite EN in E.
    destruct (Next_network_frame _ _ _ _ _ EN)
      as (Hsent1 & Hwire1 & _ & _ & _ & Hs1 & _ & Hno & Hyes).
    destruct b.
    + unfold mbind, M_bind at 1 in E.
      destruct (query_by_path req w1 Hready)
        as (req1 & q & Hready1 & _ & _ & _ & EQ).
      rewrite EQ in E. rewrite Hwire1, Hsent1 in E.
      destruct (Hfail (length (sent w)) q) as (e & Hw & Hre).
      rewrite Hw in E. rewrite Hre in E. simpl in E.
      destruct (Hyes eq_refl) as [_ Hc1].
      destruct (IH req1 a1 (with_sent q (with_tick w1)) w' (Some e) out
                  ltac:(congruence) Hready1
                  ltac:(simpl; rewrite Hwire1; exact Hfail) E Hns)
        as (Hlen & Hout).
      simpl in Hlen. rewrite Hsent1 in Hlen. rewrite Hc1 in Hlen.
      pose proof (owed_step (count a)).
      split; [lia |]. right.
      destruct Hout as [[-> _] | Hout]; eauto.
    + unfold mret, M_ret in E. injection E as <- <-.
      destruct (Hno eq_refl) as (_ & _ & Hmin).
      rewrite Hs in Hmin. simpl in Hmin.
      split; [| left; auto]. rewrite Hsent1. unfold owed.
      destruct (Z.ltb_spec0 (count a) 5); [lia |].
      rewrite andb_false_r. lia.
Qed.

End ByPath.

Section DeleteBucket.
Context `{Platform}.

(** X19.  [DelBucket] gives a failing server its five attempts: in a region
    addressed by path, when every answer is an error worth a retry, the call
    does not return before five requests have been sent, and what it returns
    is such an error. It does return, under a clock that moves on. *)
Theorem DelBucket_at_least_five (self : S3) (u : URL) (name : string)
    (w : World) :
  S3BucketEndpoint (S3_Region self) = "" ->
  url_Parse (S3Endpoint (S3_Region self)) = inl u ->
  (forall a m p ps hs,
      (sign a m p ps hs).2 !! "Content-Length" = hs !! "Content-Length") ->
  name <> "" ->
  (forall i q, exists e,
      wire w i q = (None, Some e) /\ shouldRetry (Some e) = true) ->
  (forall (fuel : nat) (out : outcome (option error)) (w' : World),
      DelBucket fuel {| Bucket_S3 := self; Bucket_Name := name |} w
      = (out, w') ->
      out <> Stuck ->
      (5 + length (sent w) <= length (sent w'))%nat
      /\ exists e, out = Done (Some e) /\ shouldRetry (Some e) = true)
  /\ (advancing w ->
      exists fuel : nat,
        (DelBucket fuel {| Bucket_S3 := self; Bucket_Name := name |} w).1
        <> Stuck).
Proof.
  intros Hstyle Hurl Hsign Hname Hfail. split; [| apply DelBucket_ends].
  intros fuel out w' E Hns.
  unfold DelBucket in E. cbv zeta in E. unfold mbind, M_bind at 1 in E.
  destruct (Start_returns attempts w) as (w1 & ES & _). rewrite ES in E.
  assert (Hw1 : sent w1 = sent w /\ wire w1 = wire w).
  { unfold Start in ES. unfold_M. injection ES as <-. auto. }
  destruct Hw1 as [Hsent1 Hwire1].
  cbn [Bucket_S3 Bucket_Name] in E.
  match type of E with
  | DelBucket_loop _ _ ?rq ?a _ _ = _ =>
      destruct (DelBucket_loop_owes self u Hstyle Hurl Hsign fuel
                  rq a w1 w' None out) as (Hlen & Hout);
      [ reflexivity
      | split; [apply lookup_empty | right; split;
                                       [reflexivity | exact Hname]]
      | rewrite Hwire1; exact Hfail
      | exact E
      | exact Hns
      | ]
  end.
  simpl in Hlen. rewrite Hsent1 in Hlen.
  change (owed 0) with 5 in Hlen.
  split; [lia |].
  destruct Hout as [[_ Hsame] | Hout]; [| exact Hout].
  rewrite Hsame, Hsent1 in Hlen. lia.
Qed.

Lemma Next_first_no_sleep (a a' : Attempt) (b : bool) (w w' : World) :
  count a <= 0 -> Next a w = (Done (b, a'), w') -> slept w' = slept w.
Proof.
  intros Hc. unfold Next. unfold_M.
  destruct (negb (force a) && _ && _); [now intros [= <- <- <-] |].
  destruct (Z.ltb_spec0 0 (count a)); [lia |].
  rewrite andb_false_r. simpl. now intros [= <- <- <-].
Qed.

(** X20.  A bucket that is deleted at the first attempt costs one request, a
    DELETE of "/" + name + "/", whose body is closed once; nothing is waited
    for. *)
Theorem DelBucket_first_success (self : S3) (u : URL) (name : string)
    (fuel : nat) (w : World) (r : Response) :
  S3BucketEndpoint (S3_Region self) = "" ->
  url_Parse (S3Endpoint (S3_Region self)) = inl u ->
  (forall a m p ps hs,
      (sign a m p ps hs).2 !! "Content-Length" = hs !! "Content-Length") ->
  name <> "" ->
  (forall q, wire w (length (sent w)) q = (Some r, None)) ->
  StatusCode r = 200 \/ StatusCode r = 204 ->
  exists (q : Request) (w' : World),
    DelBucket (S fuel) {| Bucket_S3 := self; Bucket_Name := name |} w
    = (Done None, w')
    /\ sent w' = q :: sent w
    /\ Method q = "DELETE"
    /\ Path (ReqURL q) = "/" +:+ name +:+ "/"
    /\ closed w' = S (closed w)
    /\ slept w' = slept w.
Proof.
  intros Hstyle Hurl Hsign Hname Hwire Hok.
  unfold DelBucket. cbv zeta. unfold mbind, M_bind at 1.
  destruct (Start_returns attempts w) as (w1 & ES & _). rewrite ES.
  assert (Hw1 : sent w1 = sent w /\ wire w1 = wire w
                /\ closed w1 = closed w /\ slept w1 = slept w).
  { unfold Start in ES. unfold_M. injection ES as <-. auto. }
  destruct Hw1 as (Hsent1 & Hwire1 & Hclosed1 & Hslept1).
  cbn [DelBucket_loop Bucket_S3 Bucket_Name].
  unfold mbind, M_bind at 1.
  match goal with
  | |- context [Next ?a w1] =>
      destruct (Next_proceeds a w1 (or_introl eq_refl))
        as (now' & w2 & EN & _);
      pose proof (Next_network_frame _ _ _ _ _ EN)
        as (Hsent2 & Hwire2 & Hclosed2 & _);
      assert (Hslept2 : slept w2 = slept w1)
        by (apply (Next_first_no_sleep a _ _ w1 w2) in EN;
            [exact EN | simpl; lia]);
      rewrite EN
  end.
  cbv beta iota. unfold mbind, M_bind at 1.
  match goal with
  | |- context [query self ?rq None w2] =>
      destruct (query_by_path self u Hstyle Hurl Hsign rq w2)
        as (req1 & q & _ & _ & Hm & Hp & EQ);
      [split; [apply lookup_empty | right; split;
                                     [reflexivity | exact Hname]] |]
  end.
  rewrite EQ. rewrite Hwire2, Hwire1, Hsent2, Hsent1, Hwire.
  assert (Hst : negb (StatusCode r =? 200) && negb (StatusCode r =? 204)
                = false).
  { destruct Hok as [-> | ->]; reflexivity. }
  rewrite Hst. cbv beta iota. simpl shouldRetry. cbn [negb].
  exists q. eexists. split; [reflexivity |]. simpl.
  rewrite Hsent2, Hsent1, Hclosed2, Hclosed1, Hslept2, Hslept1.
  repeat split; auto.
Qed.

End DeleteBucket.

Section MoreLoops.
Context `{Platform}.

(** X21.  A bucket name that the injection guard refuses ends [DelBucket] at
    once: the error is not retried, nothing is sent, nothing is waited for. *)
Theorem DelBucket_bad_bucket (self : S3) (name : string) (fuel : nat)
    (w : World) :
  S3BucketEndpoint (S3_Region self) <> "" ->
  (exists c, In c (list_ascii_of_string name)
             /\ (c = "/" \/ c = ":" \/ c = "@")%char) ->
  exists w' : World,
    DelBucket (S fuel) {| Bucket_S3 := self; Bucket_Name := name |} w
    = (Done (Some (BadBucket name)), w')
    /\ sent w' = sent w /\ slept w' = slept w /\ closed w' = closed w.
Proof.
  intros Hhost (c & Hin & Hc).
  assert (Hidx : 0 <= IndexAny name "/:@").
  { apply IndexAny_from_found; [lia |]. exists c. split; [exact Hin |].
    destruct Hc as [-> | [-> | ->]]; reflexivity. }
  assert (Hname : name <> "").
  { intros ->. contradiction. }
  unfold DelBucket. cbv zeta. unfold mbind, M_bind at 1.
  destruct (Start_returns attempts w) as (w1 & ES & _). rewrite ES.
  assert (Hw1 : sent w1 = sent w /\ closed w1 = closed w
                /\ slept w1 = slept w).
  { unfold Start in ES. unfold_M. injection ES as <-. auto. }
  destruct Hw1 as (Hsent1 & Hclosed1 & Hslept1).
  cbn [DelBucket_loop Bucket_S3 Bucket_Name].
  unfold mbind, M_bind at 1.
  match goal with
  | |- context [Next ?a w1] =>
      destruct (Next_proceeds a w1 (or_introl eq_refl))
        as (now' & w2 & EN & _);
      pose proof (Next_network_frame _ _ _ _ _ EN)
        as (Hsent2 & _ & Hclosed2 & _);
      assert (Hslept2 : slept w2 = slept w1)
        by (apply (Next_first_no_sleep a _ _ w1 w2) in EN;
            [exact EN | simpl; lia]);
      rewrite EN
  end.
  cbv beta iota. unfold mbind, M_bind at 1.
  rewrite query_outcome, prepare_outcome. cbn [prepared negb]. cbv iota.
  unfold prepare_resolve. cbn [bucket method path].
  destruct (String.eqb_spec name "") as [| _]; [contradiction |].
  destruct (String.eqb_spec (S3BucketEndpoint (S3_Region self)) "")
    as [| _]; [contradiction |].
  cbn [negb]. cbv iota.
  apply Z.leb_le in Hidx. rewrite Hidx. cbv beta iota.
  simpl shouldRetry. cbn [negb].
  exists w2. split; [reflexivity |]. split; [congruence |].
  split; congruence.
Qed.

(** What [run] sends and what it leaves of the headers: everything but
    Content-Length. *)
Lemma run_keeps_headers (req : request) (resp : option Shape) (w w' : World)
    (out : outcome (option Response * option error * request
                    * option Shape)) :
  run req resp w = (out, w') ->
  (sent w' = sent w
   \/ exists q, sent w' = q :: sent w
                /\ forall name, name <> "Content-Length" ->
                     ReqHeader q !! name = headers req !! name)
  /\ (forall r e req' s, out = Done (r, e, req', s) ->
        forall name, name <> "Content-Length" ->
          headers req' !! name = headers req !! name).
Proof.
  rewrite run_outcome.
  destruct (url_Parse (baseurl req)) as [u | msg].
  2:{ intros [= <- <-]. split; [now left |].
      intros r e req' s [= <- <- <- <-]. auto. }
  assert (Hq : forall name, name <> "Content-Length" ->
                 ReqHeader (http_request u req) !! name
                 = headers req !! name).
  { intros name Hne. simpl. now apply lookup_delete_ne. }
  assert (Hr : forall name, name <> "Content-Length" ->
                 headers (set_headers (delete "Content-Length" (headers req))
                            req) !! name
                 = headers req !! name).
  { intros name Hne. simpl. now apply lookup_delete_ne. }
  destruct (headers req !! "Content-Length") as [[| v0 v] |];
    [intros [= <- <-]; split; [now left | discriminate] | |];
    cbv zeta;
    (destruct (wire w (length (sent w)) (http_request u req))
       as [[hresp |] [err |]];
     [ | destruct (negb (StatusCode hresp =? 200)
                   && negb (StatusCode hresp =? 204));
         [| destruct resp as [shape |]] | | ];
     intros [= <- <-];
     (split; [right; exists (http_request u req); split;
              [reflexivity | exact Hq] |]);
     intros r e req' s; intros [= <- <- <- <-] || intros [=];
     exact Hr).
Qed.

(** The loop of [GetResponse] sends what [prepare] has left. *)
Lemma GetResponse_loop_same_headers (fuel : nat) :
  forall (req : request) (a : Attempt) (w w' : World)
         (out : outcome (option Response * option error)),
    GetResponse_loop fuel req a w = (out, w') ->
    exists qs : list Request,
      sent w' = (qs ++ sent w)%list
      /\ Forall (fun q => forall name, name <> "Content-Length" ->
                   ReqHeader q !! name = headers req !! name) qs.
Proof.
  induction fuel as [| fuel IH]; intros req a w w' out E.
  - simpl in E. injection E as <- <-. exists [].
    split; [reflexivity | constructor].
  - simpl in E. unfold mbind, M_bind at 1 in E.
    destruct (Next_returns a w) as (b & a1 & w1 & EN). rewrite EN in E.
    destruct (Next_network_frame _ _ _ _ _ EN) as (Hsent1 & _).
    destruct b.
    2:{ injection E as <- <-. exists []. auto. }
    unfold mbind, M_bind at 1 in E.
    destruct (run req None w1) as [[[[[resp err] req1] shape] | msg |] w2]
      eqn:Erun;
      destruct (run_keeps_headers _ _ _ _ _ Erun) as (Hsent2 & Hkeep).
    2,3: injection E as <- <-;
         (destruct Hsent2 as [Hs | (q & Hs & Hq)];
          [ exists []; simpl; split; [congruence | constructor]
          | exists [q]; simpl; split; [congruence | auto] ]).
    specialize (Hkeep _ _ _ _ eq_refl).
    assert (Hfirst : exists qs1 : list Request,
      sent w2 = (qs1 ++ sent w)%list
      /\ Forall (fun q => forall name, name <> "Content-Length" ->
                   ReqHeader q !! name = headers req !! name) qs1).
    { destruct Hsent2 as [Hs | (q & Hs & Hq)].
      - exists []. simpl. split; [congruence | constructor].
      - exists [q]. simpl. split; [congruence | auto]. }
    destruct Hfirst as (qs1 & Hs2 & Hall1).
    unfold mbind, M_bind at 1 in E.
    assert (Hrest : forall (a2 : Attempt) (w3 : World) (again : bool),
      sent w3 = sent w2 ->
      (if again
       then GetResponse_loop fuel req1 a2
       else match err with
            | Some err => mret (None, Some err)
            | None => mret (resp, None)
            end) w3 = (out, w') ->
      exists qs : list Request,
        sent w' = (qs ++ sent w)%list
        /\ Forall (fun q => forall name, name <> "Content-Length" ->
                     ReqHeader q !! name = headers req !! name) qs).
    { intros a2 w3 again Hs3 E3. destruct again.
      - destruct (IH _ _ _ _ _ E3) as (qs & Hs & Hall).
        exists (qs ++ qs1)%list. split.
        + rewrite Hs, Hs3, Hs2. now rewrite app_assoc.
        + apply Forall_app. split; [| exact Hall1].
          eapply Forall_impl; [exact Hall |].
          intros q Hq name Hne. simpl in Hq. rewrite (Hq name Hne).
          now apply Hkeep.
      - exists qs1. split; [| exact Hall1].
        destruct err; injection E3 as <- <-; congruence. }
    destruct (shouldRetry err).
    + destruct (HasNext_late a1 w2) as (b2 & a2 & w3 & EH & _).
      pose proof (HasNext_network_frame _ _ _ _ _ EH) as Hs3.
      rewrite EH in E. now apply (Hrest a2 w3 b2).
    + unfold mret, M_ret at 1 in E. now apply (Hrest a1 w2 false).
Qed.

(** X22.  The requests of [GetResponse] are signed once: however many
    attempts are made, and whatever the clock reads between them, each
    request carries the same headers, Date and Authorization among them. *)
Theorem GetResponse_signs_once (fuel : nat) (self : Bucket) (path : string)
    (w w' : World) (out : outcome (option Response * option error)) :
  GetResponse fuel self path w = (out, w') ->
  exists (signed : Header) (qs : list Request),
    sent w' = (qs ++ sent w)%list
    /\ Forall (fun q => forall name, name <> "Content-Length" ->
                 ReqHeader q !! name = signed !! name) qs.
Proof.
  unfold GetResponse. cbv zeta. unfold mbind, M_bind at 1.
  match goal with
  | |- context [prepare ?s ?r w] =>
      pose proof (prepare_network_frame s r w) as (Hs1 & _);
      destruct (prepare_returns s r w) as (err & req1 & w1 & Eprep & _);
      rewrite Eprep in Hs1 |- *
  end.
  simpl in Hs1.
  destruct err as [err |].
  { intros [= <- <-]. exists ∅, []. simpl. split; [exact Hs1 | constructor]. }
  unfold mbind, M_bind at 1.
  destruct (Start_returns attempts w1) as (w2 & ES & _). rewrite ES.
  assert (Hs2 : sent w2 = sent w1).
  { unfold Start in ES. unfold_M. now injection ES as <-. }
  intros E.
  destruct (GetResponse_loop_same_headers _ _ _ _ _ _ E)
    as (qs & Hs & Hall).
  exists (headers req1), qs. split; [congruence | exact Hall].
Qed.

End MoreLoops.

(** * The further properties on sample values *)

Section MoreSamples.

#[local] Existing Instance sample.platform.

(** Half the delay after the last attempt, the next one is due at the
    end of the delay. *)
Lemma nextSleep_next_time_sample :
  let a := {| strategy := attempts; last := 0; end_ := 5 * Second;
              force := false; count := 1 |} in
  100 * Millisecond + nextSleep a (100 * Millisecond) = 200 * Millisecond
  /\ nextSleep a (100 * Millisecond) <= 200 * Millisecond.
Proof.
  intros a.
  destruct (nextSleep_next_time a (100 * Millisecond)) as [Hnext Hmax].
  - vm_compute. split; discriminate.
  - vm_compute. discriminate.
  - split; [rewrite Hnext; reflexivity | apply Hmax].
Defined.

Lemma HasNext_only_forces_sample :
  let a := {| strategy := attempts; last := 0; end_ := 5 * Second;
              force := false; count := 5 |} in
  exists (a' : Attempt) (w' : World),
    HasNext a (sample.world (100 * Millisecond) (None, None))
    = (Done (true, a'), w')
    /\ count a' = 5 /\ last a' = 0 /\ slept w' = [] /\ sent w' = [].
Proof.
  intros a. do 2 eexists. split; [reflexivity |].
  destruct (HasNext_only_forces a _ true
              (sample.world (100 * Millisecond) (None, None)) _ eq_refl)
    as (_ & Hl & _ & Hc & _ & _ & Hsl & Hse & _).
  auto.
Defined.

(** Five attempts made and six seconds gone: [HasNext] says no, and so
    does [Next] a second later. *)
Lemma HasNext_false_binds_Next_sample :
  let a := {| strategy := attempts; last := 0; end_ := 5 * Second;
              force := false; count := 5 |} in
  HasNext a (sample.read_clock 6 (sample.world Second (None, None)))
  = (Done (false, a),
     sample.read_clock 7 (sample.world Second (None, None)))
  /\ exists w3,
       Next a (sample.read_clock 7 (sample.world Second (None, None)))
       = (Done (false, a), w3).
Proof.
  intros a.
  assert (E : HasNext a (sample.read_clock 6
                           (sample.world Second (None, None)))
              = (Done (false, a),
                 sample.read_clock 7 (sample.world Second (None, None))))
    by reflexivity.
  split; [exact E |].
  apply (HasNext_false_binds_Next a a _ _) with (3 := E).
  - vm_compute. split; discriminate.
  - vm_compute. discriminate.
  - vm_compute. discriminate.
Defined.

(** The second attempt, asked for 50ms after the first: a sleep of
    150ms. *)
Lemma Next_sleeps_at_most_Delay_sample :
  let a := {| strategy := attempts; last := 0; end_ := 5 * Second;
              force := false; count := 1 |} in
  exists (a' : Attempt) (w' : World),
    Next a (sample.read_clock 1
              (sample.world (50 * Millisecond) (None, None)))
    = (Done (true, a'), w')
    /\ slept w' = [150 * Millisecond]
    /\ sent w' = [].
Proof.
  intros a. do 2 eexists. split; [vm_compute; reflexivity |].
  match goal with
  | |- slept ?w' = _ /\ _ =>
      assert (E : exists a',
                Next a (sample.read_clock 1
                          (sample.world (50 * Millisecond) (None, None)))
                = (Done (true, a'), w'))
        by (eexists; vm_compute; reflexivity)
  end.
  destruct E as [a' E].
  assert (Hd : 0 <= Delay (strategy a) <= max_int64)
    by (vm_compute; split; discriminate).
  assert (Hl : last a
               <= clock (sample.read_clock 1
                           (sample.world (50 * Millisecond) (None, None)))
                    (ticks (sample.read_clock 1
                              (sample.world (50 * Millisecond)
                                 (None, None)))))
    by (vm_compute; discriminate).
  destruct (Next_sleeps_at_most_Delay a a' true _ _ Hd Hl E)
    as (_ & _ & Hsent & _).
  split; [reflexivity | exact Hsent].
Defined.

Lemma fixed_tries_at_most_MaxTries_sample :
  exists (res : option Response * option error) (w' : World) (k : nat),
    fixed.tries sample.retrying sample.some_request sample.flaky_world
    = (Done res, w')
    /\ sent w' = replicate k sample.some_request
    /\ (k <= 3)%nat.
Proof.
  destruct (fixed_tries_at_most_MaxTries sample.retrying sample.some_request
              sample.flaky_world LinearBackoff_quiet)
    as (res & w' & k & E & Hs & Hk & _).
  exists res, w', k. split; [exact E |].
  split; [rewrite Hs; apply app_nil_r |].
  simpl in Hk. lia.
Defined.

(** A 503 and then a 200 under the default predicate: two executions, and
    the 200 is returned. *)
Lemma fixed_tries_stops_at_first_final_sample :
  exists w',
    fixed.tries sample.retrying sample.some_request sample.flaky_world
    = (Done (Some sample.ok_response, None), w')
    /\ sent w' = [sample.some_request; sample.some_request].
Proof.
  destruct (fixed_tries_stops_at_first_final sample.retrying
              sample.some_request 1 sample.flaky_world LinearBackoff_quiet)
    as (w' & E & Hs).
  - simpl. lia.
  - intros i Hi. assert (i = O) by lia. subst i. reflexivity.
  - reflexivity.
  - exists w'. split; [exact E | exact Hs].
Defined.

(** Three tries that all fail: three waits of 0, 100 and 200 ms, and three
    closed bodies, that of the response handed back among them. *)
Lemma fixed_tries_linear_backoff_sample :
  exists res w',
    fixed.tries sample.always_retry sample.some_request
      (sample.world 1 (Some sample.busy_response, None))
    = (Done res, w')
    /\ slept w' = [200 * Millisecond; 100 * Millisecond; 0]
    /\ closed w' = 3%nat.
Proof.
  destruct (fixed_tries_linear_backoff sample.always_retry
              sample.some_request 3
              (sample.world 1 (Some sample.busy_response, None)))
    as (res & w' & E & Hs & Hc).
  - reflexivity.
  - reflexivity.
  - reflexivity.
  - simpl. lia.
  - intros i q. discriminate.
  - exists res, w'. split; [exact E |]. split; [exact Hs | exact Hc].
Defined.

End MoreSamples.

Section CredentialSamples.

(** The short name of the access key and the long name of the secret
    key. *)
Lemma EnvAuth_environment_sample :
  EnvAuth sample.environment
  = ({| AccessKey := "AKIDEXAMPLE"; SecretKey := "secret"; Token := "" |},
     None)
  /\ (EnvAuth ∅).2
     = Some (OtherError
         "AWS_SECRET_ACCESS_KEY or AWS_SECRET_KEY not found in environment").
Proof.
  split; [reflexivity |].
  destruct (EnvAuth_environment ∅) as (_ & _ & _ & _ & Hmissing).
  apply Hmissing; reflexivity.
Defined.

Lemma GetAuth_passed_in_sample :
  GetAuth sample.no_role sample.unmarshal sample.read_all
    sample.environment "key" "secret" (sample.world 1 (None, None))
  = (Done ({| AccessKey := "key"; SecretKey := "secret"; Token := "" |},
           None), sample.world 1 (None, None))
  /\ GetAuth sample.no_role sample.unmarshal sample.read_all
       sample.environment "key" "" (sample.world 1 (None, None))
     = GetAuth sample.no_role sample.unmarshal sample.read_all
         sample.environment "" "" (sample.world 1 (None, None)).
Proof.
  destruct (GetAuth_passed_in sample.no_role sample.unmarshal
              sample.read_all sample.environment "key" "secret"
              (sample.world 1 (None, None))) as [Hboth _].
  destruct (GetAuth_passed_in sample.no_role sample.unmarshal
              sample.read_all sample.environment "key" ""
              (sample.world 1 (None, None))) as [_ Hone].
  split; [apply Hboth; discriminate | apply Hone; now right].
Defined.

(** No credentials anywhere: the 404 of the metadata service is lost
    behind the fixed message. *)
Lemma GetAuth_fallback_sample :
  GetAuth sample.no_role sample.unmarshal sample.read_all
    sample.environment "" "" (sample.world 1 (None, None))
  = (Done ({| AccessKey := "AKIDEXAMPLE"; SecretKey := "secret";
              Token := "" |}, None), sample.world 1 (None, None))
  /\ exists w',
       GetAuth sample.no_role sample.unmarshal sample.read_all ∅ "" ""
         (sample.world 1 (None, None))
       = (Done ({| AccessKey := ""; SecretKey := ""; Token := "" |},
                Some (OtherError "No valid AWS authentication found")), w').
Proof.
  destruct (GetAuth_fallback sample.no_role sample.unmarshal sample.read_all
              sample.environment (sample.world 1 (None, None)))
    as (Henv & _ & _).
  destruct (GetAuth_fallback sample.no_role sample.unmarshal sample.read_all
              ∅ (sample.world 1 (None, None))) as (_ & _ & Hnone).
  split; [apply Henv; reflexivity |].
  eexists. eapply Hnone; [discriminate |]. vm_compute. reflexivity.
Defined.

Lemma getInstanceCredentials_role_first_sample :
  exists e,
    getInstanceCredentials sample.no_role sample.unmarshal sample.read_all
      (sample.world 1 (None, None))
    = (Done (credentials_zero, Some e),
       with_closed 1 (sample.world 1 (None, None))).
Proof.
  destruct (getInstanceCredentials_role_first sample.no_role
              sample.unmarshal sample.read_all
              (sample.world 1 (None, None)) (sample.world 1 (None, None))
              (Some sample.not_found_response, None) eq_refl)
    as (_ & Hstatus & _).
  apply (Hstatus sample.not_found_response eq_refl). discriminate.
Defined.

End CredentialSamples.

Section RunSamples.

#[local] Existing Instance sample.platform.

(** An upload of eleven bytes: Content-Length leaves the headers and
    becomes the content length of the request. *)
Lemma run_never_forwards_Content_Length_sample :
  exists q : Request,
    sent (run sample.upload_request None
            (sample.world 1 (Some sample.ok_response, None))).2 = [q]
    /\ ReqHeader q !! "Content-Length" = None
    /\ ReqHeader q !! "Date" = Some ["Thu, 01 Jan 1970 00:00:00 UTC"]
    /\ ContentLength q = 11.
Proof.
  destruct (run_never_forwards_Content_Length sample.upload_request None
              (sample.world 1 (Some sample.ok_response, None)) _ _
              (surjective_pairing _))
    as [Hsame | (q & Hq & Hnone & Hother & Hlen & _)].
  - vm_compute in Hsame. discriminate.
  - exists q. split; [exact Hq |]. split; [exact Hnone |].
    split; [rewrite Hother by discriminate; reflexivity |].
    rewrite Hlen. reflexivity.
Defined.

Lemma query_closes_body_sample :
  closed (query sample.s3_useast (sample.fresh "example" "key") None
            (sample.world 1 (Some sample.ok_response, None))).2 = 1%nat
  /\ closed (query sample.s3_useast (sample.fresh "example" "key") None
               (sample.world 1 (Some sample.denied_response, None))).2
     = 2%nat.
Proof.
  split.
  - destruct (query_closes_body sample.s3_useast
                (sample.fresh "example" "key")
                (sample.world 1 (Some sample.ok_response, None)) _
                (http_request
                   {| Scheme := "https"; Host := "s3.amazonaws.com";
                      Path := ""; RawQuery := "" |}
                   sample.by_path_request)
                sample.ok_response _ (surjective_pairing _))
      as [Hok _]; [vm_compute; reflexivity | reflexivity |].
    now destruct (Hok (or_introl eq_refl)).
  - destruct (query_closes_body sample.s3_useast
                (sample.fresh "example" "key")
                (sample.world 1 (Some sample.denied_response, None)) _
                (http_request
                   {| Scheme := "https"; Host := "s3.amazonaws.com";
                      Path := ""; RawQuery := "" |}
                   sample.by_path_request)
                sample.denied_response _ (surjective_pairing _))
      as [_ Hbad]; [vm_compute; reflexivity | reflexivity |].
    now destruct (Hbad ltac:(discriminate) ltac:(discriminate)).
Defined.

Lemma PutReader_sends_length_sample :
  exists q : Request,
    sent (PutReader {| Bucket_S3 := sample.s3_useast;
                       Bucket_Name := "example" |}
            "key" "hello world" 11 "text/plain" "private"
            (sample.world 1 (Some sample.ok_response, None))).2 = [q]
    /\ ContentLength q = 11
    /\ ReqBody q = Some "hello world".
Proof.
  assert (Hsign : forall a m p ps hs,
             (sign a m p ps hs).2 !! "Content-Length"
             = hs !! "Content-Length").
  { intros a m p ps hs. apply lookup_insert_ne. discriminate. }
  assert (Hlen : min_int64 <= 11 <= max_int64)
    by (vm_compute; split; discriminate).
  destruct (PutReader_sends_length
              {| Bucket_S3 := sample.s3_useast; Bucket_Name := "example" |}
              "key" "hello world" 11 "text/plain" "private"
              (sample.world 1 (Some sample.ok_response, None)) _ _
              Hsign Hlen (surjective_pairing _))
    as [Hsame | (q & Hq & Hcl & _ & Hbody & _)].
  - vm_compute in Hsame. discriminate.
  - exists q. auto.
Defined.

Lemma prepare_without_bucket_sample :
  exists (req' : request) (w' : World),
    prepare sample.s3_useast (sample.fresh "" "") (sample.world 1 (None, None))
    = (Done (Some (BadEndpoint "" "unsupported protocol scheme"), req'), w')
    /\ path req' = "/" /\ signpath req' = "/" /\ baseurl req' = "".
Proof.
  do 2 eexists. split; [vm_compute; reflexivity |].
  match goal with
  | |- path ?r = _ /\ _ =>
      destruct (prepare_without_bucket sample.s3_useast
                  (sample.fresh "" "") r
                  (Some (BadEndpoint "" "unsupported protocol scheme"))
                  (sample.world 1 (None, None))
                  (sample.world 1 (None, None)) eq_refl eq_refl)
        as (Hp & Hs & Hb & _)
  end.
  - vm_compute. reflexivity.
  - auto.
Defined.

(** The bucket "a/b" is refused once; the second call signs the request
    for the host "${bucket}.s3.example.com". *)
Lemma prepare_after_refusal_sample :
  exists (req1 req2 : request) (w2' : World),
    prepare sample.s3_hosted (sample.fresh "a/b" "key")
      (sample.world 1 (None, None))
    = (Done (Some (BadBucket "a/b"), req1), sample.world 1 (None, None))
    /\ prepare sample.s3_hosted req1 (sample.world 1 (None, None))
       = (Done (None, req2), w2')
    /\ baseurl req2 = "https://${bucket}.s3.example.com".
Proof.
  assert (E : exists req1,
    prepare sample.s3_hosted (sample.fresh "a/b" "key")
      (sample.world 1 (None, None))
    = (Done (Some (BadBucket "a/b"), req1), sample.world 1 (None, None)))
    by (eexists; vm_compute; reflexivity).
  destruct E as [req1 E].
  destruct (prepare_after_refusal sample.s3_hosted _ _ _ _ _ E
              (sample.world 1 (None, None)))
    as (err2 & req2 & w2' & E2 & _ & Hbase & Hok).
  rewrite (Hok _ eq_refl) in E2.
  exists req1, req2, w2'. auto.
Defined.

Lemma prepared_request_has_url_sample :
  url sample.by_path_request
  = inl {| Scheme := "https"; Host := "s3.amazonaws.com";
           Path := "/example/key"; RawQuery := "" |}.
Proof.
  assert (E1 : prepare sample.s3_useast (sample.fresh "example" "key")
                 (sample.world 1 (None, None))
               = (Done (None, sample.by_path_request),
                  sample.read_clock 1 (sample.world 1 (None, None))))
    by (vm_compute; reflexivity).
  destruct (prepared_request_has_url _ _ _ _ _ E1) as (u & Hu & Hurl & _).
  rewrite Hurl. vm_compute in Hu. injection Hu as <-. reflexivity.
Defined.

Lemma Regions_address_by_path_sample :
  exists (err : option error) (req' : request) (w' : World),
    prepare {| S3_Auth := sample.auth; S3_Region := EUWest; private := 0 |}
      (sample.fresh "a/b" "key") (sample.world 1 (None, None))
    = (Done (err, req'), w')
    /\ err = None
    /\ path req' = "/a/b/key"
    /\ baseurl req' = "https://s3-eu-west-1.amazonaws.com".
Proof.
  do 3 eexists. split; [vm_compute; reflexivity |].
  split; [reflexivity |].
  match goal with
  | |- path ?r = _ /\ baseurl _ = _ =>
      destruct (Regions_address_by_path "eu-west-1"
                  {| S3_Auth := sample.auth; S3_Region := EUWest;
                     private := 0 |}
                  (sample.fresh "a/b" "key") r None
                  (sample.world 1 (None, None))
                  (sample.read_clock 1 (sample.world 1 (None, None))))
        as (_ & _ & Hp & _ & Hb)
  end.
  - vm_compute. reflexivity.
  - reflexivity.
  - discriminate.
  - vm_compute. reflexivity.
  - split; [rewrite Hp; reflexivity | rewrite Hb; reflexivity].
Defined.

End RunSamples.

Section LoopSamples2.

#[local] Existing Instance sample.platform.

(** A server that keeps cutting the connection: [DelBucket] sends its five
    requests before it returns the error. *)
Lemma DelBucket_at_least_five_sample :
  exists w',
    DelBucket 10 {| Bucket_S3 := sample.s3_useast;
                    Bucket_Name := "example" |}
      (sample.world Second (None, Some ErrEOF))
    = (Done (Some ErrEOF), w')
    /\ (5 <= length (sent w'))%nat.
Proof.
  assert (E : exists w',
    DelBucket 10 {| Bucket_S3 := sample.s3_useast;
                    Bucket_Name := "example" |}
      (sample.world Second (None, Some ErrEOF))
    = (Done (Some ErrEOF), w'))
    by (eexists; vm_compute; reflexivity).
  destruct E as [w' E].
  assert (Hsign : forall a m p ps hs,
             (sign a m p ps hs).2 !! "Content-Length"
             = hs !! "Content-Length").
  { intros a m p ps hs. apply lookup_insert_ne. discriminate. }
  assert (Hu : url_Parse (S3Endpoint (S3_Region sample.s3_useast))
               = inl {| Scheme := "https"; Host := "s3.amazonaws.com";
                        Path := ""; RawQuery := "" |})
    by (vm_compute; reflexivity).
  destruct (DelBucket_at_least_five sample.s3_useast _
              "example" (sample.world Second (None, Some ErrEOF))
              eq_refl Hu Hsign) as [Hmin _].
  - discriminate.
  - intros i q. exists ErrEOF. split; reflexivity.
  - destruct (Hmin 10%nat _ w' E) as [Hlen _]; [discriminate |].
    exists w'. split; [exact E |]. simpl in Hlen. lia.
Defined.

Lemma DelBucket_first_success_sample :
  exists (q : Request) (w' : World),
    DelBucket 1 {| Bucket_S3 := sample.s3_useast; Bucket_Name := "example" |}
      (sample.world Second (Some sample.deleted_response, None))
    = (Done None, w')
    /\ sent w' = [q]
    /\ Method q = "DELETE"
    /\ Path (ReqURL q) = "/example/"
    /\ closed w' = 1%nat.
Proof.
  assert (Hsign : forall a m p ps hs,
             (sign a m p ps hs).2 !! "Content-Length"
             = hs !! "Content-Length").
  { intros a m p ps hs. apply lookup_insert_ne. discriminate. }
  assert (Hu : url_Parse (S3Endpoint (S3_Region sample.s3_useast))
               = inl {| Scheme := "https"; Host := "s3.amazonaws.com";
                        Path := ""; RawQuery := "" |})
    by (vm_compute; reflexivity).
  destruct (DelBucket_first_success sample.s3_useast _
              "example" 0
              (sample.world Second (Some sample.deleted_response, None))
              sample.deleted_response eq_refl Hu Hsign)
    as (q & w' & E & Hs & Hm & Hp & Hc & _).
  - discriminate.
  - reflexivity.
  - now right.
  - exists q, w'. auto.
Defined.

Lemma DelBucket_bad_bucket_sample :
  exists w',
    DelBucket 1 {| Bucket_S3 := sample.s3_hosted; Bucket_Name := "a/b" |}
      (sample.world Second (Some sample.deleted_response, None))
    = (Done (Some (BadBucket "a/b")), w')
    /\ sent w' = [] /\ slept w' = [].
Proof.
  destruct (DelBucket_bad_bucket sample.s3_hosted "a/b" 0
              (sample.world Second (Some sample.deleted_response, None)))
    as (w' & E & Hs & Hsl & _).
  - discriminate.
  - exists "/"%char. split; [simpl; auto | auto].
  - exists w'. auto.
Defined.

(** Five attempts over five seconds, all with the Date of the one
    signature. *)
Lemma GetResponse_signs_once_sample :
  exists (w' : World) (signed : Header),
    GetResponse 10 {| Bucket_S3 := sample.s3_useast;
                      Bucket_Name := "example" |} "key"
      (sample.world Second (None, Some ErrEOF))
    = (Done (None, Some ErrEOF), w')
    /\ length (sent w') = 5%nat
    /\ Forall (fun q => ReqHeader q !! "Date" = signed !! "Date") (sent w').
Proof.
  assert (E : exists w',
    GetResponse 10 {| Bucket_S3 := sample.s3_useast;
                      Bucket_Name := "example" |} "key"
      (sample.world Second (None, Some ErrEOF))
    = (Done (None, Some ErrEOF), w')
    /\ length (sent w') = 5%nat)
    by (eexists; split; vm_compute; reflexivity).
  destruct E as (w' & E & Hfive).
  destruct (GetResponse_signs_once _ _ _ _ _ _ E)
    as (signed & qs & Hs & Hall).
  exists w', signed. split; [exact E |]. split; [exact Hfive |].
  rewrite Hs. simpl. rewrite app_nil_r.
  eapply Forall_impl; [exact Hall |].
  intros q Hq. apply Hq. discriminate.
Defined.

End LoopSamples2.

